(** * SimpleCam: a libcamera capture example, embedded in Rocq

    The development follows [SimpleCam.cpp] and [SimpleCam.h].  The program is
    glue code around the camera library, so the embedding has three layers:

    - the vendor objects the program handles ([Camera], [Request],
      [FrameBuffer], ...), reduced to what the program reads from them;
    - a small monad [M] in which every vendor call and every output statement
      leaves an [Event] in a trace, where the vendor's answers come from an
      oracle [Vendor], and where a null or out-of-range access is [Undefined];
    - the member functions [requestComplete], [processRequest], [cameraName],
      [start], [go] and [finish], written in that monad.

    The theorems at the end of the file are statements about the traces and
    the return codes of these functions. *)

From Stdlib Require Import ZArith NArith Arith List String Ascii Bool Lia.
Import ListNotations.

Local Open Scope string_scope.

(* ------------------------------------------------------------------------- *)
(** ** Text output *)
(* ------------------------------------------------------------------------- *)

Module Text.

(** [std::endl], as far as the text is concerned. *)
Definition endl : string := String (ascii_of_nat 10) EmptyString.

Definition digit (d : N) : ascii := ascii_of_N (48 + d).

(** Decimal digits of an unsigned value, most significant first.  The fuel
    only makes the recursion structural; [to_string_N] gives enough of it. *)
Fixpoint digits (fuel : nat) (n : N) : string :=
  match fuel with
  | O => EmptyString
  | S fuel' =>
      if (n <? 10)%N then String (digit n) EmptyString
      else digits fuel' (n / 10)%N ++ String (digit (n mod 10)%N) EmptyString
  end.

(** [operator<<(unsigned int)] with the default flags. *)
Definition to_string_N (n : N) : string :=
  digits (S (N.to_nat (N.log2 n))) n.

(** [operator<<(int)] with the default flags. *)
Definition to_string_Z (z : Z) : string :=
  if (z <? 0)%Z then String "-"%char (to_string_N (Z.abs_N z))
  else to_string_N (Z.to_N z).

Fixpoint replicate (n : nat) (c : ascii) : string :=
  match n with
  | O => EmptyString
  | S n' => String c (replicate n' c)
  end.

(** [std::setw(w) << std::setfill(c) << s]: the field is at least [w]
    characters wide, the fill characters go to the left (the default
    adjustment), and a longer [s] is not truncated. *)
Definition setw_setfill (w : nat) (c : ascii) (s : string) : string :=
  replicate (w - String.length s) c ++ s.

(** Number of occurrences of a character. *)
Fixpoint count_char (c : ascii) (s : string) : nat :=
  match s with
  | EmptyString => 0
  | String a s' => (if Ascii.eqb a c then 1 else 0) + count_char c s'
  end.

(** The number a string of decimal digits stands for, [acc] being the value
    of the digits already read. *)
Fixpoint decimal_value_from (acc : N) (s : string) : N :=
  match s with
  | EmptyString => acc
  | String a s' => decimal_value_from (10 * acc + (N_of_ascii a - 48))%N s'
  end.

Definition decimal_value (s : string) : N := decimal_value_from 0 s.

Definition is_digit (a : ascii) : bool :=
  let n := N_of_ascii a in ((48 <=? n) && (n <=? 57))%N.

Fixpoint all_digits (s : string) : bool :=
  match s with
  | EmptyString => true
  | String a s' => is_digit a && all_digits s'
  end.

Fixpoint has_prefix (p s : string) : bool :=
  match p, s with
  | EmptyString, _ => true
  | String a p', String b s' => Ascii.eqb a b && has_prefix p' s'
  | String _ _, EmptyString => false
  end.

Fixpoint rev_string (s : string) : string :=
  match s with
  | EmptyString => EmptyString
  | String a s' => rev_string s' ++ String a EmptyString
  end.

Definition has_suffix (p s : string) : bool :=
  has_prefix (rev_string p) (rev_string s).

End Text.

Import Text.

(* ------------------------------------------------------------------------- *)
(** ** Constants *)
(* ------------------------------------------------------------------------- *)

(** [<cstdlib>] *)
Definition EXIT_SUCCESS : Z := 0.
Definition EXIT_FAILURE : Z := 1.

(** [#define TIMEOUT_SEC 3] *)
Definition TIMEOUT_SEC : Z := 3.

(** [libcamera::properties::LocationEnum] *)
Definition CameraLocationFront : Z := 0.
Definition CameraLocationBack : Z := 1.
Definition CameraLocationExternal : Z := 2.

(* ------------------------------------------------------------------------- *)
(** ** Vendor objects

    The program uses the library's objects opaquely.  Each record keeps the
    identity of the object and the values the program reads from it. *)
(* ------------------------------------------------------------------------- *)

(** [Stream *] *)
Definition Stream := nat.

(** [libcamera::Size]; both fields are [unsigned int]. *)
Record Size := mkSize { width : N; height : N }.

(** [libcamera::StreamConfiguration]: [size], [stride] and [pixelFormat] are
    public fields, [cfg_stream] is the accessor [stream()]. *)
Record StreamConfiguration := mkStreamConfiguration {
  size : Size;
  stride : N;
  pixelFormat : string;            (* pixelFormat.toString() *)
  cfg_stream : Stream
}.

(** [libcamera::CameraConfiguration]: the configuration generated for one
    role holds the entry [at(0)], which the program takes a reference to, and
    possibly more. *)
Record CameraConfiguration := mkCameraConfiguration {
  at0 : StreamConfiguration;
  others : list StreamConfiguration
}.

(** The range [*config]. *)
Definition entries (config : CameraConfiguration) : list StreamConfiguration :=
  at0 config :: others config.

(** [libcamera::Camera], through [id()], [properties()] and [controls()]. *)
Record Camera := mkCamera {
  cam_id : string;
  cam_location : Z;                         (* props.get(properties::Location) *)
  cam_model : option string;                (* props.contains / props.get(properties::Model) *)
  cam_controls : list (string * string * string);
      (* per control: name(), info.toString(), info.def().toString() *)
  cam_properties : list (N * string)        (* per property: id, value.toString() *)
}.

(** [FrameMetadata::Plane] *)
Record Plane := mkPlane { bytesused : N }.

(** [libcamera::FrameMetadata] *)
Record FrameMetadata := mkFrameMetadata {
  sequence : N;
  planes : list Plane
}.

(** [libcamera::Span<uint8_t>]: where the bytes are and how many. *)
Record Span := mkSpan { data : N; span_size : N }.

(** [libcamera::FrameBuffer]: [fb_mapped] is what mapping the buffer for
    reading gives ([libcamera::MappedFrameBuffer::planes()], a vector with
    one span per mapped plane). *)
Record FrameBuffer := mkFrameBuffer {
  fb_cookie : nat;
  metadata : FrameMetadata;
  fb_mapped : list Span
}.

(** [Request::Status] *)
Inductive Status := RequestPending | RequestComplete | RequestCancelled.

(** [Request::ReuseFlag] *)
Inductive ReuseFlag := Default | ReuseBuffers.

(** [libcamera::Request]: [buffers] is the [BufferMap], in iteration order. *)
Record Request := mkRequest {
  req_cookie : nat;
  status : Status;
  buffers : list (Stream * FrameBuffer)
}.

(** [libcamera::controls], the three the program sets. *)
Inductive ControlId := AnalogueGain | ExposureTime | ExposureValue.

(** OpenCV matrix types; the program uses one. *)
Inductive MatType := CV_8UC1.

(** [cv::Mat] built on user data: [rows] and [cols] are [int]. *)
Record Mat := mkMat {
  rows : Z;
  cols : Z;
  mat_type : MatType;
  mat_data : N
}.

(** [libcamera::FrameBufferAllocator], built for a camera handle. *)
Record FrameBufferAllocator := mkAllocator { alloc_camera : option Camera }.

(** [libcamera::CameraManager]; the number tells the managers of different
    [SimpleCam] objects apart. *)
Definition CameraManager := nat.

(** What the event loop holds for later: [std::bind(&processRequest, request)]. *)
Inductive Call := ProcessRequest (request : Request).

(** Modelled from the spec: [EventLoop], whose source ([event_loop.h]) is
    imported by the program and is not part of the repository's source files.
    The spec describes it as the thin wrapper that redirects the vendor's
    callback to the main thread; the model keeps the calls that wait to run. *)
Record EventLoop := mkEventLoop { pending : list Call }.

(** What happens while [loop.exec()] runs: the vendor's thread delivers a
    completed request to the connected slot, or the loop runs the oldest
    waiting call.  The interleaving is the environment's choice. *)
Inductive LoopStep :=
| Completion (request : Request)
| Dispatch.

(* ------------------------------------------------------------------------- *)
(** ** Events *)
(* ------------------------------------------------------------------------- *)

(** One constructor per vendor call that acts on the outside world, with the
    arguments the program passes and the value the vendor returns, plus the
    output statements. *)
Inductive Event :=
| CmStart                                             (* cm->start() *)
| CmStop                                              (* cm->stop() *)
| Acquire (c : Camera)                                (* camera->acquire() *)
| GenerateConfiguration (c : Camera)                  (* camera->generateConfiguration *)
| Configure (c : Camera) (config : CameraConfiguration) (ret : Z)
| Validate (config : CameraConfiguration)             (* config->validate() *)
| NewAllocator (a : FrameBufferAllocator)             (* new FrameBufferAllocator(camera) *)
| Allocate (s : Stream) (ret : Z)                     (* allocator->allocate *)
| CreateRequest (r : option Request)                  (* camera->createRequest() *)
| AddBuffer (r : Request) (s : Stream) (b : FrameBuffer) (ret : Z)
| SetControl (r : Request) (ctl : ControlId) (v : Z)  (* request->controls().set *)
| Connect (c : Camera)                                (* requestCompleted.connect(requestComplete) *)
| CameraStart (c : Camera)                            (* camera->start() *)
| QueueRequest (c : Camera) (r : Request)             (* camera->queueRequest *)
| LoopTimeout (sec : Z)                               (* loop.timeout *)
| CallLater (call : Call)                             (* loop.callLater *)
| RequestCompleted (r : Request)                      (* the signal, emitted by the vendor *)
| Reuse (r : Request) (flag : ReuseFlag)              (* request->reuse *)
| MapBuffer (b : FrameBuffer)                         (* MappedFrameBuffer(buffer, Read) *)
| Imwrite (path : string) (image : Mat)               (* cv::imwrite *)
| CameraStop (c : Camera)                             (* camera->stop() *)
| AllocatorFree (s : option Stream)                   (* allocator->free(stream) *)
| AllocatorDelete (a : FrameBufferAllocator)          (* delete allocator *)
| Release (c : Camera)                                (* camera->release() *)
| CameraReset                                         (* camera.reset() *)
| Cout (text : string)                                (* one statement on std::cout *)
| Cerr (text : string).                               (* one statement on std::cerr *)

(* ------------------------------------------------------------------------- *)
(** ** The vendor as an oracle *)
(* ------------------------------------------------------------------------- *)

(** What the library answers.  Calls whose answer may change from one call to
    the next take the number of earlier calls of the same kind, so every
    deterministic behaviour of the library is one [Vendor]. *)
Record Vendor := mkVendor {
  v_cameras : list Camera;                                   (* cm->cameras() *)
  v_generateConfiguration : Camera -> option (list StreamConfiguration);
      (* camera->generateConfiguration({Viewfinder}): null, or the entries
         of the configuration it points to *)
  v_toString : StreamConfiguration -> string;                (* StreamConfiguration::toString *)
  v_configure : nat -> CameraConfiguration -> Z * CameraConfiguration;
      (* return code, and the configuration as the call leaves it *)
  v_validate : CameraConfiguration -> CameraConfiguration;   (* the adjusted configuration *)
  v_allocate : nat -> Stream -> Z;
  v_buffers : Stream -> list FrameBuffer;                    (* allocator->buffers(stream) *)
  v_createRequest : nat -> option Request;
  v_addBuffer : nat -> Request -> Stream -> FrameBuffer -> Z;
  v_configuration : Stream -> StreamConfiguration;           (* stream->configuration() *)
  v_clock : nat -> Z;                                        (* clock() *)
  v_seconds_cout : Z -> string;
      (* std::cout << (double)ticks / CLOCKS_PER_SEC *)
  v_seconds_to_string : Z -> string;
      (* std::to_string((double)ticks / CLOCKS_PER_SEC) *)
  v_schedule : nat -> list LoopStep;                         (* what happens during loop.exec() *)
  v_exit : nat -> Z                                          (* what loop.exec() returns *)
}.

(* ------------------------------------------------------------------------- *)
(** ** Program state *)
(* ------------------------------------------------------------------------- *)

(** The non-static data members of one [SimpleCam] object.  A pointer that
    has not been set, or whose object is gone, is [None]. *)
Record SimpleCam := mkSimpleCam {
  stream : option Stream;
  allocator : option FrameBufferAllocator;
  cm : option CameraManager;
  requests : list Request
}.

(** How many calls of each counted kind were made. *)
Record Calls := mkCalls {
  n_configure : nat;
  n_allocate : nat;
  n_createRequest : nat;
  n_addBuffer : nat;
  n_clock : nat;
  n_exec : nat
}.

(** [camera] and [loop] are the two objects defined at namespace scope in
    [SimpleCam.cpp], lines 25-26 ([SimpleCam::camera], [SimpleCam::loop]),
    and used by the static member functions [requestComplete] (line 48) and
    [processRequest] (line 96), which have no [this]: one of each for the
    whole program.  [SimpleCam.h], lines 38-39, declares both among the
    members without the keyword [static], which would give every object a
    handle and a loop of its own; a member defined out of class must be
    declared [static], so the two files do not compile as they are.  What is
    followed here is [SimpleCam.cpp]: its definitions and the use it makes
    of them, the program one gets with [static] added to the two
    declarations.  That the two are shared is therefore a fact of this
    record and of the two definitions it follows, not something the
    functions below establish.
    [objects] is the store of [SimpleCam] instances, addressed by [this]. *)
Record World := mkWorld {
  camera : option Camera;
  loop : EventLoop;
  objects : nat -> SimpleCam;
  calls : Calls
}.

Definition set_camera (c : option Camera) (w : World) : World :=
  mkWorld c (loop w) (objects w) (calls w).

Definition set_loop (l : EventLoop) (w : World) : World :=
  mkWorld (camera w) l (objects w) (calls w).

Definition set_calls (k : Calls) (w : World) : World :=
  mkWorld (camera w) (loop w) (objects w) k.

Definition set_object (this : nat) (o : SimpleCam) (w : World) : World :=
  mkWorld (camera w) (loop w)
          (fun p => if Nat.eqb p this then o else objects w p) (calls w).

Definition with_stream (s : option Stream) (o : SimpleCam) : SimpleCam :=
  mkSimpleCam s (allocator o) (cm o) (requests o).

Definition with_allocator (a : option FrameBufferAllocator) (o : SimpleCam) : SimpleCam :=
  mkSimpleCam (stream o) a (cm o) (requests o).

Definition with_cm (m : option CameraManager) (o : SimpleCam) : SimpleCam :=
  mkSimpleCam (stream o) (allocator o) m (requests o).

Definition with_requests (l : list Request) (o : SimpleCam) : SimpleCam :=
  mkSimpleCam (stream o) (allocator o) (cm o) l.

(* ------------------------------------------------------------------------- *)
(** ** The monad *)
(* ------------------------------------------------------------------------- *)

(** A computation either returns a value and a new state, or runs into
    undefined behaviour (a null pointer is dereferenced, a vector is indexed
    out of range).  The events up to that point are kept in both cases. *)
Inductive Result (A : Type) : Type :=
| Ok (a : A) (w : World)
| Undefined.

Arguments Ok {A} a w.
Arguments Undefined {A}.

Definition M (A : Type) : Type := World -> list Event * Result A.

Definition ret {A : Type} (a : A) : M A := fun w => ([], Ok a w).

Definition bind {A B : Type} (m : M A) (f : A -> M B) : M B := fun w =>
  match m w with
  | (es, Ok a w') => let (es', r) := f a w' in ((es ++ es')%list, r)
  | (es, Undefined) => (es, Undefined)
  end.

Declare Scope cam_scope.
Delimit Scope cam_scope with cam.

Notation "x <- m ;; k" := (bind m (fun x => k))
  (at level 100, m at next level, right associativity) : cam_scope.
Notation "' p <- m ;; k" := (bind m (fun x => match x with p => k end))
  (at level 100, p pattern, m at next level, right associativity) : cam_scope.
Notation "m ;; k" := (bind m (fun _ => k))
  (at level 100, right associativity) : cam_scope.

Local Open Scope cam_scope.

Definition emit (e : Event) : M unit := fun w => ([e], Ok tt w).

Definition undefined {A : Type} : M A := fun _ => ([], Undefined).

Definition gets {A : Type} (f : World -> A) : M A := fun w => ([], Ok (f w) w).

Definition modify (f : World -> World) : M unit := fun w => ([], Ok tt (f w)).

(** [*p] for a pointer that may be null. *)
Definition deref {A : Type} (f : World -> option A) : M A :=
  p <- gets f ;;
  match p with
  | Some x => ret x
  | None => undefined
  end.

(** A range-based [for] over a container, without early exit. *)
Fixpoint for_each {A : Type} (l : list A) (body : A -> M unit) : M unit :=
  match l with
  | [] => ret tt
  | x :: l' => body x ;; for_each l' body
  end.

(** A loop whose body may leave the enclosing function: [Some code] is
    [return code;], [None] goes on with the next element. *)
Fixpoint for_each_return {A : Type} (l : list A) (body : A -> M (option Z)) : M (option Z) :=
  match l with
  | [] => ret None
  | x :: l' =>
      r <- body x ;;
      match r with
      | Some code => ret (Some code)
      | None => for_each_return l' body
      end
  end.

Definition cout (text : string) : M unit := emit (Cout text).
Definition cerr (text : string) : M unit := emit (Cerr text).

(** The instance [*this]. *)
Definition this_object (this : nat) : M SimpleCam := gets (fun w => objects w this).

Definition update_this (this : nat) (f : SimpleCam -> SimpleCam) : M unit :=
  modify (fun w => set_object this (f (objects w this)) w).

Definition count (sel : Calls -> nat) (bump : Calls -> Calls) : M nat :=
  n <- gets (fun w => sel (calls w)) ;;
  modify (fun w => set_calls (bump (calls w)) w) ;;
  ret n.

Definition bump_configure (k : Calls) : Calls :=
  mkCalls (S (n_configure k)) (n_allocate k) (n_createRequest k) (n_addBuffer k)
          (n_clock k) (n_exec k).

Definition bump_allocate (k : Calls) : Calls :=
  mkCalls (n_configure k) (S (n_allocate k)) (n_createRequest k) (n_addBuffer k)
          (n_clock k) (n_exec k).

Definition bump_createRequest (k : Calls) : Calls :=
  mkCalls (n_configure k) (n_allocate k) (S (n_createRequest k)) (n_addBuffer k)
          (n_clock k) (n_exec k).

Definition bump_addBuffer (k : Calls) : Calls :=
  mkCalls (n_configure k) (n_allocate k) (n_createRequest k) (S (n_addBuffer k))
          (n_clock k) (n_exec k).

Definition bump_clock (k : Calls) : Calls :=
  mkCalls (n_configure k) (n_allocate k) (n_createRequest k) (n_addBuffer k)
          (S (n_clock k)) (n_exec k).

Definition bump_exec (k : Calls) : Calls :=
  mkCalls (n_configure k) (n_allocate k) (n_createRequest k) (n_addBuffer k)
          (n_clock k) (S (n_exec k)).

(** Conversion of an [unsigned int] to [int], as in the arguments of the
    [cv::Mat] constructor. *)
Definition int_of_unsigned (n : N) : Z :=
  let z := (Z.of_N n mod 2 ^ 32)%Z in
  if (z <? 2 ^ 31)%Z then z else (z - 2 ^ 32)%Z.

(* ------------------------------------------------------------------------- *)
(** ** The program *)
(* ------------------------------------------------------------------------- *)

Section Program.

Variable V : Vendor.

(** Modelled from the spec: [EventLoop::callLater] ([event_loop.h] is not
    part of the repository's source files): the call is kept for the loop to
    run on the main thread. *)
Definition callLater (call : Call) : M unit :=
  modify (fun w => set_loop (mkEventLoop (pending (loop w) ++ [call])%list) w) ;;
  emit (CallLater call).

(** [clock()] *)
Definition clock : M Z :=
  n <- count n_clock bump_clock ;;
  ret (v_clock V n).

(** [SimpleCam::requestComplete], lines 43-49. *)
Definition requestComplete (request : Request) : M unit :=
  match status request with
  | RequestCancelled => ret tt
  | _ => callLater (ProcessRequest request)
  end.

(** The loop of lines 64-70: [nplane] counts the planes printed so far and
    [size] is [metadata.planes().size()]. *)
Fixpoint print_planes (l : list Plane) (nplane size : nat) : M unit :=
  match l with
  | [] => ret tt
  | plane :: l' =>
      cout (to_string_N (bytesused plane)) ;;
      let nplane := S nplane in
      (if (nplane <? size)%nat then cout "/" else ret tt) ;;
      print_planes l' nplane size
  end.

(** The body of the loop of lines 55-92, for one entry of the buffer map. *)
Definition process_buffer (bufferPair : Stream * FrameBuffer) : M unit :=
  let stream := fst bufferPair in
  let buffer := snd bufferPair in
  let metadata := metadata buffer in
  cout (" seq: " ++ setw_setfill 6 "0" (to_string_N (sequence metadata))
          ++ " bytesused: ") ;;
  print_planes (planes metadata) 0 (List.length (planes metadata)) ;;
  let cfg := v_configuration V stream in
  let width := width (size cfg) in
  let height := height (size cfg) in
  let stride := stride cfg in
  t <- clock ;;
  cout (" size " ++ to_string_N width ++ "x" ++ to_string_N height
          ++ " stride " ++ to_string_N stride
          ++ " format " ++ pixelFormat cfg
          ++ " sec " ++ v_seconds_cout V t ++ endl) ;;
  emit (MapBuffer buffer) ;;
  let mem := fb_mapped buffer in
  match nth_error mem 0 with
  | None => undefined
  | Some plane0 =>
      let image := mkMat (int_of_unsigned height) (int_of_unsigned width)
                         CV_8UC1 (data plane0) in
      t <- clock ;;
      emit (Imwrite ("images/img" ++ v_seconds_to_string V t ++ ".png") image)
  end.

(** [camera->queueRequest(request)], through the shared handle. *)
Definition queueRequest (request : Request) : M unit :=
  c <- deref camera ;;
  emit (QueueRequest c request).

(** [SimpleCam::processRequest], lines 51-97. *)
Definition processRequest (request : Request) : M unit :=
  for_each (buffers request) process_buffer ;;
  emit (Reuse request ReuseBuffers) ;;
  queueRequest request.

(** [SimpleCam::cameraName], lines 116-139. *)
Definition cameraName (c : Camera) : string :=
  let name :=
    if (cam_location c =? CameraLocationFront)%Z then "Internal front camera"
    else if (cam_location c =? CameraLocationBack)%Z then "Internal back camera"
    else if (cam_location c =? CameraLocationExternal)%Z then
      "External camera" ++
      match cam_model c with
      | Some m => " '" ++ m ++ "'"
      | None => ""
      end
    else "" in
  name ++ " (" ++ cam_id c ++ ")".

(** [config->at(0)] on what [generateConfiguration] returned, lines 244 and
    254: there is an entry to refer to when the pointer is not null and the
    configuration is not empty.  The program checks neither. *)
Definition generated_config (c : Camera) : option CameraConfiguration :=
  match v_generateConfiguration V c with
  | Some (streamConfig :: others) => Some (mkCameraConfiguration streamConfig others)
  | _ => None
  end.

(** [cm->get(cameraId)]: the camera with that id, or null. *)
Definition cm_get (cameraId : string) : option Camera :=
  find (fun c => String.eqb (cam_id c) cameraId) (v_cameras V).

(** [camera->configure(config.get())]: the return code, and the
    configuration as the call leaves it. *)
Definition configure (config : CameraConfiguration) : M (Z * CameraConfiguration) :=
  c <- deref camera ;;
  n <- count n_configure bump_configure ;;
  let r := v_configure V n config in
  emit (Configure c config (fst r)) ;;
  ret r.

(** The body of the loop of lines 341-352, for one entry of [*config]. *)
Definition allocate_stream (this : nat) (cfg : StreamConfiguration) : M (option Z) :=
  _ <- deref (fun w => allocator (objects w this)) ;;
  n <- count n_allocate bump_allocate ;;
  let ret_ := v_allocate V n (cfg_stream cfg) in
  emit (Allocate (cfg_stream cfg) ret_) ;;
  if (ret_ <? 0)%Z then
    cerr ("Can't allocate buffers" ++ endl) ;;
    ret (Some EXIT_FAILURE)
  else
    let allocated := List.length (v_buffers V (cfg_stream cfg)) in
    cout ("Allocated " ++ to_string_N (N.of_nat allocated)
            ++ " buffers for stream" ++ endl) ;;
    ret None.

(** The body of the loop of lines 374-403, for [buffers[i]]. *)
Definition create_request (this : nat) (stream : Stream) (buffer : FrameBuffer)
    : M (option Z) :=
  _ <- deref camera ;;
  n <- count n_createRequest bump_createRequest ;;
  let request := v_createRequest V n in
  emit (CreateRequest request) ;;
  match request with
  | None =>
      cerr ("Can't create request" ++ endl) ;;
      ret (Some EXIT_FAILURE)
  | Some request =>
      n <- count n_addBuffer bump_addBuffer ;;
      let ret_ := v_addBuffer V n request stream buffer in
      emit (AddBuffer request stream buffer ret_) ;;
      if (ret_ <? 0)%Z then
        cerr ("Can't set buffer for request" ++ endl) ;;
        ret (Some EXIT_FAILURE)
      else
        emit (SetControl request AnalogueGain 100000) ;;
        emit (SetControl request ExposureTime 100000) ;;
        emit (SetControl request ExposureValue 100000) ;;
        update_this this (fun o => with_requests (requests o ++ [request])%list o) ;;
        ret None
  end.

(** [SimpleCam::start], lines 141-439.  The result of
    [generateConfiguration] (line 244) is used unchecked: [config->at(0)]
    (line 254) on a null pointer or on a configuration without entries is
    undefined.  Line 161 constructs the manager whatever [cm] held before.
    The vendor allows one [CameraManager] per process (the comment of lines
    158-161); what the library does when a second one is constructed is not
    part of this function and is not modelled, so where a statement says
    that [start] returns, it says so for a state without a manager
    ([no_manager] below). *)
Definition start (this : nat) : M Z :=
  update_this this (with_cm (Some this)) ;;
  emit CmStart ;;
  for_each (v_cameras V) (fun c => cout (" - " ++ cameraName c ++ endl)) ;;
  match v_cameras V with
  | [] =>
      cout ("No cameras were identified on the system." ++ endl) ;;
      _ <- deref (fun w => cm (objects w this)) ;;
      emit CmStop ;;
      ret EXIT_FAILURE
  | first :: _ =>
      let cameraId := cam_id first in
      modify (set_camera (cm_get cameraId)) ;;
      c <- deref camera ;;
      emit (Acquire c) ;;
      c <- deref camera ;;
      emit (GenerateConfiguration c) ;;
      config <- deref (fun _ => generated_config c) ;;
      cout ("Default viewfinder configuration is: " ++ v_toString V (at0 config) ++ endl) ;;
      let streamConfig := at0 config in
      let config :=
        mkCameraConfiguration
          (mkStreamConfiguration (mkSize 2592 1944) (stride streamConfig)
             (pixelFormat streamConfig) (cfg_stream streamConfig))
          (others config) in
      r <- configure config ;;
      let retconfig := fst r in
      let config := snd r in
      if negb (retconfig =? 0)%Z then
        cout ("CONFIGURATION FAILED!" ++ endl) ;;
        ret EXIT_FAILURE
      else
        emit (Validate config) ;;
        let config := v_validate V config in
        cout ("Validated viewfinder configuration is: "
                ++ v_toString V (at0 config) ++ endl) ;;
        r <- configure config ;;
        let config := snd r in
        cp <- deref camera ;;
        cc <- deref camera ;;
        cout ("controls:" ++ endl) ;;
        for_each (cam_controls cc) (fun c =>
          cout (fst (fst c) ++ ": " ++ snd (fst c) ++ " = " ++ snd c ++ endl)) ;;
        cout ("properies:" ++ endl) ;;
        for_each (cam_properties cp) (fun c =>
          cout (to_string_N (fst c) ++ ": " ++ snd c ++ endl)) ;;
        a <- gets (fun w => mkAllocator (camera w)) ;;
        update_this this (with_allocator (Some a)) ;;
        emit (NewAllocator a) ;;
        r <- for_each_return (entries config) (allocate_stream this) ;;
        match r with
        | Some code => ret code
        | None =>
            let stream := cfg_stream (at0 config) in
            update_this this (with_stream (Some stream)) ;;
            let buffers := v_buffers V stream in
            r <- for_each_return buffers (create_request this stream) ;;
            match r with
            | Some code => ret code
            | None =>
                c <- deref camera ;;
                emit (Connect c) ;;
                c <- deref camera ;;
                emit (CameraStart c) ;;
                ret EXIT_SUCCESS
            end
        end
  end.

(** Modelled from the spec: [EventLoop::exec] ([event_loop.h] is not part of
    the repository's source files).  One step of the running loop: a
    completed request reaches the slot connected in [start], or the oldest
    waiting call runs. *)
Definition dispatch : M unit :=
  l <- gets loop ;;
  match pending l with
  | [] => ret tt
  | ProcessRequest request :: l' =>
      modify (set_loop (mkEventLoop l')) ;;
      processRequest request
  end.

(** Modelled from the spec: the body of [EventLoop::exec], step by step, for
    as long as the environment's schedule lasts. *)
Fixpoint run_steps (steps : list LoopStep) : M unit :=
  match steps with
  | [] => ret tt
  | Completion request :: steps' =>
      emit (RequestCompleted request) ;;
      requestComplete request ;;
      run_steps steps'
  | Dispatch :: steps' =>
      dispatch ;;
      run_steps steps'
  end.

(** Modelled from the spec: [EventLoop::exec] runs the loop until it is told
    to exit (here: by the time-out set with [loop.timeout]) and returns the
    exit code. *)
Definition exec : M Z :=
  n <- count n_exec bump_exec ;;
  run_steps (v_schedule V n) ;;
  ret (v_exit V n).

(** [SimpleCam::go], lines 441-458. *)
Definition go (this : nat) : M Z :=
  o <- this_object this ;;
  for_each (requests o) queueRequest ;;
  emit (LoopTimeout TIMEOUT_SEC) ;;
  ret_ <- exec ;;
  cout ("Capture ran for " ++ to_string_Z TIMEOUT_SEC ++ " seconds and "
          ++ "stopped with exit status: " ++ to_string_Z ret_ ++ endl) ;;
  ret EXIT_SUCCESS.

(** [SimpleCam::finish], lines 460-477.  [allocator->free(stream)] goes
    through the allocator and passes the stream pointer as it is, set or not.
    [delete allocator] leaves a pointer that must not be used again, which is
    what [None] stands for. *)
Definition finish (this : nat) : M Z :=
  c <- deref camera ;;
  emit (CameraStop c) ;;
  _ <- deref (fun w => allocator (objects w this)) ;;
  s <- gets (fun w => stream (objects w this)) ;;
  emit (AllocatorFree s) ;;
  a <- deref (fun w => allocator (objects w this)) ;;
  emit (AllocatorDelete a) ;;
  update_this this (with_allocator None) ;;
  c <- deref camera ;;
  emit (Release c) ;;
  modify (set_camera None) ;;
  emit CameraReset ;;
  _ <- deref (fun w => cm (objects w this)) ;;
  emit CmStop ;;
  ret EXIT_SUCCESS.

End Program.

(** Modelled from the spec: the driver of the example (the file that holds
    [main] is not part of the repository's source files).  The spec gives
    the lifecycle "acquire, configure, allocate, queue, complete, requeue,
    release": [start], then [go], then [finish], on one [SimpleCam]. *)
Definition lifecycle (V : Vendor) (this : nat) : M Z :=
  (start V this ;; go V this ;; finish this)%cam.

(* ------------------------------------------------------------------------- *)
(** ** Reading traces *)
(* ------------------------------------------------------------------------- *)


(** A failure of one of the calls made after the camera is configured. *)
Definition late_failure (e : Event) : bool :=
  match e with
  | Allocate _ r => (r <? 0)%Z
  | CreateRequest None => true
  | AddBuffer _ _ _ r => (r <? 0)%Z
  | _ => false
  end.

(** An output statement, on either stream. *)
Definition is_message (e : Event) : bool :=
  match e with
  | Cout _ | Cerr _ => true
  | _ => false
  end.

(** A call of [camera->configure]. *)
Definition is_configure (e : Event) : bool :=
  match e with
  | Configure _ _ _ => true
  | _ => false
  end.

(** The text that reaches [std::cout]. *)
Fixpoint stdout_text (es : list Event) : string :=
  match es with
  | [] => ""
  | Cout t :: es' => t ++ stdout_text es'
  | _ :: es' => stdout_text es'
  end.

(** The requests the vendor handed out, oldest first. *)
Fixpoint created_requests (es : list Event) : list Request :=
  match es with
  | [] => []
  | CreateRequest (Some r) :: es' => r :: created_requests es'
  | _ :: es' => created_requests es'
  end.

(** The paths and images given to [cv::imwrite], oldest first. *)
Fixpoint written_images (es : list Event) : list (string * Mat) :=
  match es with
  | [] => []
  | Imwrite p i :: es' => (p, i) :: written_images es'
  | _ :: es' => written_images es'
  end.



(** An output statement on [std::cout]. *)
Definition is_cout (e : Event) : bool :=
  match e with
  | Cout _ => true
  | _ => false
  end.

(** What the handling of one buffer may leave in the trace. *)
Definition buffer_event (e : Event) : bool :=
  match e with
  | Cout _ | MapBuffer _ | Imwrite _ _ => true
  | _ => false
  end.

(** The start of the line printed for a buffer: sequence number and bytes
    used per plane. *)
Definition metadata_text (b : FrameBuffer) : string :=
  " seq: " ++ setw_setfill 6 "0" (to_string_N (sequence (metadata b)))
    ++ " bytesused: "
    ++ String.concat "/" (map (fun p => to_string_N (bytesused p)) (planes (metadata b))).

(** The rest of that line: the configuration of the stream and the time,
    [sec] being the printed seconds. *)
Definition configuration_text (V : Vendor) (s : Stream) (sec : string) : string :=
  let cfg := v_configuration V s in
  " size " ++ to_string_N (width (size cfg)) ++ "x" ++ to_string_N (height (size cfg))
    ++ " stride " ++ to_string_N (stride cfg)
    ++ " format " ++ pixelFormat cfg
    ++ " sec " ++ sec ++ endl.

(** The matrix header built for a buffer of stream [s] whose first mapped
    plane is [plane0]. *)
Definition image_of (V : Vendor) (s : Stream) (plane0 : Span) : Mat :=
  let cfg := v_configuration V s in
  mkMat (int_of_unsigned (height (size cfg))) (int_of_unsigned (width (size cfg)))
        CV_8UC1 (data plane0).

(** The file written at time [sec]. *)
Definition image_path (sec : string) : string := "images/img" ++ sec ++ ".png".

(** The buffer has at least one mapped plane. *)
Definition mapped (sb : Stream * FrameBuffer) : bool :=
  match fb_mapped (snd sb) with
  | [] => false
  | _ :: _ => true
  end.

(** [text] is made of one line per buffer of [l], in order. *)
Fixpoint metadata_lines (V : Vendor) (l : list (Stream * FrameBuffer)) (text : string) : Prop :=
  match l with
  | [] => text = ""
  | sb :: l' =>
      exists sec text',
        text = metadata_text (snd sb) ++ configuration_text V (fst sb) sec ++ text'
        /\ metadata_lines V l' text'
  end.

(** [pi] is the path and the image written for the buffer [sb]: the image is
    built on the first mapped plane. *)
Definition wrote (V : Vendor) (sb : Stream * FrameBuffer) (pi : string * Mat) : Prop :=
  exists plane0 mem sec,
    fb_mapped (snd sb) = plane0 :: mem
    /\ pi = (image_path sec, image_of V (fst sb) plane0).

(** What a pass of the allocation loop that goes on may leave in the trace. *)
Definition allocate_event (e : Event) : bool :=
  match e with
  | Allocate _ r => negb (r <? 0)%Z
  | Cout _ => true
  | _ => false
  end.

(** What a pass of the request loop that goes on may leave in the trace. *)
Definition request_event (e : Event) : bool :=
  match e with
  | CreateRequest (Some _) => true
  | AddBuffer _ _ _ r => negb (r <? 0)%Z
  | SetControl _ _ _ => true
  | _ => false
  end.

(** The state after the request loop: only the counters and the requests of
    [*this] have changed. *)
Definition pushed (this : nat) (reqs : list Request) (w w' : World) : Prop :=
  camera w' = camera w
  /\ loop w' = loop w
  /\ forall p, objects w' p
               = if Nat.eqb p this
                 then with_requests (requests (objects w this) ++ reqs)%list (objects w this)
                 else objects w p.

(** The place of a vendor call in the life of the capture session; output
    has none.  The numbers grow along acquire, configure, allocate, create,
    connect, start, run (queue, complete, requeue), and the six steps of the
    teardown. *)
Definition phase (e : Event) : option nat :=
  match e with
  | Cout _ | Cerr _ => None
  | CmStart => Some 0
  | Acquire _ => Some 1
  | GenerateConfiguration _ | Configure _ _ _ | Validate _ => Some 2
  | NewAllocator _ | Allocate _ _ => Some 3
  | CreateRequest _ | AddBuffer _ _ _ _ | SetControl _ _ _ => Some 4
  | Connect _ => Some 5
  | CameraStart _ => Some 6
  | QueueRequest _ _ | LoopTimeout _ | RequestCompleted _ | CallLater _
  | MapBuffer _ | Imwrite _ _ | Reuse _ _ => Some 7
  | CameraStop _ => Some 8
  | AllocatorFree _ => Some 9
  | AllocatorDelete _ => Some 10
  | Release _ => Some 11
  | CameraReset => Some 12
  | CmStop => Some 13
  end.

(** The phases of a trace never go back, starting from phase [from]. *)
Fixpoint in_order (from : nat) (es : list Event) : bool :=
  match es with
  | [] => true
  | e :: es' =>
      match phase e with
      | None => in_order from es'
      | Some p => (from <=? p)%nat && in_order p es'
      end
  end.

(** No phase of the trace is beyond [b]. *)
Definition phases_up_to (b : nat) (es : list Event) : bool :=
  forallb (fun e => match phase e with
                    | None => true
                    | Some p => (p <=? b)%nat
                    end) es.

(** Every event of the trace is output or belongs to phase [p]. *)
Definition single_phase (p : nat) (es : list Event) : bool :=
  forallb (fun e => match phase e with
                    | None => true
                    | Some q => Nat.eqb q p
                    end) es.

(** The return code of a computation that returned. *)
Definition returned {A : Type} (r : Result A) : option A :=
  match r with
  | Ok a _ => Some a
  | Undefined => None
  end.

(** The same vendor, with another exit status for the loop. *)
Definition with_exit (f : nat -> Z) (V : Vendor) : Vendor :=
  mkVendor (v_cameras V) (v_generateConfiguration V) (v_toString V) (v_configure V)
           (v_validate V) (v_allocate V) (v_buffers V) (v_createRequest V)
           (v_addBuffer V) (v_configuration V) (v_clock V) (v_seconds_cout V)
           (v_seconds_to_string V) (v_schedule V) f.

(** What [start] asks for: the generated configuration [config] with the
    size of its first entry overwritten. *)
Definition requested_config (config : CameraConfiguration) : CameraConfiguration :=
  mkCameraConfiguration
    (mkStreamConfiguration (mkSize 2592 1944) (stride (at0 config))
       (pixelFormat (at0 config)) (cfg_stream (at0 config)))
    (others config).

(** The events of [start] up to the call of [generateConfiguration]. *)
Definition start_acquired (V : Vendor) (c : Camera) : list Event :=
  (CmStart :: map (fun c => Cout (" - " ++ cameraName c ++ endl)) (v_cameras V)
   ++ [Acquire c; GenerateConfiguration c])%list.

(** The events of [start] up to the first [configure], when the generated
    configuration is [config]. *)
Definition start_prelude (V : Vendor) (c : Camera) (config : CameraConfiguration)
    : list Event :=
  (start_acquired V c
   ++ [Cout ("Default viewfinder configuration is: "
               ++ v_toString V (at0 config) ++ endl)])%list.

(** The events of [start] up to the second [configure], when the generated
    configuration is [config] and the first [configure] succeeds. *)
Definition configured_trace (V : Vendor) (w : World) (c : Camera)
    (config : CameraConfiguration) : list Event :=
  let r := v_configure V (n_configure (calls w)) (requested_config config) in
  let validated := v_validate V (snd r) in
  let r' := v_configure V (S (n_configure (calls w))) validated in
  (start_prelude V c config
   ++ [Configure c (requested_config config) (fst r);
       Validate (snd r);
       Cout ("Validated viewfinder configuration is: "
               ++ v_toString V (at0 validated) ++ endl);
       Configure c validated (fst r')])%list.

(** The configuration as the second [configure] leaves it, which is the one
    [start] allocates for. *)
Definition final_config (V : Vendor) (w : World) (config : CameraConfiguration)
    : CameraConfiguration :=
  let r := v_configure V (n_configure (calls w)) (requested_config config) in
  snd (v_configure V (S (n_configure (calls w))) (v_validate V (snd r))).

(** The vendor refuses one of the allocations of the loop of lines 341-352,
    when [n] calls of [allocate] were made before: the call for the entry at
    position [i] is call number [n + i], and one of these answers is
    negative. *)
Definition allocate_refused (V : Vendor) (n : nat) (l : list StreamConfiguration) : bool :=
  existsb (fun icfg => (v_allocate V (n + fst icfg) (cfg_stream (snd icfg)) <? 0)%Z)
          (combine (seq 0 (List.length l)) l).

(** The vendor refuses one of the calls of the loop of lines 374-403, when
    [nc] calls of [createRequest] and [nb] calls of [addBuffer] were made
    before: for the buffer at position [i], [createRequest] number [nc + i]
    returns null, or [addBuffer] number [nb + i] returns a negative code for
    the request created. *)
Definition request_refused (V : Vendor) (nc nb : nat) (s : Stream)
    (l : list FrameBuffer) : bool :=
  existsb (fun ib =>
             match v_createRequest V (nc + fst ib) with
             | None => true
             | Some q => (v_addBuffer V (nb + fst ib) q s (snd ib) <? 0)%Z
             end)
          (combine (seq 0 (List.length l)) l).

(** The vendor refuses an allocation, a request or a buffer of [start] run
    from the state [w] with the generated configuration [config]. *)
Definition late_checks_fail (V : Vendor) (w : World) (config : CameraConfiguration) : bool :=
  let s := cfg_stream (at0 (final_config V w config)) in
  allocate_refused V (n_allocate (calls w)) (entries (final_config V w config))
  || request_refused V (n_createRequest (calls w)) (n_addBuffer (calls w)) s (v_buffers V s).


(** [start] gets past lines 244 and 254: there is no camera (it returns
    before), or [generateConfiguration] gives the first camera a
    configuration with an entry. *)
Definition start_defined (V : Vendor) : bool :=
  match v_cameras V with
  | [] => true
  | first :: _ =>
      match generated_config V first with
      | None => false
      | Some _ => true
      end
  end.

(** No [CameraManager] exists: the [cm] of every object is null.  The vendor
    allows one manager per process (the comment of lines 158-161), and
    [start] constructs one, so this is the state [start] is meant for. *)
Definition no_manager (w : World) : Prop := forall p, cm (objects w p) = None.

(** The four ways [start] can return, with the trace, the return code and
    the final state of each. *)
Inductive StartRun (V : Vendor) (this : nat) (w : World)
    : list Event -> Z -> World -> Prop :=
| NoCameras :
    v_cameras V = [] ->
    StartRun V this w
      [CmStart; Cout ("No cameras were identified on the system." ++ endl); CmStop]
      EXIT_FAILURE
      (set_object this (with_cm (Some this) (objects w this)) w)
| ConfigureFailed (first : Camera) (rest : list Camera) (config : CameraConfiguration)
    (w' : World) :
    v_cameras V = first :: rest ->
    generated_config V first = Some config ->
    let r := v_configure V (n_configure (calls w)) (requested_config config) in
    fst r <> 0%Z ->
    StartRun V this w
      (start_prelude V first config
       ++ [Configure first (requested_config config) (fst r);
           Cout ("CONFIGURATION FAILED!" ++ endl)])
      EXIT_FAILURE w'
| LateFailure (first : Camera) (rest : list Camera) (config : CameraConfiguration)
    (pre : list Event) (e : Event) (m : string) (w' : World) :
    v_cameras V = first :: rest ->
    generated_config V first = Some config ->
    let r := v_configure V (n_configure (calls w)) (requested_config config) in
    fst r = 0%Z ->
    late_checks_fail V w config = true ->
    existsb is_configure pre = false ->
    existsb late_failure pre = false ->
    late_failure e = true ->
    StartRun V this w (configured_trace V w first config ++ pre ++ [e; Cerr m])
      EXIT_FAILURE w'
| Started (first : Camera) (rest : list Camera) (config : CameraConfiguration)
    (body : list Event) (w' : World) :
    v_cameras V = first :: rest ->
    generated_config V first = Some config ->
    let r := v_configure V (n_configure (calls w)) (requested_config config) in
    let validated := v_validate V (snd r) in
    let r' := v_configure V (S (n_configure (calls w))) validated in
    fst r = 0%Z ->
    late_checks_fail V w config = false ->
    existsb is_configure body = false ->
    existsb late_failure body = false ->
    in_order 3 body = true ->
    phases_up_to 4 body = true ->
    In (NewAllocator (mkAllocator (Some first))) body ->
    (exists r0, In (Allocate (cfg_stream (at0 (snd r'))) r0) body) ->
    camera w' = Some first ->
    loop w' = loop w ->
    (forall p, objects w' p =
               if Nat.eqb p this
               then mkSimpleCam (Some (cfg_stream (at0 (snd r'))))
                                (Some (mkAllocator (Some first)))
                                (Some this)
                                (requests (objects w this) ++ created_requests body)
               else objects w p) ->
    StartRun V this w
      (configured_trace V w first config ++ body ++ [Connect first; CameraStart first])
      EXIT_SUCCESS w'.

(** The request of a waiting call can be processed: its buffers are mapped. *)
Definition safe_call (c : Call) : bool :=
  match c with
  | ProcessRequest r => forallb mapped (buffers r)
  end.

(** The requests the vendor delivers have mapped buffers. *)
Definition safe_step (s : LoopStep) : bool :=
  match s with
  | Completion r => forallb mapped (buffers r)
  | Dispatch => true
  end.

(** A call of [request->reuse]. *)
Definition is_reuse (e : Event) : bool :=
  match e with
  | Reuse _ _ => true
  | _ => false
  end.

(** A call of [camera->queueRequest]. *)
Definition is_queue (e : Event) : bool :=
  match e with
  | QueueRequest _ _ => true
  | _ => false
  end.

(** The traces of the running loop.  [LoopRun V c q es q'] reads: with the
    calls [q] waiting and the camera handle [c], the loop may leave the
    events [es] and the calls [q'] waiting. *)
Inductive LoopRun (V : Vendor) (c : Camera) : list Call -> list Event -> list Call -> Prop :=
| LoopDone (q : list Call) :
    LoopRun V c q [] q
| LoopCancelled (q : list Call) (r : Request) (es : list Event) (q' : list Call) :
    status r = RequestCancelled ->
    LoopRun V c q es q' ->
    LoopRun V c q (RequestCompleted r :: es) q'
| LoopCompleted (q : list Call) (r : Request) (es : list Event) (q' : list Call) :
    status r <> RequestCancelled ->
    LoopRun V c (q ++ [ProcessRequest r]) es q' ->
    LoopRun V c q (RequestCompleted r :: CallLater (ProcessRequest r) :: es) q'
| LoopDispatch (q : list Call) (r : Request) (bs es : list Event) (q' : list Call) :
    forallb buffer_event bs = true ->
    Forall2 (wrote V) (buffers r) (written_images bs) ->
    LoopRun V c q es q' ->
    LoopRun V c (ProcessRequest r :: q)
      (bs ++ Reuse r ReuseBuffers :: QueueRequest c r :: es) q'.

(** The last statement of [go], for the exit status [code]. *)
Definition exit_text (code : Z) : string :=
  "Capture ran for " ++ to_string_Z TIMEOUT_SEC ++ " seconds and "
    ++ "stopped with exit status: " ++ to_string_Z code ++ endl.

(* ------------------------------------------------------------------------- *)
(** ** Reading computations *)
(* ------------------------------------------------------------------------- *)

(** Every event a computation leaves satisfies [P], however it ends. *)
Definition emits {A : Type} (P : Event -> bool) (m : M A) : Prop :=
  forall w, forallb P (fst (m w)) = true.

(** When the computation returns, the part [f] of the state is the one
    before, updated by [g] for each event of the trace. *)
Definition tracks {A B : Type} (f : World -> B) (g : B -> Event -> B) (m : M A) : Prop :=
  forall w es a w', m w = (es, Ok a w') -> f w' = fold_left g es (f w).

(** When the computation returns, the part [f] of the state is as before. *)
Definition keeps {A B : Type} (f : World -> B) (m : M A) : Prop :=
  tracks f (fun b _ => b) m.

(** Output, or a vendor call of the phases up to [b]. *)
Definition up_to_phase (b : nat) (e : Event) : bool :=
  match phase e with
  | None => true
  | Some p => (p <=? b)%nat
  end.

(** Output, or a vendor call of phase [p]. *)
Definition of_phase (p : nat) (e : Event) : bool :=
  match phase e with
  | None => true
  | Some q => Nat.eqb q p
  end.

(** The buffers given to [addBuffer], with the request and the stream,
    oldest first. *)
Definition added_buffers (es : list Event) : list (Request * Stream * FrameBuffer) :=
  flat_map (fun e => match e with
                     | AddBuffer q s b _ => [(q, s, b)]
                     | _ => []
                     end) es.

(** The controls set on requests, oldest first. *)
Definition set_controls (es : list Event) : list (Request * ControlId * Z) :=
  flat_map (fun e => match e with
                     | SetControl q c v => [(q, c, v)]
                     | _ => []
                     end) es.

(** The streams given to [allocate], oldest first. *)
Definition allocated_streams (es : list Event) : list Stream :=
  flat_map (fun e => match e with
                     | Allocate s _ => [s]
                     | _ => []
                     end) es.

(** The three controls of lines 397-399, for the request [q]. *)
Definition request_controls (q : Request) : list (Request * ControlId * Z) :=
  [(q, AnalogueGain, 100000%Z); (q, ExposureTime, 100000%Z); (q, ExposureValue, 100000%Z)].

(** The requests whose [addBuffer] succeeded, oldest first. *)
Definition kept_requests (es : list Event) : list Request :=
  flat_map (fun e => match e with
                     | AddBuffer q _ _ r => if (r <? 0)%Z then [] else [q]
                     | _ => []
                     end) es.

(** A call of [camera->createRequest]. *)
Definition is_create (e : Event) : bool :=
  match e with
  | CreateRequest _ => true
  | _ => false
  end.

(** The construction of the allocator, line 339. *)
Definition is_new_allocator (e : Event) : bool :=
  match e with
  | NewAllocator _ => true
  | _ => false
  end.

(** The way the requests of an object follow the trace of [start]. *)
Definition keep_request (l : list Request) (e : Event) : list Request :=
  match e with
  | AddBuffer q _ _ r => if (r <? 0)%Z then l else (l ++ [q])%list
  | _ => l
  end.

(** The requests the vendor reported as completed, oldest first. *)
Definition completed_requests (es : list Event) : list Request :=
  flat_map (fun e => match e with
                     | RequestCompleted r => [r]
                     | _ => []
                     end) es.

(** The requests whose processing was handed to the loop, oldest first. *)
Definition deferred_requests (es : list Event) : list Request :=
  flat_map (fun e => match e with
                     | CallLater (ProcessRequest r) => [r]
                     | _ => []
                     end) es.

(** The requests given to [reuse], with the flag, oldest first. *)
Definition reused_requests (es : list Event) : list (Request * ReuseFlag) :=
  flat_map (fun e => match e with
                     | Reuse r f => [(r, f)]
                     | _ => []
                     end) es.

(** The requests given to [queueRequest], with the camera, oldest first. *)
Definition queued_requests (es : list Event) : list (Camera * Request) :=
  flat_map (fun e => match e with
                     | QueueRequest c r => [(c, r)]
                     | _ => []
                     end) es.

(** The request did not come back cancelled. *)
Definition not_cancelled (r : Request) : bool :=
  match status r with
  | RequestCancelled => false
  | _ => true
  end.

(** The request a waiting call is for. *)
Definition call_request (c : Call) : Request :=
  match c with
  | ProcessRequest r => r
  end.

(** The signal that a request has completed. *)
Definition is_completion (e : Event) : bool :=
  match e with
  | RequestCompleted _ => true
  | _ => false
  end.

(** The loop has run the call for [r]: the trace holds the [reuse] of [r]
    with its buffers kept, and straight after it the requeue of [r] to the
    camera [c]. *)
Definition requeued (c : Camera) (r : Request) (es : list Event) : Prop :=
  exists l1 l2, es = (l1 ++ Reuse r ReuseBuffers :: QueueRequest c r :: l2)%list.

(** The counters after [n] more readings of the clock. *)
Definition clock_advanced (n : nat) (k : Calls) : Calls :=
  mkCalls (n_configure k) (n_allocate k) (n_createRequest k) (n_addBuffer k)
          (n + n_clock k) (n_exec k).

(** The readings of the clock [processRequest] takes for the buffer at
    position [i] of a request, when the clock has been read [k] times
    before: the first one is printed, the second one names the file. *)
Definition printed_reading (k i : nat) : nat := k + 2 * i.

(** The second of these readings. *)
Definition path_reading (k i : nat) : nat := S (k + 2 * i).

(** The line [processRequest] prints for the buffer [sb] at position [i]. *)
Definition buffer_line (V : Vendor) (k : nat) (isb : nat * (Stream * FrameBuffer)) : string :=
  metadata_text (snd (snd isb))
    ++ configuration_text V (fst (snd isb))
         (v_seconds_cout V (v_clock V (printed_reading k (fst isb)))).

(** The state a computation leaves, or [w0] when it does not return. *)
Definition state_after {A : Type} (p : list Event * Result A) (w0 : World) : World :=
  match snd p with
  | Ok _ w => w
  | Undefined => w0
  end.

(** The events of [start] up to the creation of the allocator, when the
    generated configuration is [config] and the first [configure] succeeds. *)
Definition setup_trace (V : Vendor) (w : World) (c : Camera)
    (config : CameraConfiguration) : list Event :=
  (configured_trace V w c config
   ++ Cout ("controls:" ++ endl)
   :: map (fun c : string * string * string =>
             Cout (fst (fst c) ++ ": " ++ snd (fst c) ++ " = " ++ snd c ++ endl))
          (cam_controls c)
   ++ Cout ("properies:" ++ endl)
   :: map (fun c : N * string => Cout (to_string_N (fst c) ++ ": " ++ snd c ++ endl))
          (cam_properties c)
   ++ [NewAllocator (mkAllocator (Some c))])%list.

(* ------------------------------------------------------------------------- *)
(** ** A concrete vendor, for running the program *)
(* ------------------------------------------------------------------------- *)

Module Demo.

Definition cam0 : Camera :=
  mkCamera "imx219" CameraLocationBack None
           [("AnalogueGain", "[1.000000..16.000000]", "1.000000")]
           [(2%N, "1")].

Definition default_config : CameraConfiguration :=
  mkCameraConfiguration (mkStreamConfiguration (mkSize 800 600) 0 "YUV420" 0) [].

(** [configure] attaches stream 1 to the first entry and sets its stride. *)
Definition configured (config : CameraConfiguration) : CameraConfiguration :=
  mkCameraConfiguration
    (mkStreamConfiguration (size (at0 config)) 2592 (pixelFormat (at0 config)) 1)
    (others config).

Definition frame (cookie : nat) (seq : N) (sizes : list N) (mapped : list Span) : FrameBuffer :=
  mkFrameBuffer cookie (mkFrameMetadata seq (map mkPlane sizes)) mapped.

(** [std::to_string] of a [double] prints six decimals.  The demo clock
    counts microseconds ([CLOCKS_PER_SEC] is 1000000) in quarters of a
    second, which a [double] holds exactly; the two functions below are
    meant for its readings, which are not negative and stay below 10000
    seconds. *)
Definition seconds_to_string (t : Z) : string :=
  to_string_Z (t / 1000000) ++ "."
    ++ setw_setfill 6 "0" (to_string_Z (t mod 1000000)).

(** [s] without the zeros at its end. *)
Fixpoint strip_zeros (s : string) : string :=
  match s with
  | EmptyString => EmptyString
  | String c s' =>
      match strip_zeros s' with
      | EmptyString => if Ascii.eqb c "0" then EmptyString else String c EmptyString
      | rest => String c rest
      end
  end.

(** [std::cout << double]: up to six significant digits, without the zeros
    at the end of the fraction, and without the point when nothing is left
    of it. *)
Definition seconds_cout (t : Z) : string :=
  to_string_Z (t / 1000000)
    ++ match strip_zeros (setw_setfill 6 "0" (to_string_Z (t mod 1000000))) with
       | EmptyString => EmptyString
       | fraction => "." ++ fraction
       end.

(** A vendor with one camera and two buffers; the arguments choose the
    answers of the calls the program checks and what the loop sees. *)
Definition vendor (cams : list Camera) (configure_ret : nat -> Z) (allocate_ret : Z)
    (create : nat -> option Request) (addBuffer_ret : Z)
    (steps : list LoopStep) (exit_code : Z) : Vendor :=
  mkVendor cams
    (fun _ => Some (entries default_config))
    (fun cfg => to_string_N (width (size cfg)) ++ "x" ++ to_string_N (height (size cfg))
                  ++ "-" ++ pixelFormat cfg)
    (fun n config => (configure_ret n, configured config))
    (fun config => config)
    (fun _ _ => allocate_ret)
    (fun s => if Nat.eqb s 1
              then [frame 10 0 [] []; frame 11 0 [] []]
              else [])
    create
    (fun _ _ _ _ => addBuffer_ret)
    (fun s => mkStreamConfiguration (mkSize 2592 1944) 2592 "YUV420" s)
    (fun n => (Z.of_nat n * 250000)%Z)
    seconds_cout
    seconds_to_string
    (fun _ => steps)
    (fun _ => exit_code).

Definition request (cookie : nat) : Request := mkRequest cookie RequestPending [].

(** Request [cookie], as it comes back from the camera. *)
Definition completed (cookie : nat) (st : Status) (seq : N) (sizes : list N)
    (mapped : list Span) : Request :=
  mkRequest cookie st [(1, frame (10 + cookie) seq sizes mapped)].

Definition steps : list LoopStep :=
  [ Completion (completed 0 RequestComplete 7 [3779136; 944784; 944784]%N
                           [mkSpan 4096 3779136]);
    Dispatch;
    Completion (completed 1 RequestCancelled 8 [0]%N [mkSpan 8192 3779136]);
    Completion (completed 0 RequestComplete 1234567 [3779136]%N [mkSpan 4096 3779136]);
    Dispatch;
    Dispatch ].

(** Everything succeeds. *)
Definition good : Vendor :=
  vendor [cam0] (fun _ => 0%Z) 2%Z (fun n => Some (request n)) 0%Z steps 0%Z.

(** One vendor per check of [start] that can fail, and one whose second
    [configure] fails. *)
Definition no_cameras : Vendor :=
  vendor [] (fun _ => 0%Z) 2%Z (fun n => Some (request n)) 0%Z steps 0%Z.

Definition configure_fails : Vendor :=
  vendor [cam0] (fun n => if Nat.eqb n 0 then (-22)%Z else 0%Z) 2%Z
         (fun n => Some (request n)) 0%Z steps 0%Z.

Definition second_configure_fails : Vendor :=
  vendor [cam0] (fun n => if Nat.eqb n 1 then (-22)%Z else 0%Z) 2%Z
         (fun n => Some (request n)) 0%Z steps 0%Z.

Definition allocate_fails : Vendor :=
  vendor [cam0] (fun _ => 0%Z) (-12)%Z (fun n => Some (request n)) 0%Z steps 0%Z.

Definition createRequest_fails : Vendor :=
  vendor [cam0] (fun _ => 0%Z) 2%Z
         (fun n => if Nat.eqb n 1 then None else Some (request n)) 0%Z steps 0%Z.

Definition addBuffer_fails : Vendor :=
  vendor [cam0] (fun _ => 0%Z) 2%Z (fun n => Some (request n)) (-22)%Z steps 0%Z.

Definition empty_object : SimpleCam := mkSimpleCam None None None [].

(** The state of the program before [start]. *)
Definition initial : World :=
  mkWorld None (mkEventLoop []) (fun _ => empty_object) (mkCalls 0 0 0 0 0 0).

(** The state after [start] succeeded on object 0. *)
Definition started (V : Vendor) : World :=
  match snd (start V 0 initial) with
  | Ok _ w => w
  | Undefined => initial
  end.

End Demo.

(** More inputs and states for running the program. *)
Module Samples.

(** A request that comes back with the buffers of two streams, both
    mapped; a [BufferMap] holds one buffer per stream. *)
Definition two_buffers : Request :=
  mkRequest 5 RequestComplete
    [(1, Demo.frame 10 3 [100; 50]%N [mkSpan 4096 100]);
     (2, Demo.frame 11 4 [100]%N [mkSpan 8192 100])].

(** The same request when the buffer of the second stream could not be
    mapped. *)
Definition second_unmapped : Request :=
  mkRequest 6 RequestComplete
    [(1, Demo.frame 10 3 [100; 50]%N [mkSpan 4096 100]);
     (2, Demo.frame 11 4 [100]%N [])].

(** The vendor [V], except for what [generateConfiguration] returns. *)
Definition with_generated (g : Camera -> option (list StreamConfiguration)) (V : Vendor)
    : Vendor :=
  mkVendor (v_cameras V) g (v_toString V) (v_configure V)
           (v_validate V) (v_allocate V) (v_buffers V) (v_createRequest V)
           (v_addBuffer V) (v_configuration V) (v_clock V) (v_seconds_cout V)
           (v_seconds_to_string V) (v_schedule V) (v_exit V).

(** [generateConfiguration] returns null, or a configuration without
    entries. *)
Definition null_configuration : Vendor := with_generated (fun _ => None) Demo.good.
Definition empty_configuration : Vendor := with_generated (fun _ => Some []) Demo.good.

(** The vendor [V], except for what happens while the loop runs. *)
Definition with_schedule (steps : list LoopStep) (V : Vendor) : Vendor :=
  mkVendor (v_cameras V) (v_generateConfiguration V) (v_toString V) (v_configure V)
           (v_validate V) (v_allocate V) (v_buffers V) (v_createRequest V)
           (v_addBuffer V) (v_configuration V) (v_clock V) (v_seconds_cout V)
           (v_seconds_to_string V) (fun _ => steps) (v_exit V).

(** Request 0 as it comes back with a frame, and a loop that is left right
    after this completion: the time-out ends [exec] before the call handed
    to the loop has run. *)
Definition last_frame : Request :=
  Demo.completed 0 RequestComplete 7 [3779136]%N [mkSpan 4096 3779136].

Definition exits_early : Vendor := with_schedule [Completion last_frame] Demo.good.

(** The state after [start; go; finish] on object 0. *)
Definition finished (V : Vendor) : World :=
  state_after (finish 0 (state_after (go V 0 (Demo.started V)) Demo.initial)) Demo.initial.

End Samples.

(* ------------------------------------------------------------------------- *)
(** ** Running the monad symbolically *)
(* ------------------------------------------------------------------------- *)

(** The operations of the monad unfold once they are given a state, so that
    [run] executes a program up to the next call it cannot evaluate (a loop
    over a list of the vendor, a test on one of its answers). *)
Arguments bind {A B} m f w /.
Arguments ret {A} a w /.
Arguments emit e w /.
Arguments cout text w /.
Arguments cerr text w /.
Arguments gets {A} f w /.
Arguments modify f w /.
Arguments undefined {A} w /.
Arguments deref {A} f w /.
Arguments this_object this w /.
Arguments update_this this f w /.
Arguments count sel bump w /.
Arguments clock V w /.
Arguments callLater call w /.
Arguments configure V config w /.
Arguments queueRequest request w /.
Arguments requestComplete request w /.
Arguments dispatch V w /.
Arguments exec V w /.

Ltac run :=
  cbn [bind ret emit cout cerr gets modify deref undefined this_object update_this
       count clock callLater configure queueRequest requestComplete dispatch exec
       fst snd app camera loop objects calls set_camera set_loop set_calls set_object
       pending
       n_configure n_allocate n_createRequest n_addBuffer n_clock n_exec
       bump_configure bump_allocate bump_createRequest bump_addBuffer bump_clock bump_exec].

(** [run], then the known outcome [H] of the call it stopped at. *)
Ltac run_with H := run; rewrite H; run.

(** Two spellings of one trace, up to the grouping of the appends. *)
Ltac same_trace :=
  unfold configured_trace, start_prelude, start_acquired;
  repeat (rewrite <- app_assoc || rewrite <- app_comm_cons);
  reflexivity.

(* ------------------------------------------------------------------------- *)
(** ** Facts about the text functions *)
(* ------------------------------------------------------------------------- *)

Module TextFacts.

Lemma log2_div10 (n : N) : (10 <= n)%N -> (N.log2 (n / 10) < N.log2 n)%N.
Proof.
  intros Hn.
  assert (Hpos : (0 < N.log2 n)%N) by (apply N.log2_pos; lia).
  destruct (N.eq_dec (n / 10) 0) as [Hz | Hnz].
  - rewrite Hz. exact Hpos.
  - apply N.log2_lt_pow2; [now apply N.neq_0_lt_0 |].
    apply N.Div0.div_lt_upper_bound.
    destruct (N.log2_spec n) as [_ Hup]; [lia |].
    rewrite N.pow_succ_r' in Hup. lia.
Qed.

Lemma digits_fuel (f1 : nat) : forall (f2 : nat) (n : N),
  (N.log2 n < N.of_nat f1)%N -> (N.log2 n < N.of_nat f2)%N ->
  digits f1 n = digits f2 n.
Proof.
  induction f1 as [| f1 IH]; intros f2 n H1 H2; [lia |].
  destruct f2 as [| f2]; [lia |].
  simpl. destruct (n <? 10)%N eqn:Hlt; [reflexivity |].
  apply N.ltb_ge in Hlt. pose proof (log2_div10 n Hlt) as Hd.
  f_equal. apply IH; lia.
Qed.

(** The equation the fuel hides. *)
Lemma to_string_N_eq (n : N) :
  to_string_N n =
  if (n <? 10)%N then String (digit n) EmptyString
  else to_string_N (n / 10) ++ String (digit (n mod 10)) EmptyString.
Proof.
  unfold to_string_N at 1. simpl.
  destruct (n <? 10)%N eqn:Hlt; [reflexivity |].
  apply N.ltb_ge in Hlt. pose proof (log2_div10 n Hlt) as Hd.
  f_equal. unfold to_string_N. apply digits_fuel; lia.
Qed.

Lemma length_append (s t : string) :
  String.length (s ++ t) = String.length s + String.length t.
Proof. induction s as [| a s IH]; simpl; [reflexivity | now rewrite IH]. Qed.

(** A number below [10 ^ k] has at most [k] digits. *)
Lemma to_string_N_length_le (k : nat) : forall n : N,
  (n < 10 ^ N.of_nat (S k))%N -> String.length (to_string_N n) <= S k.
Proof.
  induction k as [| k IH]; intros n Hn; rewrite to_string_N_eq.
  - change (10 ^ N.of_nat 1)%N with 10%N in Hn.
    apply N.ltb_lt in Hn. rewrite Hn. simpl. lia.
  - destruct (n <? 10)%N eqn:Hlt; [simpl; lia |].
    rewrite length_append. simpl.
    assert (Hq : (n / 10 < 10 ^ N.of_nat (S k))%N).
    { apply N.Div0.div_lt_upper_bound.
      replace (N.of_nat (S (S k))) with (N.succ (N.of_nat (S k))) in Hn by lia.
      rewrite N.pow_succ_r' in Hn. exact Hn. }
    specialize (IH _ Hq). lia.
Qed.

Lemma digit_is_digit (d : N) : (d < 10)%N -> is_digit (digit d) = true.
Proof.
  intros Hd.
  assert (Hc : (d = 0 \/ d = 1 \/ d = 2 \/ d = 3 \/ d = 4 \/ d = 5 \/ d = 6
                \/ d = 7 \/ d = 8 \/ d = 9)%N) by lia.
  repeat (destruct Hc as [-> | Hc]; [reflexivity |]). subst d. reflexivity.
Qed.

Lemma all_digits_append (s t : string) :
  all_digits (s ++ t) = all_digits s && all_digits t.
Proof.
  induction s as [| a s IH]; simpl; [reflexivity |].
  now rewrite IH, andb_assoc.
Qed.

Lemma to_string_N_digits (n : N) : all_digits (to_string_N n) = true.
Proof.
  induction n as [n IH] using (well_founded_induction N.lt_wf_0).
  rewrite to_string_N_eq. destruct (n <? 10)%N eqn:Hlt.
  - apply N.ltb_lt in Hlt. simpl. now rewrite digit_is_digit.
  - apply N.ltb_ge in Hlt. rewrite all_digits_append. simpl.
    rewrite IH by (apply N.div_lt; lia).
    rewrite digit_is_digit by (apply N.mod_lt; lia). reflexivity.
Qed.

Lemma replicate_length (n : nat) (c : ascii) : String.length (replicate n c) = n.
Proof. induction n as [| n IH]; simpl; [reflexivity | now rewrite IH]. Qed.

Lemma replicate_digits (n : nat) : all_digits (replicate n "0") = true.
Proof. induction n as [| n IH]; simpl; [reflexivity | exact IH]. Qed.

Lemma setw_setfill_length (w : nat) (c : ascii) (s : string) :
  String.length (setw_setfill w c s) = Nat.max w (String.length s).
Proof. unfold setw_setfill. rewrite length_append, replicate_length. lia. Qed.

Lemma count_char_append (c : ascii) (s t : string) :
  count_char c (s ++ t) = count_char c s + count_char c t.
Proof.
  induction s as [| a s IH]; simpl; [reflexivity |]. rewrite IH. lia.
Qed.

(** A string of digits holds no separator. *)
Lemma all_digits_no_slash (s : string) :
  all_digits s = true -> count_char "/" s = 0.
Proof.
  induction s as [| a s IH]; simpl; [reflexivity |].
  intros H. apply andb_true_iff in H as [Ha Hs]. rewrite (IH Hs).
  destruct (Ascii.eqb a "/") eqn:E; [| reflexivity].
  apply Ascii.eqb_eq in E. subst a. discriminate Ha.
Qed.

(** [String.concat "/"] puts one separator between neighbours. *)
Lemma concat_slash_count (l : list string) :
  Forall (fun s => all_digits s = true) l ->
  count_char "/" (String.concat "/" l) = List.length l - 1.
Proof.
  induction 1 as [| s l Hs Hl IH]; [reflexivity |].
  destruct l as [| t l].
  - simpl. now apply all_digits_no_slash.
  - change (String.concat "/" (s :: t :: l))
      with (s ++ "/" ++ String.concat "/" (t :: l)).
    rewrite count_char_append, (all_digits_no_slash s Hs).
    change ("/" ++ String.concat "/" (t :: l))
      with (String "/" (String.concat "/" (t :: l))).
    cbn [count_char]. rewrite IH. simpl. lia.
Qed.

Lemma decimal_value_append (s t : string) : forall acc : N,
  decimal_value_from acc (s ++ t) = decimal_value_from (decimal_value_from acc s) t.
Proof. induction s as [| a s IH]; intros acc; simpl; [reflexivity | apply IH]. Qed.

Lemma digit_value (d : N) : (d < 10)%N -> (N_of_ascii (digit d) - 48 = d)%N.
Proof.
  intros Hd. unfold digit. rewrite N_ascii_embedding by lia. lia.
Qed.

(** Reading back what [to_string_N] prints gives the number. *)
Lemma decimal_value_to_string_N (n : N) : decimal_value (to_string_N n) = n.
Proof.
  unfold decimal_value.
  induction n as [n IH] using (well_founded_induction N.lt_wf_0).
  rewrite to_string_N_eq. destruct (n <? 10)%N eqn:Hlt.
  - apply N.ltb_lt in Hlt. cbn [decimal_value_from]. rewrite digit_value by exact Hlt. lia.
  - apply N.ltb_ge in Hlt. rewrite decimal_value_append, IH by (apply N.div_lt; lia).
    cbn [decimal_value_from]. rewrite digit_value by (apply N.mod_lt; lia).
    pose proof (N.div_mod n 10). lia.
Qed.

(** Zeros on the left do not change the number. *)
Lemma decimal_value_zeros (k : nat) (s : string) :
  decimal_value (replicate k "0" ++ s) = decimal_value s.
Proof.
  unfold decimal_value. induction k as [| k IH]; [reflexivity |].
  cbn [replicate append decimal_value_from]. exact IH.
Qed.

Lemma has_prefix_append (p s : string) : has_prefix p (p ++ s) = true.
Proof.
  induction p as [| a p IH]; simpl; [reflexivity |].
  now rewrite Ascii.eqb_refl.
Qed.

Lemma append_nil_r (s : string) : s ++ "" = s.
Proof. induction s as [| a s IH]; simpl; [reflexivity | now rewrite IH]. Qed.

Lemma append_assoc (s t u : string) : (s ++ t) ++ u = s ++ (t ++ u).
Proof. induction s as [| a s IH]; simpl; [reflexivity | now rewrite IH]. Qed.

Lemma rev_string_append (s t : string) :
  rev_string (s ++ t) = rev_string t ++ rev_string s.
Proof.
  induction s as [| a s IH]; simpl.
  - now rewrite append_nil_r.
  - now rewrite IH, append_assoc.
Qed.

Lemma has_suffix_append (p s : string) : has_suffix p (s ++ p) = true.
Proof. unfold has_suffix. rewrite rev_string_append. apply has_prefix_append. Qed.

End TextFacts.

(* ------------------------------------------------------------------------- *)
(** ** Facts about the program *)
(* ------------------------------------------------------------------------- *)

Lemma concat_cons (sep s : string) (l : list string) :
  String.concat sep (s :: l) =
  match l with [] => s | _ :: _ => s ++ sep ++ String.concat sep l end.
Proof. reflexivity. Qed.

Lemma print_planes_run (l : list Plane) : forall (nplane size : nat) (w : World),
  nplane + List.length l = size ->
  exists es,
    print_planes l nplane size w = (es, Ok tt w)
    /\ forallb is_cout es = true
    /\ stdout_text es = String.concat "/" (map (fun p => to_string_N (bytesused p)) l).
Proof.
  induction l as [| plane l IH]; intros nplane size w Hsize.
  - exists []. repeat split; reflexivity.
  - destruct (IH (S nplane) size w) as (es & Hrun & Hmsg & Htext); [simpl in Hsize; lia |].
    cbn [print_planes]. run.
    destruct (S nplane <? size)%nat eqn:Hlt; run; rewrite Hrun; run.
    + eexists; split; [reflexivity |]. split; [exact Hmsg |].
      cbn [stdout_text map]. rewrite Htext, concat_cons.
      destruct l as [| p l]; [apply Nat.ltb_lt in Hlt; simpl in Hsize; lia | reflexivity].
    + eexists; split; [reflexivity |]. split; [exact Hmsg |].
      cbn [stdout_text map]. rewrite Htext, concat_cons.
      destruct l as [| p l]; [now rewrite TextFacts.append_nil_r |].
      apply Nat.ltb_ge in Hlt. simpl in Hsize; lia.
Qed.

Lemma stdout_text_app (es1 es2 : list Event) :
  stdout_text (es1 ++ es2) = stdout_text es1 ++ stdout_text es2.
Proof.
  induction es1 as [| e es1 IH]; [reflexivity |].
  destruct e; cbn [app stdout_text]; rewrite ?IH; try reflexivity.
  now rewrite TextFacts.append_assoc.
Qed.

Lemma written_images_app (es1 es2 : list Event) :
  written_images (es1 ++ es2) = (written_images es1 ++ written_images es2)%list.
Proof.
  induction es1 as [| e es1 IH]; [reflexivity |].
  destruct e; cbn [app written_images]; rewrite ?IH; reflexivity.
Qed.

Lemma cout_no_images (es : list Event) :
  forallb is_cout es = true -> written_images es = [].
Proof.
  induction es as [| e es IH]; [reflexivity |].
  cbn [forallb]. intros H. apply andb_true_iff in H as [He Hes].
  destruct e; try discriminate He; cbn [written_images]; auto.
Qed.

Lemma cout_buffer_events (es : list Event) :
  forallb is_cout es = true -> forallb buffer_event es = true.
Proof.
  induction es as [| e es IH]; [reflexivity |].
  cbn [forallb]. intros H. apply andb_true_iff in H as [He Hes].
  rewrite (IH Hes). destruct e; try discriminate He; reflexivity.
Qed.

Section Buffers.

Variable V : Vendor.

(** What one pass of the loop body does. *)
Lemma process_buffer_run (s : Stream) (b : FrameBuffer) (w : World) :
  exists pl,
    forallb is_cout pl = true
    /\ stdout_text pl
       = String.concat "/" (map (fun p => to_string_N (bytesused p)) (planes (metadata b)))
    /\ let k := n_clock (calls w) in
       let line :=
         (Cout (" seq: " ++ setw_setfill 6 "0" (to_string_N (sequence (metadata b)))
                  ++ " bytesused: ")
          :: pl ++ [Cout (configuration_text V s (v_seconds_cout V (v_clock V k)));
                    MapBuffer b])%list in
       process_buffer V (s, b) w =
       match fb_mapped b with
       | [] => (line, Undefined)
       | plane0 :: _ =>
           ((line ++ [Imwrite (image_path (v_seconds_to_string V (v_clock V (S k))))
                              (image_of V s plane0)])%list,
            Ok tt (set_calls (bump_clock (bump_clock (calls w))) w))
       end.
Proof.
  destruct (print_planes_run (planes (metadata b)) 0 _ w eq_refl)
    as (pl & Hrun & Hmsg & Htext).
  cbn [Nat.add] in Hrun. exists pl. split; [exact Hmsg |]. split; [exact Htext |].
  unfold process_buffer. cbn [fst snd]. run. run_with Hrun.
  destruct (fb_mapped b) as [| plane0 mem]; cbn [nth_error]; run.
  - reflexivity.
  - rewrite <- !app_assoc. reflexivity.
Qed.

End Buffers.

Section Requests.

Variable V : Vendor.

Lemma process_buffer_text (s : Stream) (b : FrameBuffer) (w : World) :
  exists sec,
    stdout_text (fst (process_buffer V (s, b) w))
    = metadata_text b ++ configuration_text V s sec.
Proof.
  destruct (process_buffer_run V s b w) as (pl & Hpl & Htext & Hrun).
  cbv zeta in Hrun. rewrite Hrun. eexists.
  destruct (fb_mapped b); cbn [fst]; rewrite ?app_comm_cons, ?stdout_text_app;
    cbn [stdout_text]; rewrite ?stdout_text_app; cbn [stdout_text];
    rewrite Htext; unfold metadata_text;
    rewrite ?TextFacts.append_assoc, ?TextFacts.append_nil_r; reflexivity.
Qed.

Lemma process_buffers_run (l : list (Stream * FrameBuffer)) : forall w : World,
  forallb mapped l = true ->
  exists es k,
    for_each l (process_buffer V) w = (es, Ok tt (set_calls k w))
    /\ forallb buffer_event es = true
    /\ Forall2 (wrote V) l (written_images es)
    /\ metadata_lines V l (stdout_text es).
Proof.
  induction l as [| [s b] l IH]; intros w Hall.
  - exists [], (calls w). destruct w. repeat split; constructor.
  - cbn [forallb] in Hall. apply andb_true_iff in Hall as [Hb Hl].
    destruct (process_buffer_text s b w) as (sec & Hline).
    destruct (process_buffer_run V s b w) as (pl & Hpl & Htext & Hrun).
    cbv zeta in Hrun. unfold mapped in Hb. cbn [snd] in Hb.
    destruct (fb_mapped b) as [| plane0 mem] eqn:Hmem; [discriminate |].
    destruct (IH (set_calls (bump_clock (bump_clock (calls w))) w) Hl)
      as (es & k & Hes & Hev & Himg & Hlines).
    cbn [for_each]. run_with Hrun. run_with Hes.
    eexists _, k. split; [reflexivity |]. rewrite Hrun in Hline. cbn [fst] in Hline.
    split; [| split].
    + cbn [forallb buffer_event]. rewrite !forallb_app. cbn [forallb buffer_event].
      now rewrite (cout_buffer_events _ Hpl), Hev.
    + cbn [written_images]. rewrite !written_images_app. cbn [written_images].
      rewrite (cout_no_images _ Hpl). cbn [app].
      constructor; [| exact Himg].
      exists plane0, mem. eexists. cbn [fst snd]. split; [exact Hmem | reflexivity].
    + cbn [metadata_lines fst snd]. exists sec, (stdout_text es).
      split; [| exact Hlines].
      rewrite app_comm_cons, stdout_text_app, app_comm_cons, Hline.
      now rewrite TextFacts.append_assoc.
Qed.

Lemma process_buffers_undefined (l : list (Stream * FrameBuffer)) : forall w : World,
  forallb mapped l = false ->
  snd (for_each l (process_buffer V) w) = Undefined.
Proof.
  induction l as [| [s b] l IH]; intros w Hall; [discriminate |].
  cbn [forallb] in Hall.
  destruct (process_buffer_run V s b w) as (pl & Hpl & Htext & Hrun).
  cbv zeta in Hrun. unfold mapped at 1 in Hall. cbn [snd] in Hall.
  cbn [for_each]. run_with Hrun.
  destruct (fb_mapped b) as [| plane0 mem] eqn:Hmem; [reflexivity |].
  cbn [andb] in Hall. specialize (IH (set_calls (bump_clock (bump_clock (calls w))) w) Hall).
  run. destruct (for_each l (process_buffer V) _) as [es r]. cbn [snd] in IH |- *. exact IH.
Qed.

(** [processRequest] on a request whose buffers all have a mapped plane,
    while the camera handle is set. *)
Lemma processRequest_run (request : Request) (c : Camera) (w : World) :
  camera w = Some c ->
  forallb mapped (buffers request) = true ->
  exists es k,
    processRequest V request w
    = ((es ++ [Reuse request ReuseBuffers; QueueRequest c request])%list,
       Ok tt (set_calls k w))
    /\ forallb buffer_event es = true
    /\ Forall2 (wrote V) (buffers request) (written_images es)
    /\ metadata_lines V (buffers request) (stdout_text es).
Proof.
  intros Hcam Hall.
  destruct (process_buffers_run (buffers request) w Hall) as (es & k & Hes & Hrest).
  exists es, k. split; [| exact Hrest].
  unfold processRequest. run_with Hes. rewrite Hcam. reflexivity.
Qed.

End Requests.

Lemma for_each_cout {A : Type} (f : A -> string) (l : list A) (w : World) :
  for_each l (fun x => cout (f x)) w = (map (fun x => Cout (f x)) l, Ok tt w).
Proof.
  induction l as [| x l IH]; [reflexivity |].
  cbn [for_each map]. run. rewrite IH. reflexivity.
Qed.

Section StartLoops.

Variable V : Vendor.

Lemma allocate_refused_shift (l : list StreamConfiguration) : forall a n : nat,
  existsb (fun icfg => (v_allocate V (n + fst icfg) (cfg_stream (snd icfg)) <? 0)%Z)
          (combine (seq (S a) (List.length l)) l)
  = existsb (fun icfg => (v_allocate V (S n + fst icfg) (cfg_stream (snd icfg)) <? 0)%Z)
            (combine (seq a (List.length l)) l).
Proof.
  induction l as [| cfg l IH]; intros a n; [reflexivity |].
  cbn [List.length seq combine existsb fst snd]. rewrite IH.
  now rewrite Nat.add_succ_r.
Qed.

Lemma allocate_refused_cons (n : nat) (cfg : StreamConfiguration)
    (l : list StreamConfiguration) :
  allocate_refused V n (cfg :: l)
  = (v_allocate V n (cfg_stream cfg) <? 0)%Z || allocate_refused V (S n) l.
Proof.
  unfold allocate_refused. cbn [List.length seq combine existsb fst snd].
  now rewrite Nat.add_0_r, allocate_refused_shift.
Qed.

Lemma request_refused_shift (s : Stream) (l : list FrameBuffer) : forall a nc nb : nat,
  existsb (fun ib => match v_createRequest V (nc + fst ib) with
                     | None => true
                     | Some q => (v_addBuffer V (nb + fst ib) q s (snd ib) <? 0)%Z
                     end)
          (combine (seq (S a) (List.length l)) l)
  = existsb (fun ib => match v_createRequest V (S nc + fst ib) with
                       | None => true
                       | Some q => (v_addBuffer V (S nb + fst ib) q s (snd ib) <? 0)%Z
                       end)
            (combine (seq a (List.length l)) l).
Proof.
  induction l as [| b l IH]; intros a nc nb; [reflexivity |].
  cbn [List.length seq combine existsb fst snd]. rewrite IH.
  now rewrite !Nat.add_succ_r.
Qed.

Lemma request_refused_cons (nc nb : nat) (s : Stream) (b : FrameBuffer)
    (l : list FrameBuffer) :
  request_refused V nc nb s (b :: l)
  = match v_createRequest V nc with
    | None => true
    | Some q => (v_addBuffer V nb q s b <? 0)%Z || request_refused V (S nc) (S nb) s l
    end.
Proof.
  unfold request_refused. cbn [List.length seq combine existsb fst snd].
  rewrite !Nat.add_0_r, request_refused_shift.
  now destruct (v_createRequest V nc).
Qed.

(** The allocation loop: it fails exactly when the vendor refuses one of its
    allocations, and it makes no other counted call. *)
Lemma allocate_streams_run (this : nat) (a : FrameBufferAllocator)
    (l : list StreamConfiguration) : forall w : World,
  allocator (objects w this) = Some a ->
  exists es r k,
    for_each_return l (allocate_stream V this) w = (es, Ok r (set_calls k w))
    /\ r = (if allocate_refused V (n_allocate (calls w)) l then Some EXIT_FAILURE else None)
    /\ n_createRequest k = n_createRequest (calls w)
    /\ n_addBuffer k = n_addBuffer (calls w)
    /\ ((r = None /\ forallb allocate_event es = true
         /\ forall cfg, In cfg l -> exists r0, In (Allocate (cfg_stream cfg) r0) es)
        \/ (r = Some EXIT_FAILURE /\
            exists pre s0 r0,
              es = (pre ++ [Allocate s0 r0; Cerr ("Can't allocate buffers" ++ endl)])%list
              /\ (r0 <? 0)%Z = true
              /\ forallb allocate_event pre = true)).
Proof.
  induction l as [| cfg l IH]; intros w Ha.
  - exists [], None, (calls w). destruct w. split; [reflexivity |].
    split; [reflexivity |]. split; [reflexivity |]. split; [reflexivity |].
    left. split; [reflexivity |]. split; [reflexivity |]. intros cfg [].
  - cbn [for_each_return]. unfold allocate_stream at 1. run. rewrite Ha. run.
    rewrite allocate_refused_cons.
    destruct (v_allocate V (n_allocate (calls w)) (cfg_stream cfg) <? 0)%Z eqn:Hret; run.
    + do 3 eexists. split; [reflexivity |]. split; [reflexivity |].
      split; [reflexivity |]. split; [reflexivity |].
      right. split; [reflexivity |].
      exists []. do 2 eexists. split; [reflexivity |]. split; [exact Hret | reflexivity].
    + destruct (IH (set_calls (bump_allocate (calls w)) w) Ha)
        as (es & r & k & Hrun & Hr & Hk1 & Hk2 & Hcases).
      rewrite Hrun. run. do 3 eexists. split; [reflexivity |].
      split; [exact Hr |]. split; [exact Hk1 |]. split; [exact Hk2 |].
      destruct Hcases as [(Hnone & Hes & Hin) | [Hsome (pre & s0 & r0 & -> & Hr0 & Hpre)]].
      * left. split; [exact Hnone |]. split.
        { cbn [forallb allocate_event]. now rewrite Hret, Hes. }
        intros cfg0 [<- | Hcfg0].
        { eexists. left. reflexivity. }
        destruct (Hin cfg0 Hcfg0) as (r0 & Hr0). exists r0. now do 2 right.
      * right. split; [exact Hsome |].
        eexists (_ :: _ :: pre), s0, r0. split; [reflexivity |]. split; [exact Hr0 |].
        cbn [forallb allocate_event]. now rewrite Hret, Hpre.
Qed.

Lemma pushed_nil (this : nat) (w : World) : pushed this [] w w.
Proof.
  repeat split. intros p. destruct (Nat.eqb p this) eqn:E; [| reflexivity].
  apply Nat.eqb_eq in E. subst p. rewrite app_nil_r. now destruct (objects w this).
Qed.

(** The request loop: it fails exactly when the vendor refuses a request or
    a buffer. *)
Lemma create_requests_run (this : nat) (s : Stream) (c : Camera)
    (l : list FrameBuffer) : forall w : World,
  camera w = Some c ->
  exists es r w',
    for_each_return l (create_request V this s) w = (es, Ok r w')
    /\ r = (if request_refused V (n_createRequest (calls w)) (n_addBuffer (calls w)) s l
            then Some EXIT_FAILURE else None)
    /\ ((r = None /\ forallb request_event es = true
         /\ pushed this (created_requests es) w w')
        \/ (r = Some EXIT_FAILURE /\
            exists pre e m,
              es = (pre ++ [e; Cerr m])%list
              /\ late_failure e = true
              /\ forallb request_event pre = true)).
Proof.
  induction l as [| b l IH]; intros w Hc.
  - exists [], None, w. split; [reflexivity |]. split; [reflexivity |]. left.
    split; [reflexivity |]. split; [reflexivity |]. apply pushed_nil.
  - cbn [for_each_return]. unfold create_request at 1. run. rewrite Hc. run.
    rewrite request_refused_cons.
    destruct (v_createRequest V (n_createRequest (calls w))) as [q |] eqn:Hq; run.
    2:{ do 3 eexists. split; [reflexivity |]. split; [reflexivity |].
        right. split; [reflexivity |].
        exists []. do 2 eexists. split; [reflexivity |]. split; reflexivity. }
    destruct (v_addBuffer V (n_addBuffer (calls w)) q s b <? 0)%Z eqn:Hret; run.
    { do 3 eexists. split; [reflexivity |]. split; [reflexivity |].
      right. split; [reflexivity |].
      exists [CreateRequest (Some q)]. do 2 eexists. split; [reflexivity |].
      split; [exact Hret | reflexivity]. }
    match goal with |- context [for_each_return l _ ?w1] =>
      destruct (IH w1 Hc) as (es & r & w' & Hrun & Hr & Hcases) end.
    rewrite Hrun. run. do 3 eexists. split; [reflexivity |].
    split.
    { cbn [calls set_object set_calls n_createRequest n_addBuffer bump_createRequest
           bump_addBuffer] in Hr. exact Hr. }
    destruct Hcases as [(Hnone & Hes & Hp) | [Hsome (pre & e & m & -> & He & Hpre)]].
    + left. split; [exact Hnone |]. split.
      * cbn [forallb request_event]. now rewrite Hret, Hes.
      * cbn [created_requests]. destruct Hp as (Hp1 & Hp2 & Hp3).
        split; [exact Hp1 |]. split; [exact Hp2 |]. intros p. rewrite Hp3.
        cbn [objects set_object set_calls]. rewrite Nat.eqb_refl.
        destruct (Nat.eqb p this); [| reflexivity].
        cbn [requests with_requests stream allocator cm]. unfold with_requests.
        cbn [requests stream allocator cm]. now rewrite <- app_assoc.
    + right. split; [exact Hsome |].
      eexists (_ :: _ :: _ :: _ :: _ :: pre), e, m. split; [reflexivity |].
      split; [exact He |]. cbn [forallb request_event]. now rewrite Hret, Hpre.
Qed.

End StartLoops.

Lemma allocate_event_facts (es : list Event) :
  forallb allocate_event es = true ->
  existsb is_configure es = false /\ existsb late_failure es = false
  /\ created_requests es = [] /\ single_phase 3 es = true.
Proof.
  induction es as [| e es IH]; [repeat split |].
  cbn [forallb]. intros H. apply andb_true_iff in H as [He Hes].
  destruct (IH Hes) as (H1 & H2 & H3 & H4).
  destruct e; try discriminate He;
    cbn [existsb is_configure late_failure created_requests orb];
    repeat split; try assumption.
  cbn [allocate_event] in He. apply negb_true_iff in He. now rewrite He.
Qed.

Lemma request_event_facts (es : list Event) :
  forallb request_event es = true ->
  existsb is_configure es = false /\ existsb late_failure es = false
  /\ single_phase 4 es = true.
Proof.
  induction es as [| e es IH]; [repeat split |].
  cbn [forallb]. intros H. apply andb_true_iff in H as [He Hes].
  destruct (IH Hes) as (H1 & H2 & H3).
  destruct e; try discriminate He; cbn [existsb is_configure late_failure orb];
    repeat split; try assumption.
  - destruct r; [assumption | discriminate He].
  - cbn [request_event] in He. apply negb_true_iff in He. now rewrite He.
Qed.

Lemma cout_facts {A : Type} (f : A -> string) (l : list A) :
  let es := map (fun x => Cout (f x)) l in
  existsb is_configure es = false /\ existsb late_failure es = false
  /\ created_requests es = [] /\ forall p, single_phase p es = true.
Proof.
  induction l as [| x l IH]; repeat split; try apply IH.
Qed.

Lemma in_order_weaken (a b : nat) (es : list Event) :
  a <= b -> in_order b es = true -> in_order a es = true.
Proof.
  intros Hab. destruct es as [| e es]; [reflexivity |].
  revert e. induction es as [| e' es IH]; intros e; cbn [in_order];
    destruct (phase e) as [p |]; intros H.
  - apply andb_true_iff in H as [Hb _]. apply Nat.leb_le in Hb.
    apply andb_true_iff. split; [apply Nat.leb_le; lia | reflexivity].
  - reflexivity.
  - apply andb_true_iff in H as [Hb Hp]. apply Nat.leb_le in Hb.
    apply andb_true_iff. split; [apply Nat.leb_le; lia | exact Hp].
  - apply IH. exact H.
Qed.

Lemma in_order_app (a b : nat) (l1 l2 : list Event) :
  a <= b ->
  in_order a l1 = true -> phases_up_to b l1 = true -> in_order b l2 = true ->
  in_order a (l1 ++ l2) = true.
Proof.
  revert a. induction l1 as [| e l1 IH]; intros a Hab H1 Hup H2.
  - now apply (in_order_weaken a b).
  - cbn [app in_order phases_up_to forallb] in *.
    apply andb_true_iff in Hup as [He Hup].
    destruct (phase e) as [p |].
    + apply andb_true_iff in H1 as [Hp H1]. rewrite Hp. cbn [andb].
      apply Nat.leb_le in He. now apply IH.
    + now apply IH.
Qed.

Lemma single_phase_in_order (p : nat) (es : list Event) :
  single_phase p es = true -> in_order p es = true /\ phases_up_to p es = true.
Proof.
  induction es as [| e es IH]; [now split |].
  cbn [single_phase forallb in_order phases_up_to]. intros H.
  apply andb_true_iff in H as [He Hes]. destruct (IH Hes) as [H1 H2].
  fold (phases_up_to p es). rewrite H2, andb_true_r.
  destruct (phase e) as [q |]; [| now split].
  apply Nat.eqb_eq in He. subst q. now rewrite Nat.leb_refl, H1.
Qed.

Lemma single_phase_app (p : nat) (l1 l2 : list Event) :
  single_phase p (l1 ++ l2) = single_phase p l1 && single_phase p l2.
Proof. apply forallb_app. Qed.

Lemma single_phase_cons (p : nat) (e : Event) (l : list Event) :
  single_phase p (e :: l)
  = match phase e with None => true | Some q => Nat.eqb q p end && single_phase p l.
Proof. reflexivity. Qed.

Lemma phases_up_to_app (b : nat) (l1 l2 : list Event) :
  phases_up_to b (l1 ++ l2) = phases_up_to b l1 && phases_up_to b l2.
Proof. apply forallb_app. Qed.

Lemma phases_up_to_weaken (a b : nat) (es : list Event) :
  a <= b -> phases_up_to a es = true -> phases_up_to b es = true.
Proof.
  intros Hab. induction es as [| e es IH]; [reflexivity |].
  cbn [phases_up_to forallb]. intros H. apply andb_true_iff in H as [He Hes].
  fold (phases_up_to b es). rewrite (IH Hes), andb_true_r.
  destruct (phase e) as [q |]; [| reflexivity].
  apply Nat.leb_le in He. apply Nat.leb_le. lia.
Qed.

Lemma created_requests_app (es1 es2 : list Event) :
  created_requests (es1 ++ es2) = (created_requests es1 ++ created_requests es2)%list.
Proof.
  induction es1 as [| e es1 IH]; [reflexivity |].
  destruct e as [| | | | | | | | [q |] | | | | | | | | | | | | | | | | | |];
    cbn [app created_requests]; rewrite ?IH; reflexivity.
Qed.

Section Start.

Variable V : Vendor.

Lemma cm_get_first (first : Camera) (rest : list Camera) :
  v_cameras V = first :: rest -> cm_get V (cam_id first) = Some first.
Proof.
  intros H. unfold cm_get. rewrite H. cbn [find]. now rewrite String.eqb_refl.
Qed.

(** With a camera and no configuration to refer to, [start] stops after the
    call of [generateConfiguration]. *)
Lemma start_undefined (this : nat) (w : World) (first : Camera) (rest : list Camera) :
  v_cameras V = first :: rest ->
  generated_config V first = None ->
  start V this w = (start_acquired V first, Undefined).
Proof.
  intros Hcams Hgen. unfold start. run. rewrite for_each_cout. run.
  rewrite Hcams. run. rewrite (cm_get_first first rest Hcams). run.
  rewrite Hgen. run. unfold start_acquired. rewrite Hcams.
  repeat (rewrite <- app_assoc || rewrite <- app_comm_cons). reflexivity.
Qed.

Theorem start_run (this : nat) (w : World) :
  start_defined V = true ->
  exists es code w', start V this w = (es, Ok code w') /\ StartRun V this w es code w'.
Proof.
  intros Hdef. unfold start_defined in Hdef.
  unfold start. run. rewrite for_each_cout. run.
  destruct (v_cameras V) as [| first rest] eqn:Hcams; run.
  - rewrite Nat.eqb_refl. cbn [cm with_cm]. run.
    do 3 eexists. split; [reflexivity |]. now apply NoCameras.
  - rewrite (cm_get_first first rest Hcams). run.
    destruct (generated_config V first) as [config |] eqn:Hgen; [| discriminate Hdef].
    run. fold (requested_config config).
    set (r := v_configure V (n_configure (calls w)) (requested_config config)).
    destruct (fst r =? 0)%Z eqn:Hr; cbn [negb]; run.
    2:{ do 3 eexists. split; [reflexivity |].
        apply Z.eqb_neq in Hr.
        pose proof (ConfigureFailed V this w first rest config) as H. cbn zeta in H.
        rewrite <- Hcams.
        match goal with |- StartRun _ _ _ ?es _ _ =>
          replace es with
            (start_prelude V first config
             ++ [Configure first (requested_config config) (fst r);
                 Cout ("CONFIGURATION FAILED!" ++ endl)])%list
            by same_trace end.
        apply H; [exact Hcams | exact Hgen | exact Hr]. }
    apply Z.eqb_eq in Hr.
    set (validated := v_validate V (snd r)).
    set (r' := v_configure V (S (n_configure (calls w))) validated).
    rewrite for_each_cout. run. rewrite for_each_cout. run.
    rewrite Nat.eqb_refl.
    match goal with |- context [for_each_return _ (allocate_stream V this) ?w1] =>
      destruct (allocate_streams_run V this (mkAllocator (Some first)) (entries (snd r')) w1)
        as (esA & rA & kA & HrunA & HrA & HkA1 & HkA2 & HcasesA);
      [cbn [objects set_object set_calls]; rewrite Nat.eqb_refl; reflexivity |]
    end.
    cbn [calls set_object set_calls set_camera n_allocate n_createRequest n_addBuffer
         bump_configure] in HrA, HkA1, HkA2.
    rewrite HrunA. run.
    pose proof (cout_facts (fun c : string * string * string =>
                  fst (fst c) ++ ": " ++ snd (fst c) ++ " = " ++ snd c ++ endl)
                  (cam_controls first)) as (Hc1 & Hc2 & Hc3 & Hc4).
    pose proof (cout_facts (fun c : N * string => to_string_N (fst c) ++ ": " ++ snd c ++ endl)
                  (cam_properties first)) as (Hp1 & Hp2 & Hp3 & Hp4).
    cbv zeta in Hc1, Hc2, Hc3, Hc4, Hp1, Hp2, Hp3, Hp4.
    destruct HcasesA as [(-> & HesA & HinA) | [-> (preA & s0 & r0 & -> & Hr0 & HpreA)]]; run.
    2:{ do 3 eexists. split; [reflexivity |].
        apply allocate_event_facts in HpreA as (Ha1 & Ha2 & _).
        pose proof (LateFailure V this w first rest config
          (Cout ("controls:" ++ endl)
           :: map (fun c : string * string * string =>
                     Cout (fst (fst c) ++ ": " ++ snd (fst c) ++ " = " ++ snd c ++ endl))
                  (cam_controls first)
           ++ Cout ("properies:" ++ endl)
           :: map (fun c : N * string => Cout (to_string_N (fst c) ++ ": " ++ snd c ++ endl))
                  (cam_properties first)
           ++ NewAllocator (mkAllocator (Some first)) :: preA)%list
          (Allocate s0 r0) ("Can't allocate buffers" ++ endl)) as H.
        cbn zeta in H. rewrite <- Hcams.
        match goal with |- StartRun _ _ _ ?es _ _ =>
          match type of H with context [StartRun _ _ _ ?es' _ _] =>
            replace es with es' by same_trace end end.
        apply H; [exact Hcams | exact Hgen | exact Hr | | | | exact Hr0].
        - unfold late_checks_fail, final_config. fold r validated r'.
          destruct (allocate_refused V (n_allocate (calls w)) (entries (snd r')));
            [reflexivity | discriminate HrA].
        - cbn [existsb is_configure orb]. rewrite existsb_app, Hc1.
          cbn [existsb is_configure orb]. rewrite existsb_app, Hp1.
          cbn [existsb is_configure orb]. exact Ha1.
        - cbn [existsb late_failure orb]. rewrite existsb_app, Hc2.
          cbn [existsb late_failure orb]. rewrite existsb_app, Hp2.
          cbn [existsb late_failure orb]. exact Ha2. }
    assert (HnoA : allocate_refused V (n_allocate (calls w)) (entries (snd r')) = false).
    { destruct (allocate_refused V (n_allocate (calls w)) (entries (snd r')));
        [discriminate HrA | reflexivity]. }
    rewrite Nat.eqb_refl.
    match goal with |- context [for_each_return ?l (create_request V this ?s) ?w1] =>
      destruct (create_requests_run V this s first l w1 eq_refl)
        as (esR & rR & wR & HrunR & HrR & HcasesR)
    end.
    cbn [calls set_object set_calls] in HrR. rewrite HkA1, HkA2 in HrR.
    rewrite HrunR. run.
    apply allocate_event_facts in HesA as (Ha1 & Ha2 & Ha3 & Ha4).
    destruct HcasesR as [(-> & HesR & HpR) | [-> (preR & e & m & -> & He & HpreR)]]; run.
    2:{ do 3 eexists. split; [reflexivity |].
        apply request_event_facts in HpreR as (Hq1 & Hq2 & _).
        pose proof (LateFailure V this w first rest config
          (Cout ("controls:" ++ endl)
           :: map (fun c : string * string * string =>
                     Cout (fst (fst c) ++ ": " ++ snd (fst c) ++ " = " ++ snd c ++ endl))
                  (cam_controls first)
           ++ Cout ("properies:" ++ endl)
           :: map (fun c : N * string => Cout (to_string_N (fst c) ++ ": " ++ snd c ++ endl))
                  (cam_properties first)
           ++ NewAllocator (mkAllocator (Some first)) :: esA ++ preR)%list
          e m) as H.
        cbn zeta in H. rewrite <- Hcams.
        match goal with |- StartRun _ _ _ ?es _ _ =>
          match type of H with context [StartRun _ _ _ ?es' _ _] =>
            replace es with es' by same_trace end end.
        apply H; [exact Hcams | exact Hgen | exact Hr | | | | exact He].
        - unfold late_checks_fail, final_config. fold r validated r'. rewrite HnoA.
          cbn [orb].
          destruct (request_refused V _ _ _ _); [reflexivity | discriminate HrR].
        - cbn [existsb is_configure orb]. rewrite existsb_app, Hc1.
          cbn [existsb is_configure orb]. rewrite existsb_app, Hp1.
          cbn [existsb is_configure orb]. now rewrite existsb_app, Ha1, Hq1.
        - cbn [existsb late_failure orb]. rewrite existsb_app, Hc2.
          cbn [existsb late_failure orb]. rewrite existsb_app, Hp2.
          cbn [existsb late_failure orb]. now rewrite existsb_app, Ha2, Hq2. }
    destruct HpR as (HcamR & HloopR & HobjR).
    rewrite HcamR. run. rewrite HcamR. run.
    do 3 eexists. split; [reflexivity |].
    pose proof (request_event_facts _ HesR) as (Hq1 & Hq2 & Hq3).
    set (setup :=
      (Cout ("controls:" ++ endl)
       :: map (fun c : string * string * string =>
                 Cout (fst (fst c) ++ ": " ++ snd (fst c) ++ " = " ++ snd c ++ endl))
              (cam_controls first)
       ++ Cout ("properies:" ++ endl)
       :: map (fun c : N * string => Cout (to_string_N (fst c) ++ ": " ++ snd c ++ endl))
              (cam_properties first)
       ++ NewAllocator (mkAllocator (Some first)) :: esA)%list).
    assert (Hsetup : single_phase 3 setup = true).
    { unfold setup.
      rewrite single_phase_cons, single_phase_app, (Hc4 3).
      rewrite single_phase_cons, single_phase_app, (Hp4 3).
      rewrite single_phase_cons, Ha4. reflexivity. }
    apply single_phase_in_order in Hsetup as [Hs1 Hs2].
    apply single_phase_in_order in Hq3 as [Hq3 Hq4].
    pose proof (Started V this w first rest config
      (Cout ("controls:" ++ endl)
       :: map (fun c : string * string * string =>
                 Cout (fst (fst c) ++ ": " ++ snd (fst c) ++ " = " ++ snd c ++ endl))
              (cam_controls first)
       ++ Cout ("properies:" ++ endl)
       :: map (fun c : N * string => Cout (to_string_N (fst c) ++ ": " ++ snd c ++ endl))
              (cam_properties first)
       ++ NewAllocator (mkAllocator (Some first)) :: esA ++ esR)%list) as H.
    cbn zeta in H. rewrite <- Hcams.
    match goal with |- StartRun _ _ _ ?es _ _ =>
      match type of H with context [StartRun _ _ _ ?es' _ _] =>
        replace es with es' by same_trace end end.
    assert (Hbody :
      (Cout ("controls:" ++ endl)
       :: map (fun c : string * string * string =>
                 Cout (fst (fst c) ++ ": " ++ snd (fst c) ++ " = " ++ snd c ++ endl))
              (cam_controls first)
       ++ Cout ("properies:" ++ endl)
       :: map (fun c : N * string => Cout (to_string_N (fst c) ++ ": " ++ snd c ++ endl))
              (cam_properties first)
       ++ NewAllocator (mkAllocator (Some first)) :: esA ++ esR)%list
      = (setup ++ esR)%list).
    { unfold setup. repeat (rewrite <- app_assoc || rewrite <- app_comm_cons).
      reflexivity. }
    apply H; [exact Hcams | exact Hgen | exact Hr | | | | | | | | now rewrite HcamR
              | now rewrite HloopR |].
    + unfold late_checks_fail, final_config. fold r validated r'. rewrite HnoA.
      cbn [orb].
      destruct (request_refused V _ _ _ _); [discriminate HrR | reflexivity].
    + cbn [existsb is_configure orb]. rewrite existsb_app, Hc1.
      cbn [existsb is_configure orb]. rewrite existsb_app, Hp1.
      cbn [existsb is_configure orb]. now rewrite existsb_app, Ha1, Hq1.
    + cbn [existsb late_failure orb]. rewrite existsb_app, Hc2.
      cbn [existsb late_failure orb]. rewrite existsb_app, Hp2.
      cbn [existsb late_failure orb]. now rewrite existsb_app, Ha2, Hq2.
    + rewrite Hbody. apply (in_order_app 3 3); auto.
      apply (in_order_weaken 3 4); auto.
    + rewrite Hbody, phases_up_to_app.
      now rewrite (phases_up_to_weaken 3 4 setup), Hq4 by auto.
    + right. apply in_or_app. right. right. apply in_or_app. right. now left.
    + destruct (HinA (at0 (snd r'))) as (r0 & Hr0); [now left |].
      exists r0. right. apply in_or_app. right. right. apply in_or_app. right.
      right. apply in_or_app. now left.
    + intros p. rewrite HobjR. cbn [objects set_object set_calls set_camera].
      rewrite Nat.eqb_refl.
      cbn [created_requests]. rewrite created_requests_app, Hc3.
      cbn [created_requests app]. rewrite created_requests_app, Hp3.
      cbn [created_requests app]. rewrite created_requests_app, Ha3. cbn [app].
      destruct (Nat.eqb p this); reflexivity.
Qed.

(** [start] returns exactly when it gets past the generated configuration,
    and then in one of the four ways. *)
Lemma start_returns (this : nat) (w : World) (es : list Event) (code : Z) (w' : World) :
  start V this w = (es, Ok code w') ->
  start_defined V = true /\ StartRun V this w es code w'.
Proof.
  intros Hrun. destruct (start_defined V) eqn:Hdef.
  - split; [reflexivity |].
    destruct (start_run this w Hdef) as (es0 & code0 & w0 & Hrun0 & HR).
    rewrite Hrun in Hrun0. now injection Hrun0 as <- <- <-.
  - unfold start_defined in Hdef.
    destruct (v_cameras V) as [| first rest] eqn:Hcams; [discriminate Hdef |].
    destruct (generated_config V first) eqn:Hgen; [discriminate Hdef |].
    rewrite (start_undefined this w first rest Hcams Hgen) in Hrun. discriminate Hrun.
Qed.

End Start.

Section Loop.

Variable V : Vendor.

Lemma run_steps_run (c : Camera) (steps : list LoopStep) : forall w : World,
  camera w = Some c ->
  forallb safe_step steps = true ->
  forallb safe_call (pending (loop w)) = true ->
  exists es q k,
    run_steps V steps w = (es, Ok tt (set_loop (mkEventLoop q) (set_calls k w)))
    /\ LoopRun V c (pending (loop w)) es q.
Proof.
  induction steps as [| step steps IH]; intros w Hc Hsteps Hq.
  - exists [], (pending (loop w)), (calls w). split; [| constructor].
    destruct w as [cam [q] o k]. reflexivity.
  - cbn [forallb] in Hsteps. apply andb_true_iff in Hsteps as [Hstep Hsteps].
    destruct step as [r |]; cbn [run_steps safe_step] in *; run.
    + destruct (status r) eqn:Hst; run.
      * edestruct (IH (set_loop (mkEventLoop (pending (loop w) ++ [ProcessRequest r])) w))
          as (es & q & k & Hrun & Hloop); [exact Hc | exact Hsteps | |].
        { cbn [loop set_loop pending]. rewrite forallb_app, Hq.
          cbn [forallb safe_call]. now rewrite Hstep. }
        rewrite Hrun. run. do 3 eexists. split; [reflexivity |].
        apply LoopCompleted; [congruence | exact Hloop].
      * edestruct (IH (set_loop (mkEventLoop (pending (loop w) ++ [ProcessRequest r])) w))
          as (es & q & k & Hrun & Hloop); [exact Hc | exact Hsteps | |].
        { cbn [loop set_loop pending]. rewrite forallb_app, Hq.
          cbn [forallb safe_call]. now rewrite Hstep. }
        rewrite Hrun. run. do 3 eexists. split; [reflexivity |].
        apply LoopCompleted; [congruence | exact Hloop].
      * destruct (IH w Hc Hsteps Hq) as (es & q & k & Hrun & Hloop).
        rewrite Hrun. run. do 3 eexists. split; [reflexivity |].
        apply LoopCancelled; assumption.
    + destruct (pending (loop w)) as [| [r] q0] eqn:Hpending; run.
      * destruct (IH w Hc Hsteps) as (es & q & k & Hrun & Hloop); [now rewrite Hpending |].
        rewrite Hrun. run. do 3 eexists. split; [reflexivity |].
        now rewrite Hpending in Hloop.
      * cbn [forallb safe_call] in Hq. apply andb_true_iff in Hq as [Hr Hq0].
        destruct (processRequest_run V r c (set_loop (mkEventLoop q0) w) Hc Hr)
          as (bs & k0 & Hproc & Hbs & Himg & _).
        rewrite Hproc. run.
        edestruct (IH (set_calls k0 (set_loop (mkEventLoop q0) w)))
          as (es & q & k & Hrun & Hloop); [exact Hc | exact Hsteps | exact Hq0 |].
        rewrite Hrun. run. do 3 eexists. split.
        { rewrite <- app_assoc. reflexivity. }
        cbn [app]. now apply LoopDispatch.
Qed.

Lemma queue_requests_run (c : Camera) (l : list Request) (w : World) :
  camera w = Some c ->
  for_each l queueRequest w = (map (QueueRequest c) l, Ok tt w).
Proof.
  intros Hc. induction l as [| r l IH]; [reflexivity |].
  cbn [for_each map]. run. rewrite Hc. run. rewrite IH. reflexivity.
Qed.

Lemma go_run (this : nat) (c : Camera) (w : World) :
  camera w = Some c ->
  forallb safe_step (v_schedule V (n_exec (calls w))) = true ->
  forallb safe_call (pending (loop w)) = true ->
  exists es q k,
    go V this w
    = ((map (QueueRequest c) (requests (objects w this))
        ++ LoopTimeout TIMEOUT_SEC :: es
        ++ [Cout (exit_text (v_exit V (n_exec (calls w))))])%list,
       Ok EXIT_SUCCESS (set_loop (mkEventLoop q) (set_calls k w)))
    /\ LoopRun V c (pending (loop w)) es q.
Proof.
  intros Hc Hsteps Hq. unfold go. run.
  rewrite (queue_requests_run c _ w Hc). run.
  edestruct (run_steps_run c (v_schedule V (n_exec (calls w)))
               (set_calls (bump_exec (calls w)) w))
    as (es & q & k & Hrun & Hloop); [exact Hc | exact Hsteps | exact Hq |].
  rewrite Hrun. run. rewrite app_nil_r. exists es, q, k. split; [reflexivity | exact Hloop].
Qed.

(** Whatever happens in the loop, [go] has one return code. *)
Lemma go_code (this : nat) (w : World) :
  snd (go V this w) = Undefined
  \/ exists w', snd (go V this w) = Ok EXIT_SUCCESS w'.
Proof.
  unfold go. run.
  destruct (for_each (requests (objects w this)) queueRequest w) as [es1 [[] w1 |]];
    run; [| now left].
  destruct (run_steps V _ _) as [es2 [[] w2 |]]; run; [| now left].
  right. eexists. reflexivity.
Qed.

End Loop.

Lemma finish_run (this : nat) (c : Camera) (a : FrameBufferAllocator)
    (m : CameraManager) (w : World) :
  camera w = Some c ->
  allocator (objects w this) = Some a ->
  cm (objects w this) = Some m ->
  finish this w
  = ([CameraStop c; AllocatorFree (stream (objects w this)); AllocatorDelete a;
      Release c; CameraReset; CmStop],
     Ok EXIT_SUCCESS
        (set_camera None (set_object this (with_allocator None (objects w this)) w))).
Proof.
  intros Hc Ha Hm. unfold finish. run.
  rewrite Hc. run. rewrite Ha. run. rewrite Ha. run. rewrite Hc. run.
  rewrite Nat.eqb_refl. cbn [cm with_allocator]. rewrite Hm. reflexivity.
Qed.

(** Where an event of some kind can sit in [bs ++ x :: rest] when [bs] holds
    none of that kind. *)
Lemma split_after {A : Type} (P : A -> bool) (bs : list A) : forall (x : A)
    (rest l1 : list A) (y : A) (l2 : list A),
  existsb P bs = false ->
  P y = true ->
  (bs ++ x :: rest = l1 ++ y :: l2)%list ->
  (l1 = bs /\ x = y /\ rest = l2)
  \/ (exists l1', l1 = (bs ++ x :: l1')%list /\ rest = (l1' ++ y :: l2)%list).
Proof.
  induction bs as [| b bs IH]; intros x rest l1 y l2 Hbs Hy Heq.
  - destruct l1 as [| a l1]; cbn [app] in Heq; injection Heq as -> ->.
    + now left.
    + right. now exists l1.
  - cbn [existsb] in Hbs. apply orb_false_iff in Hbs as [Hb Hbs].
    destruct l1 as [| a l1]; cbn [app] in Heq; injection Heq as -> Heq.
    + congruence.
    + destruct (IH _ _ _ _ _ Hbs Hy Heq) as [(-> & -> & ->) | (l1' & -> & ->)].
      * now left.
      * right. now exists l1'.
Qed.

Lemma buffer_events_no_reuse (bs : list Event) :
  forallb buffer_event bs = true ->
  existsb is_reuse bs = false /\ existsb is_queue bs = false.
Proof.
  induction bs as [| e bs IH]; [now split |].
  cbn [forallb]. intros H. apply andb_true_iff in H as [He Hbs].
  destruct (IH Hbs) as [H1 H2].
  destruct e; try discriminate He; cbn [existsb is_reuse is_queue orb]; now split.
Qed.

Section LoopFacts.

Variables (V : Vendor) (c : Camera).

(** Every [reuse] in a loop trace keeps the buffers, is for a request that
    was waiting or has completed earlier without being cancelled, and is
    followed at once by the requeue of that request. *)
Lemma LoopRun_reuse (q : list Call) (es : list Event) (q' : list Call) :
  LoopRun V c q es q' ->
  forall l1 r f l2,
    es = (l1 ++ Reuse r f :: l2)%list ->
    f = ReuseBuffers
    /\ (exists l2', l2 = QueueRequest c r :: l2')
    /\ (In (ProcessRequest r) q
        \/ (In (RequestCompleted r) l1 /\ status r <> RequestCancelled)).
Proof.
  induction 1 as [q | q r0 es q' Hst Hrun IH | q r0 es q' Hst Hrun IH
                  | q r0 bs es q' Hbs Himg Hrun IH]; intros l1 r f l2 Heq.
  - destruct l1; discriminate Heq.
  - destruct l1 as [| e l1]; [discriminate Heq |]. injection Heq as <- Heq.
    destruct (IH _ _ _ _ Heq) as (Hf & Hnext & [Hin | [Hin Hr]]).
    + repeat split; auto.
    + repeat split; auto. right. split; [now right | exact Hr].
  - destruct l1 as [| e [| e' l1]]; try discriminate Heq. injection Heq as <- <- Heq.
    destruct (IH _ _ _ _ Heq) as (Hf & Hnext & [Hin | [Hin Hr]]).
    + apply in_app_or in Hin as [Hin | [Hin | []]].
      * repeat split; auto.
      * injection Hin as ->. repeat split; auto. right. split; [now left | exact Hst].
    + repeat split; auto. right. split; [now do 2 right | exact Hr].
  - apply buffer_events_no_reuse in Hbs as [Hbs _].
    destruct (split_after is_reuse bs _ _ l1 (Reuse r f) l2 Hbs eq_refl Heq)
      as [(-> & Hx & <-) | (l1' & -> & Hrest)].
    + injection Hx as <- <-. repeat split; eauto. left. now left.
    + destruct l1' as [| e l1']; [discriminate Hrest |]. injection Hrest as <- Hrest.
      destruct (IH _ _ _ _ Hrest) as (Hf & Hnext & [Hin | [Hin Hr]]).
      * repeat split; auto. left. now right.
      * repeat split; auto. right. split; [| exact Hr].
        apply in_or_app. right. now do 2 right.
Qed.

(** Every requeue in a loop trace goes to the camera handle and comes
    straight after the [reuse] of the same request. *)
Lemma LoopRun_queue (q : list Call) (es : list Event) (q' : list Call) :
  LoopRun V c q es q' ->
  forall l1 c' r l2,
    es = (l1 ++ QueueRequest c' r :: l2)%list ->
    c' = c /\ exists l1', l1 = (l1' ++ [Reuse r ReuseBuffers])%list.
Proof.
  induction 1 as [q | q r0 es q' Hst Hrun IH | q r0 es q' Hst Hrun IH
                  | q r0 bs es q' Hbs Himg Hrun IH]; intros l1 c' r l2 Heq.
  - destruct l1; discriminate Heq.
  - destruct l1 as [| e l1]; [discriminate Heq |]. injection Heq as <- Heq.
    destruct (IH _ _ _ _ Heq) as (Hc & l1' & ->). split; [exact Hc |].
    now exists (RequestCompleted r0 :: l1').
  - destruct l1 as [| e [| e' l1]]; try discriminate Heq. injection Heq as <- <- Heq.
    destruct (IH _ _ _ _ Heq) as (Hc & l1' & ->). split; [exact Hc |].
    now exists (RequestCompleted r0 :: CallLater (ProcessRequest r0) :: l1').
  - apply buffer_events_no_reuse in Hbs as [_ Hbs].
    change (bs ++ Reuse r0 ReuseBuffers :: QueueRequest c r0 :: es)%list
      with (bs ++ [Reuse r0 ReuseBuffers] ++ QueueRequest c r0 :: es)%list in Heq.
    rewrite app_assoc in Heq.
    assert (Hpre : existsb is_queue (bs ++ [Reuse r0 ReuseBuffers]) = false)
      by (now rewrite existsb_app, Hbs).
    destruct (split_after is_queue _ _ _ l1 (QueueRequest c' r) l2 Hpre eq_refl Heq)
      as [(-> & Hx & <-) | (l1' & -> & Hrest)].
    + injection Hx as <- <-. split; [reflexivity |]. now exists bs.
    + destruct (IH _ _ _ _ Hrest) as (Hc & l1'' & ->). split; [exact Hc |].
      exists ((bs ++ [Reuse r0 ReuseBuffers]) ++ QueueRequest c r0 :: l1'')%list.
      now rewrite <- !app_assoc.
Qed.

(** The events [processRequest] leaves for the buffers are none of the
    events the loop is counted by. *)
Lemma buffer_events_uncounted (bs : list Event) :
  forallb buffer_event bs = true ->
  completed_requests bs = [] /\ deferred_requests bs = []
  /\ reused_requests bs = [] /\ queued_requests bs = []
  /\ existsb is_completion bs = false.
Proof.
  unfold completed_requests, deferred_requests, reused_requests, queued_requests.
  induction bs as [| e bs IH]; [now repeat split |].
  cbn [forallb]. intros H. apply andb_true_iff in H as [He Hbs].
  destruct (IH Hbs) as (H1 & H2 & H3 & H4 & H5).
  destruct e; try discriminate He;
    cbn [flat_map existsb is_completion orb app]; now repeat split.
Qed.

(** The loop loses no call and invents none: the calls handed to it are
    those of the requests that completed without being cancelled, and the
    calls that waited or were handed to it are, in this order, the ones it
    ran (each ending with the [reuse] and the requeue to [c]) and the ones
    still waiting. *)
Lemma LoopRun_accounts (q : list Call) (es : list Event) (q' : list Call) :
  LoopRun V c q es q' ->
  deferred_requests es = filter not_cancelled (completed_requests es)
  /\ (map call_request q ++ deferred_requests es)%list
     = (map fst (reused_requests es) ++ map call_request q')%list
  /\ queued_requests es = map (fun rf => (c, fst rf)) (reused_requests es)
  /\ Forall (fun rf => snd rf = ReuseBuffers) (reused_requests es).
Proof.
  unfold completed_requests, deferred_requests, reused_requests, queued_requests.
  induction 1 as [q | q r0 es q' Hst Hrun IH | q r0 es q' Hst Hrun IH
                  | q r0 bs es q' Hbs Himg Hrun IH].
  - cbn [flat_map filter map]. rewrite app_nil_r. now repeat split.
  - destruct IH as (H1 & H2 & H3 & H4).
    cbn [flat_map app filter]. unfold not_cancelled at 1. rewrite Hst.
    now repeat split.
  - destruct IH as (H1 & H2 & H3 & H4).
    cbn [flat_map app filter]. unfold not_cancelled at 1.
    rewrite map_app in H2. cbn [map call_request] in H2.
    rewrite <- app_assoc in H2. cbn [app] in H2.
    split; [| now repeat split].
    destruct (status r0); [now rewrite H1 | now rewrite H1 | congruence].
  - destruct IH as (H1 & H2 & H3 & H4).
    destruct (buffer_events_uncounted bs Hbs) as (B1 & B2 & B3 & B4 & _).
    unfold completed_requests, deferred_requests, reused_requests, queued_requests in *.
    rewrite !flat_map_app, B1, B2, B3, B4. cbn [flat_map app map fst call_request].
    split; [exact H1 |]. split; [now rewrite H2 |]. split; [now rewrite H3 |].
    constructor; [reflexivity | exact H4].
Qed.

(** A call that waits is run by the loop or still waits when the loop is
    left. *)
Lemma LoopRun_waiting (q : list Call) (es : list Event) (q' : list Call) :
  LoopRun V c q es q' ->
  forall r, In (ProcessRequest r) q -> requeued c r es \/ In (ProcessRequest r) q'.
Proof.
  induction 1 as [q | q r0 es q' Hst Hrun IH | q r0 es q' Hst Hrun IH
                  | q r0 bs es q' Hbs Himg Hrun IH]; intros r Hin.
  - now right.
  - destruct (IH r Hin) as [(l1 & l2 & ->) | Hq]; [left | now right].
    now exists (RequestCompleted r0 :: l1), l2.
  - destruct (IH r) as [(l1 & l2 & ->) | Hq]; [apply in_or_app; now left | left | now right].
    now exists (RequestCompleted r0 :: CallLater (ProcessRequest r0) :: l1), l2.
  - destruct Hin as [Heq | Hin].
    + injection Heq as ->. left. now exists bs, es.
    + destruct (IH r Hin) as [(l1 & l2 & ->) | Hq]; [left | now right].
      exists (bs ++ Reuse r0 ReuseBuffers :: QueueRequest c r0 :: l1)%list, l2.
      rewrite <- app_assoc. reflexivity.
Qed.

(** Every request that completes without being cancelled is handed to the
    loop at once, and from there it is run after its completion or still
    waits when the loop is left. *)
Lemma LoopRun_completion (q : list Call) (es : list Event) (q' : list Call) :
  LoopRun V c q es q' ->
  forall l1 r l2,
    es = (l1 ++ RequestCompleted r :: l2)%list ->
    status r <> RequestCancelled ->
    (exists l2', l2 = CallLater (ProcessRequest r) :: l2')
    /\ (requeued c r l2 \/ In (ProcessRequest r) q').
Proof.
  induction 1 as [q | q r0 es q' Hst Hrun IH | q r0 es q' Hst Hrun IH
                  | q r0 bs es q' Hbs Himg Hrun IH]; intros l1 r l2 Heq Hr.
  - destruct l1; discriminate Heq.
  - destruct l1 as [| e l1]; injection Heq as <- Heq; [congruence |].
    exact (IH _ _ _ Heq Hr).
  - destruct l1 as [| e [| e' l1]]; try discriminate Heq.
    + injection Heq as <- <-. split; [now eexists |].
      destruct (LoopRun_waiting _ _ _ Hrun r0) as [(m1 & m2 & ->) | Hq];
        [apply in_or_app; right; now left | left | now right].
      now exists (CallLater (ProcessRequest r0) :: m1), m2.
    + injection Heq as <- <- Heq. exact (IH _ _ _ Heq Hr).
  - destruct (buffer_events_uncounted bs Hbs) as (_ & _ & _ & _ & Hnone).
    destruct (split_after is_completion bs _ _ l1 (RequestCompleted r) l2 Hnone eq_refl Heq)
      as [(_ & Hx & _) | (l1' & -> & Hrest)]; [discriminate Hx |].
    destruct l1' as [| e l1']; [discriminate Hrest |]. injection Hrest as <- Hrest.
    exact (IH _ _ _ Hrest Hr).
Qed.

End LoopFacts.

Lemma int_of_unsigned_small (n : N) :
  (n < 2 ^ 31)%N -> int_of_unsigned n = Z.of_N n.
Proof.
  intros Hn. unfold int_of_unsigned.
  assert (H : (0 <= Z.of_N n < 2 ^ 31)%Z) by lia.
  rewrite Z.mod_small by lia.
  destruct (Z.of_N n <? 2 ^ 31)%Z eqn:E; [reflexivity |].
  apply Z.ltb_ge in E. lia.
Qed.

Lemma processRequest_undefined (V : Vendor) (request : Request) (w : World) :
  forallb mapped (buffers request) = false ->
  snd (processRequest V request w) = Undefined.
Proof.
  intros Hall. pose proof (process_buffers_undefined V _ w Hall) as H.
  unfold processRequest. run.
  destruct (for_each (buffers request) (process_buffer V) w) as [es [[] w' |]];
    [discriminate H | reflexivity].
Qed.

(** Two vendors that report the same sizes make [processRequest] build the
    same images. *)
Lemma wrote_same_images (V V' : Vendor) (l : list (Stream * FrameBuffer)) :
  (forall s, size (v_configuration V' s) = size (v_configuration V s)) ->
  forall imgs imgs',
    Forall2 (wrote V) l imgs -> Forall2 (wrote V') l imgs' ->
    map snd imgs' = map snd imgs.
Proof.
  intros Hsize. induction l as [| sb l IH]; intros imgs imgs' H H'.
  - inversion H. inversion H'. reflexivity.
  - inversion H as [| ? pi ? tl (p0 & mem & sec & Hm & ->) Htl]. subst.
    inversion H' as [| ? pi' ? tl' (p0' & mem' & sec' & Hm' & ->) Htl']. subst.
    cbn [map snd]. rewrite (IH _ _ Htl Htl'). f_equal.
    rewrite Hm in Hm'. injection Hm' as <- <-.
    unfold image_of. now rewrite Hsize.
Qed.

(** The text of [processRequest] is the text of its buffers, one after the
    other. *)
Lemma processRequest_text (V : Vendor) (request : Request) (w : World) :
  forallb mapped (buffers request) = true ->
  metadata_lines V (buffers request) (stdout_text (fst (processRequest V request w))).
Proof.
  intros Hall.
  destruct (process_buffers_run V (buffers request) w Hall) as (es & k & Hes & _ & _ & Hlines).
  unfold processRequest. run. rewrite Hes. run.
  destruct (camera w); run; rewrite stdout_text_app; cbn [stdout_text];
    now rewrite TextFacts.append_nil_r.
Qed.

Lemma prelude_facts (V : Vendor) (c : Camera) (config : CameraConfiguration) :
  existsb is_configure (start_prelude V c config) = false
  /\ existsb late_failure (start_prelude V c config) = false
  /\ created_requests (start_prelude V c config) = []
  /\ in_order 0 (start_prelude V c config) = true
  /\ phases_up_to 2 (start_prelude V c config) = true.
Proof.
  unfold start_prelude, start_acquired. rewrite <- app_comm_cons, <- app_assoc.
  cbn [app].
  destruct (cout_facts (fun c : Camera => " - " ++ cameraName c ++ endl) (v_cameras V))
    as (H1 & H2 & H3 & H4). cbv zeta in H1, H2, H3, H4.
  pose proof (single_phase_in_order 0 _ (H4 0)) as [H5 H6].
  repeat split.
  - cbn [existsb is_configure orb]. now rewrite existsb_app, H1.
  - cbn [existsb late_failure orb]. now rewrite existsb_app, H2.
  - cbn [created_requests]. now rewrite created_requests_app, H3.
  - cbn [in_order phase Nat.leb andb]. now apply (in_order_app 0 0).
  - cbn [phases_up_to forallb phase Nat.leb andb]. rewrite forallb_app.
    fold (phases_up_to 2 (map (fun c0 : Camera => Cout (" - " ++ cameraName c0 ++ endl))
                              (v_cameras V))).
    now rewrite (phases_up_to_weaken 0 2) by auto.
Qed.

Lemma acquired_no_configure (V : Vendor) (c : Camera) :
  existsb is_configure (start_acquired V c) = false.
Proof.
  unfold start_acquired. cbn [existsb is_configure orb]. rewrite existsb_app.
  destruct (cout_facts (fun c : Camera => " - " ++ cameraName c ++ endl) (v_cameras V))
    as (H1 & _). cbv zeta in H1. now rewrite H1.
Qed.

Lemma configured_facts (V : Vendor) (w : World) (c : Camera) (config : CameraConfiguration) :
  existsb late_failure (configured_trace V w c config) = false
  /\ created_requests (configured_trace V w c config) = []
  /\ in_order 0 (configured_trace V w c config) = true
  /\ phases_up_to 2 (configured_trace V w c config) = true.
Proof.
  destruct (prelude_facts V c config) as (_ & H2 & H3 & H4 & H5).
  unfold configured_trace. cbv zeta. repeat split.
  - rewrite existsb_app, H2. reflexivity.
  - rewrite created_requests_app, H3. reflexivity.
  - apply (in_order_app 0 2); auto.
  - rewrite phases_up_to_app, H5. reflexivity.
Qed.


Lemma late_failure_is_configure (e : Event) : late_failure e = true -> is_configure e = false.
Proof. destruct e; try discriminate; auto. Qed.



Lemma run_steps_with_exit (f : nat -> Z) (V : Vendor) (steps : list LoopStep) :
  run_steps (with_exit f V) steps = run_steps V steps.
Proof. reflexivity. Qed.

Lemma start_success (V : Vendor) (this : nat) (w : World) (es : list Event) (w' : World) :
  start V this w = (es, Ok EXIT_SUCCESS w') ->
  exists first rest config body,
    v_cameras V = first :: rest
    /\ generated_config V first = Some config
    /\ es = (configured_trace V w first config ++ body
             ++ [Connect first; CameraStart first])%list
    /\ fst (v_configure V (n_configure (calls w)) (requested_config config)) = 0%Z
    /\ late_checks_fail V w config = false
    /\ existsb is_configure body = false
    /\ existsb late_failure body = false
    /\ in_order 3 body = true
    /\ phases_up_to 4 body = true
    /\ In (NewAllocator (mkAllocator (Some first))) body
    /\ (exists r0,
          In (Allocate (cfg_stream (at0 (final_config V w config))) r0) body)
    /\ (forall p, objects w' p =
               if Nat.eqb p this
               then mkSimpleCam (Some (cfg_stream (at0 (final_config V w config))))
                                (Some (mkAllocator (Some first))) (Some this)
                                (requests (objects w this) ++ created_requests body)
               else objects w p)
    /\ camera w' = Some first
    /\ loop w' = loop w.
Proof.
  intros Hrun. destruct (start_returns V this w es _ w' Hrun) as (_ & HR).
  inversion HR as [Hcams Hes Hcode
                  | first rest config w1 Hcams Hgen r Hr Hes Hcode
                  | first rest config pre e m w1 Hcams Hgen r Hr Hlate Hpre1 Hpre2 He Hes Hcode
                  | first rest config body w1 Hcams Hgen r validated r' Hr Hlate Hb1 Hb2 Hb3
                      Hb4 Hb5 Hb6 Hcam Hloop Hobj Hes Hcode];
    try discriminate Hcode.
  exists first, rest, config, body. unfold final_config. fold r validated r'.
  split; [exact Hcams |]. split; [exact Hgen |]. split; [reflexivity |].
  split; [exact Hr |]. split; [exact Hlate |]. split; [exact Hb1 |].
  split; [exact Hb2 |]. split; [exact Hb3 |]. split; [exact Hb4 |].
  split; [exact Hb5 |]. split; [exact Hb6 |]. split; [exact Hobj |].
  split; [exact Hcam | exact Hloop].
Qed.

Lemma buffer_events_phase (bs : list Event) :
  forallb buffer_event bs = true -> single_phase 7 bs = true.
Proof.
  induction bs as [| e bs IH]; [reflexivity |].
  cbn [forallb]. intros H. apply andb_true_iff in H as [He Hbs].
  rewrite single_phase_cons, (IH Hbs). destruct e; try discriminate He; reflexivity.
Qed.

Lemma LoopRun_phase (V : Vendor) (c : Camera) (q : list Call) (es : list Event)
    (q' : list Call) :
  LoopRun V c q es q' -> single_phase 7 es = true.
Proof.
  induction 1 as [q | q r0 es q' Hst Hrun IH | q r0 es q' Hst Hrun IH
                  | q r0 bs es q' Hbs Himg Hrun IH].
  - reflexivity.
  - now rewrite single_phase_cons, IH.
  - now rewrite !single_phase_cons, IH.
  - now rewrite single_phase_app, (buffer_events_phase _ Hbs), !single_phase_cons, IH.
Qed.

Lemma finish_code (this : nat) (w : World) :
  snd (finish this w) = Undefined
  \/ exists w', snd (finish this w) = Ok EXIT_SUCCESS w'.
Proof.
  unfold finish. run.
  destruct (camera w) eqn:Hc; run; [| now left].
  destruct (allocator (objects w this)) eqn:Ha; run; [| now left].
  rewrite Ha. run. rewrite Hc. run.
  rewrite Nat.eqb_refl. cbn [cm with_allocator].
  destruct (cm (objects w this)); run; [| now left].
  right. eexists. reflexivity.
Qed.

Lemma returned_start (V : Vendor) (this : nat) (w : World) :
  returned (snd (start V this w)) = Some EXIT_SUCCESS ->
  exists es w', start V this w = (es, Ok EXIT_SUCCESS w').
Proof.
  destruct (start V this w) as [es [code w' |]]; cbn [snd returned]; intros H;
    [| discriminate H].
  injection H as ->. now exists es, w'.
Qed.

Lemma started_order (V : Vendor) (w : World) (first : Camera)
    (config : CameraConfiguration) (body : list Event) :
  in_order 3 body = true ->
  phases_up_to 4 body = true ->
  let es := (configured_trace V w first config ++ body
             ++ [Connect first; CameraStart first])%list in
  in_order 0 es = true /\ phases_up_to 6 es = true
  /\ created_requests es = created_requests body.
Proof.
  intros Hb1 Hb2 es. subst es.
  destruct (configured_facts V w first config) as (_ & Hc2 & Hc3 & Hc4).
  repeat split.
  - apply (in_order_app 0 2); auto. apply (in_order_app 2 4); auto.
    now apply (in_order_weaken 2 3); auto.
  - rewrite !phases_up_to_app.
    rewrite (phases_up_to_weaken 2 6), (phases_up_to_weaken 4 6) by auto. reflexivity.
  - rewrite !created_requests_app, Hc2. cbn [created_requests app].
    now rewrite app_nil_r.
Qed.

Lemma queue_phase (c : Camera) (l : list Request) :
  single_phase 7 (map (QueueRequest c) l) = true.
Proof. induction l as [| r l IH]; [reflexivity | now rewrite map_cons, single_phase_cons]. Qed.

(* ------------------------------------------------------------------------- *)
(** ** Events and state of a computation *)
(* ------------------------------------------------------------------------- *)

(** The rules below follow a computation along its [bind]s: what holds of
    every event of each part holds of every event of the whole, and a part of
    the state that each step leaves alone, or updates as the trace says, is
    left alone or updated so by the whole. *)

Section Emits.

Context {P : Event -> bool}.

Lemma emits_ret {A : Type} (a : A) : emits P (ret a).
Proof. intros w. reflexivity. Qed.

Lemma emits_undefined {A : Type} : emits P (@undefined A).
Proof. intros w. reflexivity. Qed.

Lemma emits_gets {A : Type} (f : World -> A) : emits P (gets f).
Proof. intros w. reflexivity. Qed.

Lemma emits_modify (f : World -> World) : emits P (modify f).
Proof. intros w. reflexivity. Qed.

Lemma emits_emit (e : Event) : P e = true -> emits P (emit e).
Proof. intros He w. cbn. now rewrite He. Qed.

Lemma emits_bind {A B : Type} (m : M A) (f : A -> M B) :
  emits P m -> (forall a, emits P (f a)) -> emits P (bind m f).
Proof.
  intros Hm Hf w. specialize (Hm w). unfold bind.
  destruct (m w) as [es [a w' |]]; cbn [fst] in *; [| exact Hm].
  specialize (Hf a w'). destruct (f a w') as [es' r]. cbn [fst] in *.
  now rewrite forallb_app, Hm, Hf.
Qed.

Lemma emits_deref {A : Type} (f : World -> option A) : emits P (deref f).
Proof. intros w. unfold deref. run. now destruct (f w). Qed.

Lemma emits_for_each {A : Type} (l : list A) (body : A -> M unit) :
  (forall x, emits P (body x)) -> emits P (for_each l body).
Proof.
  intros Hbody. induction l as [| x l IH]; [apply emits_ret |].
  cbn [for_each]. apply emits_bind; [apply Hbody | intros _; exact IH].
Qed.

Lemma emits_for_each_return {A : Type} (l : list A) (body : A -> M (option Z)) :
  (forall x, emits P (body x)) -> emits P (for_each_return l body).
Proof.
  intros Hbody. induction l as [| x l IH]; [apply emits_ret |].
  cbn [for_each_return]. apply emits_bind; [apply Hbody |].
  intros [code |]; [apply emits_ret | exact IH].
Qed.

End Emits.

Ltac emits_step :=
  match goal with
  | |- emits _ (ret _) => apply emits_ret
  | |- emits _ undefined => apply emits_undefined
  | |- emits _ (gets _) => apply emits_gets
  | |- emits _ (modify _) => apply emits_modify
  | |- emits _ (deref _) => apply emits_deref
  | |- emits _ (emit _) => apply emits_emit; reflexivity
  | |- emits _ (bind _ _) => apply emits_bind; [| intro]
  | |- emits _ (for_each _ _) => apply emits_for_each; intro
  | |- emits _ (for_each_return _ _) => apply emits_for_each_return; intro
  | |- emits _ (match ?x with _ => _ end) => destruct x
  | |- emits _ _ => assumption
  end.

Ltac emits_all :=
  cbv beta zeta delta
    [cout cerr this_object update_this count clock callLater configure queueRequest];
  repeat emits_step.

Ltac run_in H :=
  cbn [bind ret emit cout cerr gets modify deref undefined this_object update_this
       count clock callLater configure queueRequest requestComplete dispatch exec
       fst snd app camera loop objects calls set_camera set_loop set_calls set_object
       pending
       n_configure n_allocate n_createRequest n_addBuffer n_clock n_exec
       bump_configure bump_allocate bump_createRequest bump_addBuffer bump_clock bump_exec]
    in H.

Section Tracks.

Context {B : Type} (f : World -> B) (g : B -> Event -> B).

Lemma tracks_ret {A : Type} (a : A) : tracks f g (ret a).
Proof. intros w es a' w' H. inversion H. reflexivity. Qed.

Lemma tracks_undefined {A : Type} : tracks f g (@undefined A).
Proof. intros w es a' w' H. inversion H. Qed.

Lemma tracks_gets {A : Type} (h : World -> A) : tracks f g (gets h).
Proof. intros w es a' w' H. inversion H. reflexivity. Qed.

Lemma tracks_modify (h : World -> World) :
  (forall w, f (h w) = f w) -> tracks f g (modify h).
Proof. intros Hh w es a' w' H. inversion H. cbn. apply Hh. Qed.

Lemma tracks_emit (e : Event) : (forall b, g b e = b) -> tracks f g (emit e).
Proof. intros He w es a' w' H. inversion H. cbn. now rewrite He. Qed.

Lemma tracks_bind {A C : Type} (m : M A) (k : A -> M C) :
  tracks f g m -> (forall a, tracks f g (k a)) -> tracks f g (bind m k).
Proof.
  intros Hm Hk w es c w'' H. unfold bind in H.
  destruct (m w) as [es1 [a w' |]] eqn:E1; [| discriminate].
  destruct (k a w') as [es2 r] eqn:E2. inversion H. subst es r.
  rewrite fold_left_app, <- (Hm _ _ _ _ E1). apply (Hk _ _ _ _ _ E2).
Qed.

Lemma tracks_deref {A : Type} (h : World -> option A) : tracks f g (deref h).
Proof.
  intros w es a w' H. run_in H.
  destruct (h w); inversion H. reflexivity.
Qed.

Lemma tracks_for_each {A : Type} (l : list A) (body : A -> M unit) :
  (forall x, tracks f g (body x)) -> tracks f g (for_each l body).
Proof.
  intros Hbody. induction l as [| x l IH]; [apply tracks_ret |].
  cbn [for_each]. apply tracks_bind; [apply Hbody | intros _; exact IH].
Qed.

Lemma tracks_for_each_return {A : Type} (l : list A) (body : A -> M (option Z)) :
  (forall x, tracks f g (body x)) -> tracks f g (for_each_return l body).
Proof.
  intros Hbody. induction l as [| x l IH]; [apply tracks_ret |].
  cbn [for_each_return]. apply tracks_bind; [apply Hbody |].
  intros [code |]; [apply tracks_ret | exact IH].
Qed.

End Tracks.

Lemma keeps_spec {A B : Type} (f : World -> B) (m : M A) (w : World) (es : list Event)
    (a : A) (w' : World) :
  keeps f m -> m w = (es, Ok a w') -> f w' = f w.
Proof.
  intros Hm H. rewrite (Hm _ _ _ _ H). generalize (f w). clear.
  induction es as [| e es IH]; intros b; [reflexivity | apply IH].
Qed.

Ltac tracks_side :=
  intros;
  cbn [camera loop objects calls set_camera set_loop set_calls set_object
       requests stream allocator cm with_requests with_stream with_allocator with_cm];
  rewrite ?Nat.eqb_refl;
  cbn [requests stream allocator cm with_requests with_stream with_allocator with_cm];
  reflexivity.

Ltac tracks_step :=
  match goal with
  | |- tracks _ _ (ret _) => apply tracks_ret
  | |- tracks _ _ undefined => apply tracks_undefined
  | |- tracks _ _ (gets _) => apply tracks_gets
  | |- tracks _ _ (deref _) => apply tracks_deref
  | |- tracks _ _ (modify _) => apply tracks_modify; first [tracks_side | idtac]
  | |- tracks _ _ (emit _) => apply tracks_emit; first [tracks_side | idtac]
  | |- tracks _ _ (bind _ _) => apply tracks_bind; [| intro]
  | |- tracks _ _ (for_each _ _) => apply tracks_for_each; intro
  | |- tracks _ _ (for_each_return _ _) => apply tracks_for_each_return; intro
  | |- tracks _ _ (match ?x with _ => _ end) => destruct x
  | |- tracks _ _ _ => assumption
  end.

Ltac tracks_all :=
  unfold keeps;
  cbv beta zeta delta
    [cout cerr this_object update_this count clock callLater configure queueRequest];
  repeat tracks_step.

Section ProgramEvents.

Variable V : Vendor.

Lemma print_planes_emits (P : Event -> bool) (l : list Plane) :
  (forall t, P (Cout t) = true) ->
  forall nplane size, emits P (print_planes l nplane size).
Proof.
  intros HP. induction l as [| p l IH]; intros nplane size; cbn [print_planes].
  - apply emits_ret.
  - apply emits_bind; [apply emits_emit, HP | intros _].
    apply emits_bind; [| intros _; apply IH].
    destruct (_ <? _)%nat; [apply emits_emit, HP | apply emits_ret].
Qed.

Lemma process_buffer_emits (sb : Stream * FrameBuffer) :
  emits buffer_event (process_buffer V sb).
Proof.
  unfold process_buffer. emits_all. now apply print_planes_emits.
Qed.

Lemma processRequest_emits (request : Request) :
  emits (of_phase 7) (processRequest V request).
Proof.
  unfold processRequest, process_buffer. emits_all.
  now apply print_planes_emits.
Qed.

Lemma run_steps_emits (steps : list LoopStep) : emits (of_phase 7) (run_steps V steps).
Proof.
  induction steps as [| [r |] steps IH]; cbn [run_steps].
  - apply emits_ret.
  - unfold requestComplete. emits_all; exact IH.
  - apply emits_bind; [| intros _; exact IH].
    unfold dispatch. emits_all. apply processRequest_emits.
Qed.

Lemma go_emits (this : nat) : emits (of_phase 7) (go V this).
Proof. unfold go, exec. emits_all. apply run_steps_emits. Qed.

Lemma start_emits (this : nat) : v_cameras V <> [] -> emits (up_to_phase 6) (start V this).
Proof.
  intros Hcams. unfold start, allocate_stream, create_request.
  destruct (v_cameras V) as [| first rest]; [contradiction |]. emits_all.
Qed.

Lemma print_planes_keeps {B : Type} (f : World -> B) (l : list Plane) :
  forall nplane size, keeps f (print_planes l nplane size).
Proof.
  induction l as [| p l IH]; intros nplane size; cbn [print_planes]; tracks_all.
  apply IH.
Qed.

Lemma processRequest_keeps {B : Type} (f : World -> B) (request : Request) :
  (forall w k, f (set_calls k w) = f w) ->
  keeps f (processRequest V request).
Proof.
  intros Hf. unfold processRequest, process_buffer. tracks_all;
    try apply print_planes_keeps; try (intros; apply Hf).
Qed.

Lemma run_steps_keeps {B : Type} (f : World -> B) (steps : list LoopStep) :
  (forall w k, f (set_calls k w) = f w) ->
  (forall w l, f (set_loop l w) = f w) ->
  keeps f (run_steps V steps).
Proof.
  intros Hk Hl. induction steps as [| [r |] steps IH]; cbn [run_steps].
  - apply tracks_ret.
  - unfold requestComplete. tracks_all; try exact IH; intros; apply Hl.
  - apply tracks_bind; [| intros _; exact IH].
    unfold dispatch. tracks_all; [intros; apply Hl |].
    now apply processRequest_keeps.
Qed.

Lemma go_keeps {B : Type} (f : World -> B) (this : nat) :
  (forall w k, f (set_calls k w) = f w) ->
  (forall w l, f (set_loop l w) = f w) ->
  keeps f (go V this).
Proof.
  intros Hk Hl. unfold go, exec. tracks_all; try (intros; apply Hk).
  now apply run_steps_keeps.
Qed.

End ProgramEvents.

(* ------------------------------------------------------------------------- *)
(** ** The loops of [start], event by event *)
(* ------------------------------------------------------------------------- *)

Section StartTraces.

Variable V : Vendor.

Lemma create_requests_trace (this : nat) (s : Stream) (l : list FrameBuffer) :
  forall (w : World) (es : list Event) (w' : World),
  for_each_return l (create_request V this s) w = (es, Ok None w') ->
  added_buffers es = combine (combine (created_requests es) (map (fun _ => s) l)) l
  /\ List.length (created_requests es) = List.length l
  /\ set_controls es = flat_map request_controls (created_requests es)
  /\ kept_requests es = created_requests es
  /\ allocated_streams es = [].
Proof.
  induction l as [| b l IH]; intros w es w' H.
  - inversion H. repeat split.
  - cbn [for_each_return] in H. unfold create_request at 1 in H. run_in H.
    destruct (camera w) as [c |]; run_in H; [| discriminate].
    destruct (v_createRequest V (n_createRequest (calls w))) as [q |]; run_in H;
      [| discriminate].
    match type of H with context [(?r <? 0)%Z] => destruct (r <? 0)%Z eqn:Hret end;
      run_in H; [discriminate |].
    match type of H with context [for_each_return l _ ?w1] =>
      destruct (for_each_return l (create_request V this s) w1)
        as [es1 [[code |] w1' |]] eqn:E end; run_in H; try discriminate.
    inversion H. subst es w1'. clear H.
    destruct (IH _ _ _ E) as (H1 & H2 & H3 & H4 & H5).
    unfold added_buffers, set_controls, kept_requests, allocated_streams in *.
    cbn [flat_map created_requests app map combine List.length request_controls].
    rewrite Hret. cbn [app]. rewrite H1, H2, H3, H4, H5. repeat split.
Qed.

Lemma allocate_streams_trace (this : nat) (l : list StreamConfiguration) :
  forall (w : World) (es : list Event) (w' : World),
  for_each_return l (allocate_stream V this) w = (es, Ok None w') ->
  allocated_streams es = map cfg_stream l
  /\ created_requests es = []
  /\ added_buffers es = []
  /\ set_controls es = []
  /\ kept_requests es = []
  /\ stdout_text es
     = String.concat ""
         (map (fun cfg => "Allocated "
                            ++ to_string_N (N.of_nat (List.length (v_buffers V (cfg_stream cfg))))
                            ++ " buffers for stream" ++ endl) l).
Proof.
  induction l as [| cfg l IH]; intros w es w' H.
  - inversion H. repeat split.
  - cbn [for_each_return] in H. unfold allocate_stream at 1 in H. run_in H.
    destruct (allocator (objects w this)) as [a |]; run_in H; [| discriminate].
    destruct (v_allocate V (n_allocate (calls w)) (cfg_stream cfg) <? 0)%Z; run_in H;
      [discriminate |].
    match type of H with context [for_each_return l _ ?w1] =>
      destruct (for_each_return l (allocate_stream V this) w1)
        as [es1 [[code |] w1' |]] eqn:E end; run_in H; try discriminate.
    inversion H. subst es w1'. clear H.
    destruct (IH _ _ _ E) as (H1 & H2 & H3 & H4 & H5 & H6).
    unfold added_buffers, set_controls, kept_requests, allocated_streams in *.
    cbn [flat_map created_requests app map stdout_text].
    rewrite H1, H2, H3, H4, H5, H6. repeat split.
    destruct l; [| reflexivity]. cbn. now rewrite TextFacts.append_nil_r.
Qed.

End StartTraces.

Section StartForm.

Variable V : Vendor.

(** A successful [start], cut at its two loops. *)
Lemma start_success_loops (this : nat) (w : World) (es : list Event) (w' : World) :
  start V this w = (es, Ok EXIT_SUCCESS w') ->
  exists first rest config esA esR w1 wA w2,
    v_cameras V = first :: rest
    /\ generated_config V first = Some config
    /\ let final := final_config V w config in
       let s := cfg_stream (at0 final) in
       fst (v_configure V (n_configure (calls w)) (requested_config config)) = 0%Z
       /\ for_each_return (entries final) (allocate_stream V this) w1 = (esA, Ok None wA)
       /\ for_each_return (v_buffers V s) (create_request V this s) w2 = (esR, Ok None w')
       /\ requests (objects w2 this) = requests (objects w this)
       /\ stream (objects w2 this) = Some s
       /\ camera w2 = Some first
       /\ es = (setup_trace V w first config ++ esA ++ esR
                ++ [Connect first; CameraStart first])%list.
Proof.
  intros H. unfold start in H. run_in H. rewrite for_each_cout in H. run_in H.
  destruct (v_cameras V) as [| first rest] eqn:Hcams; run_in H.
  { rewrite Nat.eqb_refl in H. cbn [cm with_cm] in H. run_in H. discriminate. }
  rewrite (cm_get_first V first rest Hcams) in H. run_in H.
  destruct (generated_config V first) as [config |] eqn:Hgen; run_in H; [| discriminate H].
  fold (requested_config config) in H.
  set (r := v_configure V (n_configure (calls w)) (requested_config config)) in *.
  destruct (fst r =? 0)%Z eqn:Hr; cbn [negb] in H; run_in H; [| discriminate].
  apply Z.eqb_eq in Hr.
  set (validated := v_validate V (snd r)) in *.
  set (r' := v_configure V (S (n_configure (calls w))) validated) in *.
  rewrite for_each_cout in H. run_in H. rewrite for_each_cout in H. run_in H.
  rewrite Nat.eqb_refl in H.
  match type of H with context [for_each_return _ (allocate_stream V this) ?x1] =>
    destruct (allocate_streams_run V this (mkAllocator (Some first)) (entries (snd r')) x1)
      as (esA & rA & kA & HrunA & _ & _ & _ & HcasesA);
    [cbn [objects set_object set_calls]; rewrite Nat.eqb_refl; reflexivity |]
  end.
  rewrite HrunA in H. run_in H.
  destruct HcasesA as [(-> & _) | [-> _]]; run_in H; [| discriminate].
  rewrite Nat.eqb_refl in H.
  match type of H with context [for_each_return ?l (create_request V this ?s) ?x2] =>
    destruct (create_requests_run V this s first l x2 eq_refl)
      as (esR & rR & wR & HrunR & _ & HcasesR)
  end.
  rewrite HrunR in H. run_in H.
  destruct HcasesR as [(-> & _ & HcamR & _) | [-> _]]; run_in H; [| discriminate].
  rewrite HcamR in H. run_in H. rewrite HcamR in H. run_in H.
  inversion H. subst w'. clear H.
  exists first, rest, config, esA, esR. do 3 eexists.
  split; [reflexivity |]. split; [exact Hgen |].
  cbv zeta. unfold final_config. fold r validated r'.
  split; [exact Hr |]. split; [exact HrunA |]. split; [exact HrunR |].
  split; [| split; [| split]].
  - cbn [objects set_object set_calls set_camera].
    rewrite !Nat.eqb_refl. reflexivity.
  - cbn [objects set_object]. rewrite Nat.eqb_refl. reflexivity.
  - reflexivity.
  - subst es. unfold setup_trace, configured_trace, start_prelude, start_acquired.
    rewrite Hcams.
    repeat (rewrite <- app_assoc || rewrite <- app_comm_cons). reflexivity.
Qed.

End StartForm.

Lemma flat_map_cout {A B : Type} (f : Event -> list B) (g : A -> string) (l : list A) :
  (forall t, f (Cout t) = []) ->
  flat_map f (map (fun x => Cout (g x)) l) = [].
Proof.
  intros Hf. induction l as [| x l IH]; [reflexivity |].
  cbn [map flat_map]. now rewrite Hf, IH.
Qed.

(** Before the allocation loop [start] allocates nothing and touches no
    request. *)
Lemma setup_trace_facts (V : Vendor) (w : World) (c : Camera)
    (config : CameraConfiguration) :
  created_requests (setup_trace V w c config) = []
  /\ added_buffers (setup_trace V w c config) = []
  /\ set_controls (setup_trace V w c config) = []
  /\ kept_requests (setup_trace V w c config) = []
  /\ allocated_streams (setup_trace V w c config) = [].
Proof.
  destruct (configured_facts V w c config) as (_ & Hc & _).
  pose proof (cout_facts (fun c : string * string * string =>
                fst (fst c) ++ ": " ++ snd (fst c) ++ " = " ++ snd c ++ endl)
                (cam_controls c)) as (_ & _ & Hc3 & _).
  pose proof (cout_facts (fun c : N * string => to_string_N (fst c) ++ ": " ++ snd c ++ endl)
                (cam_properties c)) as (_ & _ & Hp3 & _).
  cbv zeta in Hc3, Hp3.
  split.
  { unfold setup_trace. rewrite created_requests_app, Hc. cbn [app created_requests].
    rewrite created_requests_app, Hc3. cbn [app created_requests].
    now rewrite created_requests_app, Hp3. }
  unfold added_buffers, set_controls, kept_requests, allocated_streams, setup_trace,
    configured_trace, start_prelude, start_acquired.
  repeat split;
    repeat (rewrite flat_map_app || (rewrite flat_map_cout by reflexivity)
            || cbn [flat_map app]);
    reflexivity.
Qed.

(** What a successful [start] has allocated and created. *)
Lemma start_success_counts (V : Vendor) (this : nat) (w : World) (es : list Event)
    (w' : World) :
  start V this w = (es, Ok EXIT_SUCCESS w') ->
  exists first rest config,
    v_cameras V = first :: rest
    /\ generated_config V first = Some config
    /\ allocated_streams es = map cfg_stream (entries (final_config V w config))
    /\ List.length (created_requests es)
       = List.length (v_buffers V (cfg_stream (at0 (final_config V w config))))
    /\ kept_requests es = created_requests es.
Proof.
  intros H.
  destruct (start_success_loops V this w es w' H)
    as (first & rest & config & esA & esR & w1 & wA & w2 & Hcams & Hgen & Hloops).
  cbv zeta in Hloops. destruct Hloops as (_ & HA & HR & _ & _ & _ & ->).
  destruct (setup_trace_facts V w first config) as (S1 & _ & _ & S4 & S5).
  destruct (allocate_streams_trace V this _ _ _ _ HA) as (A0 & A1 & _ & _ & A4 & _).
  destruct (create_requests_trace V this _ _ _ _ _ HR) as (_ & R2 & _ & R4 & R5).
  exists first, rest, config. split; [exact Hcams |]. split; [exact Hgen |].
  unfold allocated_streams, kept_requests in *.
  rewrite !flat_map_app, !created_requests_app, S1, S4, S5, A0, A1, A4, R4, R5.
  cbn [flat_map created_requests app]. rewrite !app_nil_r.
  split; [reflexivity |]. split; [exact R2 | reflexivity].
Qed.


Lemma keep_request_fold (es : list Event) : forall l : list Request,
  fold_left keep_request es l = (l ++ kept_requests es)%list.
Proof.
  unfold kept_requests.
  induction es as [| e es IH]; intros l; [now rewrite app_nil_r |].
  cbn [fold_left flat_map]. rewrite IH.
  destruct e; cbn [keep_request app]; try reflexivity.
  destruct (_ <? 0)%Z; cbn [app]; [reflexivity | now rewrite <- app_assoc].
Qed.

Section StartTracks.

Variable V : Vendor.

Lemma create_request_tracks (this : nat) (s : Stream) (b : FrameBuffer) :
  tracks (fun w => requests (objects w this)) keep_request (create_request V this s b).
Proof.
  intros w es a w' H. unfold create_request in H. run_in H.
  destruct (camera w) as [c |]; run_in H; [| discriminate].
  destruct (v_createRequest V (n_createRequest (calls w))) as [q |]; run_in H.
  2:{ inversion H. reflexivity. }
  match type of H with context [(?r <? 0)%Z] => destruct (r <? 0)%Z eqn:Hret end;
    run_in H; inversion H; cbn [fold_left keep_request objects set_object set_calls];
    rewrite Hret, ?Nat.eqb_refl; reflexivity.
Qed.

Lemma start_tracks (this : nat) :
  tracks (fun w => requests (objects w this)) keep_request (start V this).
Proof.
  pose proof (create_request_tracks this) as Hbody.
  unfold start, allocate_stream. tracks_all; apply Hbody.
Qed.

(** [start] does not run the loop. *)
Lemma start_keeps_exec (this : nat) :
  keeps (fun w => n_exec (calls w)) (start V this).
Proof.
  unfold start, allocate_stream, create_request. tracks_all; intros; reflexivity.
Qed.

End StartTracks.

(* ------------------------------------------------------------------------- *)
(** ** The properties of the specification *)
(* ------------------------------------------------------------------------- *)



(** C2.  [requestComplete] does one thing, which depends on the status of
    the request alone.  For a cancelled request it returns with no event and
    no change of state.  For any other request its only event is the call of
    [callLater], and its only effect is that [processRequest request] waits
    at the end of the loop's queue; the loop runs exactly that call when it
    dispatches it.  In both cases nothing is printed and no image is
    written by the callback itself. *)
Theorem requestComplete_defers (V : Vendor) (request : Request) (w : World) :
  (status request = RequestCancelled ->
     requestComplete request w = ([], Ok tt w))
  /\ (status request <> RequestCancelled ->
        requestComplete request w
        = ([CallLater (ProcessRequest request)],
           Ok tt (set_loop (mkEventLoop (pending (loop w) ++ [ProcessRequest request])) w)))
  /\ existsb is_message (fst (requestComplete request w)) = false
  /\ written_images (fst (requestComplete request w)) = []
  /\ dispatch V (set_loop (mkEventLoop [ProcessRequest request]) w)
     = processRequest V request (set_loop (mkEventLoop []) w).
Proof.
  repeat split.
  - intros H. run. now rewrite H.
  - intros H. run. destruct (status request); [reflexivity | reflexivity | congruence].
  - run. now destruct (status request).
  - run. now destruct (status request).
  - run. now destruct (processRequest V request _) as [es [[] w' |]].
Qed.

Lemma requestComplete_defers_witness :
  requestComplete (Demo.completed 1 RequestCancelled 8 [0%N] []) Demo.initial
    = ([], Ok tt Demo.initial)
  /\ requestComplete (Demo.completed 0 RequestComplete 7 [1%N] []) Demo.initial
     = ([CallLater (ProcessRequest (Demo.completed 0 RequestComplete 7 [1%N] []))],
        Ok tt (set_loop
                 (mkEventLoop
                    (pending (loop Demo.initial)
                     ++ [ProcessRequest (Demo.completed 0 RequestComplete 7 [1%N] [])]))
                 Demo.initial)).
Proof.
  split.
  - apply (requestComplete_defers Demo.good
             (Demo.completed 1 RequestCancelled 8 [0%N] []) Demo.initial).
    reflexivity.
  - apply (requestComplete_defers Demo.good
             (Demo.completed 0 RequestComplete 7 [1%N] []) Demo.initial).
    discriminate.
Defined.

(** C3.  On a fresh program whose [start] succeeds, the session
    [start; go; finish] returns and follows the lifecycle in order.  The
    trace of [start] begins with the acquisition of the first camera and its
    two configurations, and [start] has then called [allocate] for every
    stream of the configuration and created one request per buffer.  [go]
    queues the requests [start] created, in order, and runs the loop; then
    [finish] stops the camera, frees the buffers of the stream, deletes the
    allocator, releases the camera, resets the handle and stops the manager.
    The phases of the vendor calls never go back.  In the loop every request
    that completes without being cancelled is handed to the loop at once by
    [requestComplete], and no other request is; the calls so handed over are,
    in order, the ones the loop ran and the ones still waiting when it was
    left.  Every call the loop ran ended with the [reuse] of its request,
    buffers kept, and straight after it the requeue of that request to the
    camera: so a request that completed without being cancelled is requeued
    after its completion, unless its call still waits when the loop is left
    (such a call is not run: [finish] follows).  Every [reuse] is for a
    request that completed earlier without being cancelled, and every
    requeue comes straight after such a [reuse], so no request is requeued
    before it has completed.  [processRequest] ends with that [reuse] and
    requeue on every request it is given. *)
Theorem lifecycle_order (V : Vendor) (this : nat) (w : World) :
  returned (snd (start V this w)) = Some EXIT_SUCCESS ->
  pending (loop w) = [] ->
  requests (objects w this) = [] ->
  forallb safe_step (v_schedule V (n_exec (calls w))) = true ->
  exists c config body es_loop w',
    let final := final_config V w config in
    let s := cfg_stream (at0 final) in
    let es1 := (configured_trace V w c config ++ body
                ++ [Connect c; CameraStart c])%list in
    hd_error (v_cameras V) = Some c
    /\ generated_config V c = Some config
    /\ fst (start V this w) = es1
    /\ existsb is_configure body = false
    /\ allocated_streams es1 = map cfg_stream (entries final)
    /\ List.length (created_requests es1) = List.length (v_buffers V s)
    /\ lifecycle V this w
       = ((es1
           ++ (map (QueueRequest c) (created_requests es1)
               ++ LoopTimeout TIMEOUT_SEC :: es_loop
               ++ [Cout (exit_text (v_exit V (n_exec (calls w))))])
           ++ [CameraStop c; AllocatorFree (Some s);
               AllocatorDelete (mkAllocator (Some c)); Release c;
               CameraReset; CmStop])%list,
          Ok EXIT_SUCCESS w')
    /\ in_order 0 (fst (lifecycle V this w)) = true
    /\ deferred_requests es_loop = filter not_cancelled (completed_requests es_loop)
    /\ deferred_requests es_loop
       = (map fst (reused_requests es_loop) ++ map call_request (pending (loop w')))%list
    /\ queued_requests es_loop = map (fun rf => (c, fst rf)) (reused_requests es_loop)
    /\ (forall l1 r l2,
          es_loop = (l1 ++ RequestCompleted r :: l2)%list ->
          status r <> RequestCancelled ->
          (exists l2', l2 = CallLater (ProcessRequest r) :: l2')
          /\ (requeued c r l2 \/ In (ProcessRequest r) (pending (loop w'))))
    /\ (forall l1 r f l2,
          es_loop = (l1 ++ Reuse r f :: l2)%list ->
          f = ReuseBuffers
          /\ (exists l2', l2 = QueueRequest c r :: l2')
          /\ In (RequestCompleted r) l1
          /\ status r <> RequestCancelled)
    /\ (forall l1 c' r l2,
          es_loop = (l1 ++ QueueRequest c' r :: l2)%list ->
          c' = c
          /\ exists l1', l1 = (l1' ++ [Reuse r ReuseBuffers])%list
                         /\ In (RequestCompleted r) l1')
    /\ (forall r w0,
          camera w0 = Some c ->
          forallb mapped (buffers r) = true ->
          exists bs w0',
            processRequest V r w0
            = ((bs ++ [Reuse r ReuseBuffers; QueueRequest c r])%list, Ok tt w0')
            /\ forallb buffer_event bs = true).
Proof.
  intros Hret Hpending Hreqs Hsafe.
  destruct (returned_start V this w Hret) as (es1 & w1 & Hstart).
  destruct (start_success V this w es1 w1 Hstart)
    as (first & rest & config & body & Hcams & Hgen & Hes1 & _ & _ & Hb0 & _ & Hb1 & Hb2
        & _ & _ & Hobj & Hcam & Hloop).
  destruct (start_success_counts V this w es1 w1 Hstart)
    as (first' & rest' & config' & Hcams' & Hgen' & Hall & Hlen & _).
  rewrite Hcams in Hcams'. injection Hcams' as <- <-.
  rewrite Hgen in Hgen'. injection Hgen' as <-.
  destruct (started_order V w first config body Hb1 Hb2) as (Ho1 & Ho2 & Ho3).
  cbv zeta in Ho1, Ho2, Ho3. rewrite <- Hes1 in Ho1, Ho2, Ho3.
  pose proof (Hobj this) as Hthis. rewrite Nat.eqb_refl, Hreqs in Hthis.
  cbn [app] in Hthis.
  pose proof (keeps_spec _ _ _ _ _ _ (start_keeps_exec V this) Hstart) as Hexec.
  cbv beta in Hexec. rewrite <- Hexec in Hsafe.
  destruct (go_run V this first w1 Hcam Hsafe) as (es_loop & q & k & Hgo & Hrun).
  { now rewrite Hloop, Hpending. }
  rewrite Hexec in Hgo.
  rewrite Hloop, Hpending in Hrun.
  rewrite Hthis in Hgo. cbn [requests] in Hgo. rewrite <- Ho3 in Hgo.
  set (w2 := set_loop (mkEventLoop q) (set_calls k w1)) in Hgo.
  assert (Hfinish := finish_run this first (mkAllocator (Some first)) this w2 Hcam).
  cbn [objects w2 set_loop set_calls] in Hfinish. rewrite Hthis in Hfinish.
  specialize (Hfinish eq_refl eq_refl). cbn [stream] in Hfinish.
  set (s := cfg_stream (at0 (final_config V w config))) in *.
  set (w3 := set_camera None
               (set_object this
                  (with_allocator None
                     (mkSimpleCam (Some s) (Some (mkAllocator (Some first))) (Some this)
                                  (created_requests body)))
                  w2)).
  assert (Hlife : lifecycle V this w
    = ((es1
        ++ (map (QueueRequest first) (created_requests es1)
            ++ LoopTimeout TIMEOUT_SEC :: es_loop
            ++ [Cout (exit_text (v_exit V (n_exec (calls w))))])
        ++ [CameraStop first; AllocatorFree (Some s);
            AllocatorDelete (mkAllocator (Some first));
            Release first; CameraReset; CmStop])%list,
       Ok EXIT_SUCCESS w3)).
  { unfold lifecycle. cbn [bind]. rewrite Hstart, Hgo.
    cbn [objects w2 set_loop set_calls] in Hfinish |- *. now rewrite Hfinish. }
  destruct (LoopRun_accounts V first _ _ _ Hrun) as (Hacc1 & Hacc2 & Hacc3 & _).
  cbn [map app] in Hacc2.
  exists first, config, body, es_loop, w3.
  cbv zeta. fold s. rewrite <- Hes1.
  split; [now rewrite Hcams |]. split; [exact Hgen |].
  split; [now rewrite Hstart |]. split; [exact Hb0 |].
  split; [exact Hall |]. split; [exact Hlen |]. split; [exact Hlife |].
  split; [| split; [exact Hacc1 | split; [exact Hacc2 | split; [exact Hacc3 |]]]].
  { rewrite Hlife. cbn [fst].
    assert (H7 : single_phase 7
        (map (QueueRequest first) (created_requests es1)
         ++ LoopTimeout TIMEOUT_SEC :: es_loop
         ++ [Cout (exit_text (v_exit V (n_exec (calls w))))]) = true).
    { rewrite single_phase_app, queue_phase, single_phase_cons, single_phase_app.
      now rewrite (LoopRun_phase _ _ _ _ _ Hrun). }
    apply single_phase_in_order in H7 as [H7 H8].
    apply (in_order_app 0 6); [lia | exact Ho1 | exact Ho2 |].
    apply (in_order_app 6 7); [lia | | exact H8 | reflexivity].
    apply (in_order_weaken 6 7); [lia | exact H7]. }
  split; [| split; [| split]].
  - intros l1 r l2 Heq Hr.
    exact (LoopRun_completion V first _ _ _ Hrun _ _ _ Heq Hr).
  - intros l1 r f l2 Heq.
    destruct (LoopRun_reuse V first _ _ _ Hrun _ _ _ _ Heq) as (Hf & Hnext & [[] | [Hin Hst]]).
    now repeat split.
  - intros l1 c' r l2 Heq.
    destruct (LoopRun_queue V first _ _ _ Hrun _ _ _ _ Heq) as (Hc & l1' & ->).
    split; [exact Hc |]. exists l1'. split; [reflexivity |].
    rewrite <- app_assoc in Heq. cbn [app] in Heq.
    destruct (LoopRun_reuse V first _ _ _ Hrun _ _ _ _ Heq) as (_ & _ & [[] | [Hin _]]).
    exact Hin.
  - intros r w0 Hc0 Hall0.
    destruct (processRequest_run V r first w0 Hc0 Hall0) as (bs & k0 & Hp & Hbs & _).
    now exists bs, (set_calls k0 w0).
Qed.

Lemma lifecycle_order_witness :
  in_order 0 (fst (lifecycle Demo.good 0 Demo.initial)) = true
  /\ allocated_streams (fst (start Demo.good 0 Demo.initial)) = [1].
Proof.
  destruct (lifecycle_order Demo.good 0 Demo.initial eq_refl eq_refl eq_refl eq_refl)
    as (c & config & body & es_loop & w' & H).
  cbv zeta in H.
  destruct H as (_ & Hgen & Hes1 & _ & Hall & _ & _ & Horder & _).
  split; [exact Horder |].
  rewrite Hes1, Hall. injection Hgen as <-. reflexivity.
Defined.

(** The loop can be left while a call still waits: the request completed
    without being cancelled, the session returns and [finish] releases the
    camera, and after the completion there is no [reuse] and no requeue at
    all. *)
Lemma completed_request_left_waiting :
  exists l1 l2 w',
    lifecycle Samples.exits_early 0 Demo.initial
    = ((l1 ++ RequestCompleted Samples.last_frame :: l2)%list, Ok EXIT_SUCCESS w')
    /\ status Samples.last_frame <> RequestCancelled
    /\ In (Release Demo.cam0) l2
    /\ existsb is_reuse l2 = false
    /\ existsb is_queue l2 = false
    /\ pending (loop w') = [ProcessRequest Samples.last_frame].
Proof.
  exists (fst (start Samples.exits_early 0 Demo.initial)
          ++ map (QueueRequest Demo.cam0) [Demo.request 0; Demo.request 1]
          ++ [LoopTimeout TIMEOUT_SEC])%list.
  exists (CallLater (ProcessRequest Samples.last_frame)
          :: Cout (exit_text 0)
          :: [CameraStop Demo.cam0; AllocatorFree (Some 1);
              AllocatorDelete (mkAllocator (Some Demo.cam0)); Release Demo.cam0;
              CameraReset; CmStop]).
  exists (state_after (lifecycle Samples.exits_early 0 Demo.initial) Demo.initial).
  split; [vm_compute; reflexivity |].
  split; [discriminate |].
  split; [cbn; tauto |].
  split; [reflexivity |]. split; reflexivity.
Qed.

(** C4.  While the camera handle is set, [processRequest] on a request whose
    buffers are mapped returns, and it has called [cv::imwrite] exactly once
    per buffer of the request, in the order of the buffer map.  Every path
    it writes is ["images/img"], the time stamp, [".png"].  Its other events
    are output on [std::cout], the mapping of a buffer, and the [reuse] and
    requeue of the request: nothing else touches the file system. *)
Theorem processRequest_writes_images (V : Vendor) (request : Request) (c : Camera)
    (w : World) :
  camera w = Some c ->
  forallb mapped (buffers request) = true ->
  exists es w',
    processRequest V request w = (es, Ok tt w')
    /\ List.length (written_images es) = List.length (buffers request)
    /\ Forall2 (fun (sb : Stream * FrameBuffer) (pi : string * Mat) =>
                  exists sec, fst pi = "images/img" ++ sec ++ ".png")
               (buffers request) (written_images es)
    /\ Forall (fun pi : string * Mat =>
                 has_prefix "images/" (fst pi) = true
                 /\ has_suffix ".png" (fst pi) = true)
              (written_images es)
    /\ forallb (fun e => buffer_event e || is_reuse e || is_queue e) es = true.
Proof.
  intros Hc Hall.
  destruct (processRequest_run V request c w Hc Hall) as (es & k & Hrun & Hev & Himg & _).
  rewrite Hrun. do 2 eexists. split; [reflexivity |].
  rewrite written_images_app. cbn [written_images]. rewrite app_nil_r.
  split; [symmetry; eapply Forall2_length; exact Himg |].
  split; [| split].
  - eapply Forall2_impl; [| exact Himg].
    intros sb pi (p0 & mem & sec & _ & ->). now exists sec.
  - clear - Himg. induction Himg as [| sb pi l imgs (p0 & mem & sec & _ & ->) _ IH];
      constructor; [| exact IH].
    cbn [fst]. unfold image_path. split.
    + reflexivity.
    + change ("images/img" ++ sec ++ ".png") with ("images/img" ++ (sec ++ ".png")).
      rewrite <- TextFacts.append_assoc. apply TextFacts.has_suffix_append.
  - rewrite forallb_app. cbn [forallb buffer_event is_reuse is_queue orb andb].
    rewrite andb_true_r. clear - Hev. induction es as [| e es IH]; [reflexivity |].
    cbn [forallb] in *. apply andb_true_iff in Hev as [He Hes].
    now rewrite He, (IH Hes).
Qed.

Lemma processRequest_writes_images_witness :
  exists es w',
    processRequest Demo.good
      (Demo.completed 0 RequestComplete 7 [3779136; 944784]%N [mkSpan 4096 3779136])
      (Demo.started Demo.good)
    = (es, Ok tt w')
    /\ List.length (written_images es) = 1.
Proof.
  destruct (processRequest_writes_images Demo.good
              (Demo.completed 0 RequestComplete 7 [3779136; 944784]%N [mkSpan 4096 3779136])
              Demo.cam0 (Demo.started Demo.good) eq_refl eq_refl)
    as (es & w' & Hrun & Hlen & _).
  exists es, w'. split; [exact Hrun | exact Hlen].
Defined.

(** C6.  For every buffer, the text [processRequest] prints starts with the
    sequence number in decimal, in a field filled with zeros on the left up
    to six characters (exactly six digits for the numbers below one million,
    all the digits of the number beyond), followed by the [bytesused] of the
    planes in decimal and in order, joined by ["/"]: one separator between
    neighbours and none after the last, [n - 1] separators for [n >= 1]
    planes.  The text of [processRequest] is made of these lines, one per
    buffer of the request, in the order of the buffer map. *)
Theorem metadata_line_format (V : Vendor) (bufferPair : Stream * FrameBuffer) (w : World) :
  let md := metadata (snd bufferPair) in
  let number := to_string_N (sequence md) in
  let field := setw_setfill 6 "0" number in
  let used := map (fun p => to_string_N (bytesused p)) (planes md) in
  (exists rest,
     stdout_text (fst (process_buffer V bufferPair w))
     = " seq: " ++ field ++ " bytesused: " ++ String.concat "/" used ++ rest)
  /\ field = replicate (6 - String.length number) "0" ++ number
  /\ decimal_value field = sequence md
  /\ map decimal_value used = map bytesused (planes md)
  /\ all_digits field = true
  /\ 6 <= String.length field
  /\ ((sequence md < 1000000)%N -> String.length field = 6)
  /\ (1 <= List.length (planes md) ->
      count_char "/" (String.concat "/" used) = List.length (planes md) - 1)
  /\ (forall request,
        forallb mapped (buffers request) = true ->
        metadata_lines V (buffers request)
          (stdout_text (fst (processRequest V request w)))).
Proof.
  destruct bufferPair as [s b]. cbn [snd]. cbv zeta.
  split; [| split; [| split; [| split; [| split; [| split; [| split; [| split]]]]]]].
  - destruct (process_buffer_text V s b w) as (sec & Htext).
    exists (configuration_text V s sec). rewrite Htext. unfold metadata_text.
    now rewrite !TextFacts.append_assoc.
  - reflexivity.
  - unfold setw_setfill.
    now rewrite TextFacts.decimal_value_zeros, TextFacts.decimal_value_to_string_N.
  - rewrite map_map. apply map_ext. intros p.
    apply TextFacts.decimal_value_to_string_N.
  - unfold setw_setfill. rewrite TextFacts.all_digits_append.
    now rewrite TextFacts.replicate_digits, TextFacts.to_string_N_digits.
  - rewrite TextFacts.setw_setfill_length. lia.
  - intros Hseq. rewrite TextFacts.setw_setfill_length.
    pose proof (TextFacts.to_string_N_length_le 5 (sequence (metadata b)) Hseq). lia.
  - intros _. rewrite TextFacts.concat_slash_count; [now rewrite length_map |].
    apply Forall_forall. intros t Ht. apply in_map_iff in Ht as (p & <- & _).
    apply TextFacts.to_string_N_digits.
  - intros request. apply processRequest_text.
Qed.

Lemma metadata_line_format_witness :
  String.length
    (setw_setfill 6 "0"
       (to_string_N (sequence (metadata (Demo.frame 10 7 [3779136; 944784; 944784]%N [])))))
  = 6
  /\ count_char "/"
       (String.concat "/"
          (map (fun p => to_string_N (bytesused p))
             (planes (metadata (Demo.frame 10 7 [3779136; 944784; 944784]%N [])))))
     = 3 - 1.
Proof.
  split.
  - apply (metadata_line_format Demo.good
             (1, Demo.frame 10 7 [3779136; 944784; 944784]%N []) Demo.initial).
    reflexivity.
  - apply (metadata_line_format Demo.good
             (1, Demo.frame 10 7 [3779136; 944784; 944784]%N []) Demo.initial).
    simpl. lia.
Defined.

(** C7.  [finish] has one return code: whenever it returns, it returns
    [EXIT_SUCCESS].  When the camera handle, the allocator, the stream and
    the manager are set, it returns, and its trace is exactly: stop the
    camera, free the buffers of the stream, delete the allocator, release
    the camera, reset the shared handle, stop the manager.  After a
    successful [start], this releases what [start] acquired: the manager it
    started, the camera it acquired, the allocator it created and the
    buffers it allocated for the stream; the handle and the allocator are
    null afterwards. *)
Theorem finish_teardown (V : Vendor) (this : nat) (w : World) :
  (snd (finish this w) = Undefined
   \/ exists w', snd (finish this w) = Ok EXIT_SUCCESS w')
  /\ (forall c a s m,
        camera w = Some c ->
        allocator (objects w this) = Some a ->
        stream (objects w this) = Some s ->
        cm (objects w this) = Some m ->
        finish this w
        = ([CameraStop c; AllocatorFree (Some s); AllocatorDelete a; Release c;
            CameraReset; CmStop],
           Ok EXIT_SUCCESS
              (set_camera None
                 (set_object this (with_allocator None (objects w this)) w))))
  /\ (forall w0 es0,
        start V this w0 = (es0, Ok EXIT_SUCCESS w) ->
        exists c a s w',
          finish this w
          = ([CameraStop c; AllocatorFree (Some s); AllocatorDelete a; Release c;
              CameraReset; CmStop],
             Ok EXIT_SUCCESS w')
          /\ In CmStart es0
          /\ In (Acquire c) es0
          /\ In (NewAllocator a) es0
          /\ (exists r, In (Allocate s r) es0)
          /\ camera w' = None
          /\ allocator (objects w' this) = None).
Proof.
  split; [apply finish_code |]. split.
  { intros c a s m Hc Ha Hs Hm. rewrite (finish_run this c a m w Hc Ha Hm).
    now rewrite Hs. }
  intros w0 es0 Hstart.
  destruct (start_success V this w0 es0 w Hstart)
    as (first & rest & config & body & Hcams & Hgen & -> & _ & _ & _ & _ & _ & _ & Hnew
        & (r0 & Hin) & Hobj & Hcam & _).
  pose proof (Hobj this) as Hthis. rewrite Nat.eqb_refl in Hthis.
  exists first, (mkAllocator (Some first)), (cfg_stream (at0 (final_config V w0 config))).
  exists (set_camera None (set_object this (with_allocator None (objects w this)) w)).
  split; [| split; [| split; [| split; [| split; [| split]]]]].
  - rewrite (finish_run this first (mkAllocator (Some first)) this w Hcam);
      now rewrite Hthis.
  - unfold configured_trace, start_prelude, start_acquired. cbv zeta.
    cbn [app]. now left.
  - unfold configured_trace, start_prelude, start_acquired. cbv zeta.
    rewrite !in_app_iff. do 3 left. right. rewrite in_app_iff. right. now left.
  - apply in_or_app. right. apply in_or_app. now left.
  - exists r0. apply in_or_app. right. apply in_or_app. now left.
  - reflexivity.
  - cbn [objects set_camera set_object]. now rewrite Nat.eqb_refl.
Qed.

Lemma finish_teardown_witness :
  finish 0 (Demo.started Demo.good)
  = ([CameraStop Demo.cam0; AllocatorFree (Some 1);
      AllocatorDelete (mkAllocator (Some Demo.cam0));
      Release Demo.cam0; CameraReset; CmStop],
     Ok EXIT_SUCCESS
        (set_camera None
           (set_object 0 (with_allocator None (objects (Demo.started Demo.good) 0))
              (Demo.started Demo.good)))).
Proof.
  apply (finish_teardown Demo.good 0 (Demo.started Demo.good)) with (m := 0);
    reflexivity.
Defined.

(** C8.  [go] has one return code: whenever it returns, it returns
    [EXIT_SUCCESS].  The result of [go] (code and final state) is the same
    whatever the loop's [exec] returns.  When the camera handle is set and
    the requests the loop processes have mapped buffers, [go] does return,
    and the last thing it does is print the exit status of the loop. *)
Theorem go_return_code (V : Vendor) (this : nat) (w : World) :
  (snd (go V this w) = Undefined \/ exists w', snd (go V this w) = Ok EXIT_SUCCESS w')
  /\ (forall f : nat -> Z, snd (go (with_exit f V) this w) = snd (go V this w))
  /\ (forall c,
        camera w = Some c ->
        forallb safe_step (v_schedule V (n_exec (calls w))) = true ->
        forallb safe_call (pending (loop w)) = true ->
        exists es w',
          go V this w
          = ((es ++ [Cout (exit_text (v_exit V (n_exec (calls w))))])%list,
             Ok EXIT_SUCCESS w')).
Proof.
  split; [apply go_code |]. split.
  - intros f. unfold go. run. 
    destruct (for_each (requests (objects w this)) queueRequest w) as [es1 [[] w1 |]];
      run; [| reflexivity].
    change (v_schedule (with_exit f V)) with (v_schedule V).
    rewrite run_steps_with_exit.
    destruct (run_steps V _ _) as [es2 [[] w2 |]]; run; reflexivity.
  - intros c Hc Hsteps Hq.
    destruct (go_run V this c w Hc Hsteps Hq) as (es & q & k & Hrun & _).
    rewrite Hrun. eexists (_ ++ _ :: es)%list, _.
    rewrite <- app_assoc. reflexivity.
Qed.

Lemma go_return_code_witness :
  exists es w',
    go Demo.good 0 (Demo.started Demo.good)
    = ((es ++ [Cout (exit_text (v_exit Demo.good
                                  (n_exec (calls (Demo.started Demo.good)))))])%list,
       Ok EXIT_SUCCESS w').
Proof.
  apply (go_return_code Demo.good 0 (Demo.started Demo.good)) with (c := Demo.cam0);
    reflexivity.
Defined.

(** C9.  While the camera handle is set, [processRequest] returns if and
    only if every buffer of the request has at least one mapped plane: the
    access [mem[0]] is then in bounds, and without a mapped plane it is
    undefined.  The image written for a buffer is built from the first
    mapped plane alone, as one channel of 8 bits, with the height and the
    width of the stream's configuration converted to [int] (the very values
    when they fit); the stride and the pixel format of the configuration
    have no part in it. *)
Theorem processRequest_reads_first_plane (V : Vendor) (request : Request)
    (c : Camera) (w : World) :
  camera w = Some c ->
  (forallb mapped (buffers request) = true
   <-> snd (processRequest V request w) <> Undefined)
  /\ (forallb mapped (buffers request) = true ->
      Forall2 (fun (sb : Stream * FrameBuffer) (pi : string * Mat) =>
                 let cfg := v_configuration V (fst sb) in
                 exists plane0,
                   nth_error (fb_mapped (snd sb)) 0 = Some plane0
                   /\ mat_data (snd pi) = data plane0
                   /\ mat_type (snd pi) = CV_8UC1
                   /\ rows (snd pi) = int_of_unsigned (height (size cfg))
                   /\ cols (snd pi) = int_of_unsigned (width (size cfg))
                   /\ ((height (size cfg) < 2 ^ 31)%N ->
                       rows (snd pi) = Z.of_N (height (size cfg)))
                   /\ ((width (size cfg) < 2 ^ 31)%N ->
                       cols (snd pi) = Z.of_N (width (size cfg))))
              (buffers request)
              (written_images (fst (processRequest V request w)))
      /\ forall V' : Vendor,
           (forall s, size (v_configuration V' s) = size (v_configuration V s)) ->
           map snd (written_images (fst (processRequest V' request w)))
           = map snd (written_images (fst (processRequest V request w)))).
Proof.
  intros Hc. split.
  - split.
    + intros Hall.
      destruct (processRequest_run V request c w Hc Hall) as (es & k & Hrun & _).
      rewrite Hrun. discriminate.
    + intros Hdef. destruct (forallb mapped (buffers request)) eqn:Hall; [reflexivity |].
      now rewrite (processRequest_undefined V request w Hall) in Hdef.
  - intros Hall.
    destruct (processRequest_run V request c w Hc Hall) as (es & k & Hrun & _ & Himg & _).
    rewrite Hrun. cbn [fst]. rewrite written_images_app. cbn [written_images].
    rewrite app_nil_r. split.
    + eapply Forall2_impl; [| exact Himg].
      intros [s b] pi (p0 & mem & sec & Hm & ->). cbn [fst snd] in *.
      exists p0. rewrite Hm. cbn [nth_error image_of mat_data mat_type rows cols].
      repeat split; try reflexivity; intros H; now apply int_of_unsigned_small.
    + intros V' Hsize.
      destruct (processRequest_run V' request c w Hc Hall)
        as (es' & k' & Hrun' & _ & Himg' & _).
      rewrite Hrun'. cbn [fst]. rewrite written_images_app. cbn [written_images].
      rewrite app_nil_r. now apply (wrote_same_images V V' (buffers request)).
Qed.

Lemma processRequest_reads_first_plane_witness :
  snd (processRequest Demo.good
         (Demo.completed 0 RequestComplete 7 [3779136]%N [mkSpan 4096 3779136])
         (Demo.started Demo.good))
  <> Undefined.
Proof.
  apply (processRequest_reads_first_plane Demo.good
           (Demo.completed 0 RequestComplete 7 [3779136]%N [mkSpan 4096 3779136])
           Demo.cam0 (Demo.started Demo.good) eq_refl).
  reflexivity.
Defined.

(** C10.  Whatever the default configuration is, the configuration [start]
    passes to the first [configure] is the generated one with the size of
    its first entry overwritten by 2592 x 1944 and nothing else changed, and
    no [configure] comes before that call.  If the call returns a nonzero
    code, [start] prints the failure and returns [EXIT_FAILURE] with no
    second call.  Otherwise [validate] follows, then a second [configure]
    with the validated configuration, and no third; the return code of the
    second call is not looked at: [start] fails from there on exactly when
    one of the later checked calls fails.  This is the form of every run of
    [start] that returns, for a vendor with a camera whose
    [generateConfiguration] gives a configuration with an entry, and in a
    state without a manager [start] does return for such a vendor.  In the
    remaining cases (no camera, or a null or empty generated configuration)
    [start] calls [configure] not at all. *)
Theorem start_configures_twice (V : Vendor) (this : nat) (w : World) :
  (v_cameras V = [] \/ start_defined V = false ->
   existsb is_configure (fst (start V this w)) = false)
  /\ forall first generated,
       hd_error (v_cameras V) = Some first ->
       generated_config V first = Some generated ->
       let requested := requested_config generated in
       let r := v_configure V (n_configure (calls w)) requested in
       let validated := v_validate V (snd r) in
       let r' := v_configure V (S (n_configure (calls w))) validated in
       size (at0 requested) = mkSize 2592 1944
       /\ stride (at0 requested) = stride (at0 generated)
       /\ pixelFormat (at0 requested) = pixelFormat (at0 generated)
       /\ cfg_stream (at0 requested) = cfg_stream (at0 generated)
       /\ others requested = others generated
       /\ existsb is_configure (start_prelude V first generated) = false
       /\ (forall es code w',
             start V this w = (es, Ok code w') ->
             (fst r <> 0%Z ->
              code = EXIT_FAILURE
              /\ es = (start_prelude V first generated
                       ++ [Configure first requested (fst r);
                           Cout ("CONFIGURATION FAILED!" ++ endl)])%list)
             /\ (fst r = 0%Z ->
                 exists later,
                   es = (start_prelude V first generated
                         ++ [Configure first requested (fst r);
                             Validate (snd r);
                             Cout ("Validated viewfinder configuration is: "
                                     ++ v_toString V (at0 validated) ++ endl);
                             Configure first validated (fst r')]
                         ++ later)%list
                   /\ existsb is_configure later = false
                   /\ (code = EXIT_FAILURE <-> existsb late_failure later = true)
                   /\ (code = EXIT_FAILURE <-> late_checks_fail V w generated = true)))
       /\ (no_manager w -> exists es code w', start V this w = (es, Ok code w')).
Proof.
  split.
  { intros [Hcams | Hdef].
    - destruct (start_run V this w) as (es & code & w' & Hrun & HR).
      { unfold start_defined. now rewrite Hcams. }
      rewrite Hrun. cbn [fst].
      destruct HR as [_ | ? ? ? ? Hc | ? ? ? ? ? ? ? Hc | ? ? ? ? ? Hc];
        [reflexivity | | |]; rewrite Hcams in Hc; discriminate Hc.
    - unfold start_defined in Hdef.
      destruct (v_cameras V) as [| first rest] eqn:Hcams; [discriminate Hdef |].
      destruct (generated_config V first) as [config |] eqn:Hgen; [discriminate Hdef |].
      rewrite (start_undefined V this w first rest Hcams Hgen). cbn [fst].
      apply acquired_no_configure. }
  intros first generated Hfirst Hgen requested r validated r'.
  destruct (v_cameras V) as [| first0 rest] eqn:Hcams; [discriminate Hfirst |].
  injection Hfirst as ->.
  destruct (prelude_facts V first generated) as (Hp1 & _).
  do 5 (split; [reflexivity |]). split; [exact Hp1 |]. split.
  2:{ intros _. destruct (start_run V this w) as (es & code & w' & Hrun & _).
      { unfold start_defined. now rewrite Hcams, Hgen. }
      now exists es, code, w'. }
  intros es code w' Hrun.
  destruct (start_returns V this w es code w' Hrun) as (_ & HR).
  destruct HR as [Hc
                 | first0 rest0 config0 w' Hc Hg r0 Hr
                 | first0 rest0 config0 pre e m w' Hc Hg r0 Hr Hlate Hpre1 Hpre2 He
                 | first0 rest0 config0 body w' Hc Hg r0 validated0 r0' Hr Hlate Hb1 Hb2
                     _ _ _ _ _ _ _];
    [rewrite Hcams in Hc; discriminate Hc | | |];
    rewrite Hcams in Hc; injection Hc as <- <-;
    rewrite Hgen in Hg; injection Hg as <-; subst r0.
  - split; [intros _; now split | intros H0; now destruct Hr].
  - split; [intros H0; now destruct H0 |]. intros _.
    exists (pre ++ [e; Cerr m])%list.
    split; [unfold configured_trace; cbv zeta; now rewrite <- app_assoc |]. split.
    + rewrite existsb_app, Hpre1. cbn [existsb is_configure orb].
      now rewrite (late_failure_is_configure e He).
    + split; [split; [intros _ | reflexivity] | split; [intros _; exact Hlate | reflexivity]].
      rewrite existsb_app. cbn [existsb]. rewrite He. now rewrite orb_true_r.
  - split; [intros H0; now destruct H0 |]. intros _.
    exists (body ++ [Connect first; CameraStart first])%list.
    split; [unfold configured_trace; cbv zeta; now rewrite <- app_assoc |]. split.
    + now rewrite existsb_app, Hb1.
    + rewrite existsb_app, Hb2, Hlate. split; split; discriminate.
Qed.

Lemma start_configures_twice_witness :
  exists es w',
    start Demo.second_configure_fails 0 Demo.initial = (es, Ok EXIT_SUCCESS w')
    /\ In (Configure Demo.cam0
             (v_validate Demo.second_configure_fails
                (snd (v_configure Demo.second_configure_fails 0
                        (requested_config Demo.default_config))))
             (-22)) es.
Proof.
  destruct (start_configures_twice Demo.second_configure_fails 0 Demo.initial)
    as (_ & Hform).
  destruct (Hform Demo.cam0 Demo.default_config eq_refl eq_refl)
    as (_ & _ & _ & _ & _ & _ & Hruns & Hreturns).
  destruct (Hreturns (fun p => eq_refl)) as (es & code & w' & Hrun).
  destruct (Hruns es code w' Hrun) as (_ & Hok).
  destruct (Hok eq_refl) as (later & Hes & _ & _ & Hcode).
  assert (Hsuccess : code = EXIT_SUCCESS).
  { apply (f_equal (fun p => returned (snd p))) in Hrun.
    vm_compute in Hrun. now injection Hrun as <-. }
  subst code. exists es, w'. split; [exact Hrun |].
  rewrite Hes. apply in_or_app. right. apply in_or_app. left.
  right. right. right. left. reflexivity.
Defined.

(* ------------------------------------------------------------------------- *)
(** ** Further properties of [start] *)
(* ------------------------------------------------------------------------- *)



(** X2.  When [start] succeeds, it has called [allocate] once for every
    stream of the configuration, in the order of the configuration and
    before any request was created, and has printed the number of buffers
    of each; the stream it keeps for the requests is the first of them. *)
Theorem start_allocates_every_stream (V : Vendor) (this : nat) (w : World)
    (es : list Event) (w' : World) :
  start V this w = (es, Ok EXIT_SUCCESS w') ->
  exists first generated config pre post,
    hd_error (v_cameras V) = Some first
    /\ generated_config V first = Some generated
    /\ config = final_config V w generated
    /\ allocated_streams es = map cfg_stream (entries config)
    /\ stream (objects w' this) = hd_error (allocated_streams es)
    /\ es = (pre ++ post)%list
    /\ allocated_streams post = []
    /\ created_requests pre = []
    /\ stdout_text pre
       = stdout_text (setup_trace V w first generated)
         ++ String.concat ""
              (map (fun cfg => "Allocated "
                                 ++ to_string_N (N.of_nat (List.length (v_buffers V (cfg_stream cfg))))
                                 ++ " buffers for stream" ++ endl)
                   (entries config)).
Proof.
  intros H.
  destruct (start_success_loops V this w es w' H)
    as (first & rest & generated & esA & esR & w1 & wA & w2 & Hcams & Hgen & Hloops).
  cbv zeta in Hloops. destruct Hloops as (Hr & HA & HR & Hreq & Hs & Hcam & ->).
  destruct (setup_trace_facts V w first generated) as (S1 & S2 & S3 & S4 & S5).
  destruct (allocate_streams_trace V this _ _ _ _ HA) as (A0 & A1 & _ & _ & _ & A5).
  destruct (create_requests_trace V this _ _ _ _ _ HR) as (_ & _ & _ & _ & R5).
  match type of HR with for_each_return ?l (create_request _ _ ?s) _ = _ =>
    destruct (create_requests_run V this s first l w2 Hcam)
      as (es0 & r0 & w0 & Hrun0 & _ & Hcases) end.
  rewrite HR in Hrun0. injection Hrun0 as <- <- <-.
  destruct Hcases as [(_ & _ & _ & _ & Hobj) | [Hbad _]]; [| discriminate Hbad].
  specialize (Hobj this). rewrite Nat.eqb_refl in Hobj.
  eexists first, generated, _, (setup_trace V w first generated ++ esA)%list,
    (esR ++ [Connect first; CameraStart first])%list.
  rewrite Hcams. split; [reflexivity |]. split; [exact Hgen |]. split; [reflexivity |].
  assert (Hall : allocated_streams (setup_trace V w first generated ++ esA ++ esR
                                    ++ [Connect first; CameraStart first])
                 = allocated_streams esA).
  { unfold allocated_streams in *. rewrite !flat_map_app, S5, R5. cbn [flat_map app].
    now rewrite app_nil_r. }
  rewrite Hall, A0.
  split; [reflexivity |]. split; [| split; [| split; [| split]]].
  - rewrite Hobj. unfold with_requests. cbn [stream]. rewrite Hs.
    unfold entries. reflexivity.
  - now rewrite <- app_assoc.
  - unfold allocated_streams in *. rewrite flat_map_app, R5. reflexivity.
  - now rewrite created_requests_app, S1, A1.
  - now rewrite stdout_text_app, A5.
Qed.

Lemma start_allocates_every_stream_witness :
  allocated_streams (fst (start Demo.good 0 Demo.initial)) = [1]
  /\ stream (objects (Demo.started Demo.good) 0) = Some 1.
Proof.
  assert (Hrun : start Demo.good 0 Demo.initial
                 = (fst (start Demo.good 0 Demo.initial),
                    Ok EXIT_SUCCESS (Demo.started Demo.good)))
    by (vm_compute; reflexivity).
  destruct (start_allocates_every_stream Demo.good 0 Demo.initial _ _ Hrun)
    as (first & generated & config & pre & post & H1 & Hgen & H2 & H3 & H4 & _).
  injection H1 as <-. injection Hgen as <-. rewrite H4, H3, H2. split; reflexivity.
Defined.

(** X3.  Whenever [start] returns, whatever its return code, it has only
    appended to [requests]: the requests it leaves there are the ones from
    before, followed by the requests whose [addBuffer] succeeded, in that
    order.  A request whose [addBuffer] failed is not kept, and a failing
    [start] takes none of the requests it has kept out again. *)
Theorem start_keeps_attached_requests (V : Vendor) (this : nat) (w : World)
    (es : list Event) (code : Z) (w' : World) :
  start V this w = (es, Ok code w') ->
  requests (objects w' this) = (requests (objects w this) ++ kept_requests es)%list.
Proof.
  intros Hrun. rewrite (start_tracks V this _ _ _ _ Hrun). apply keep_request_fold.
Qed.

Lemma start_keeps_attached_requests_witness :
  requests (objects (state_after (start Demo.createRequest_fails 0 Demo.initial)
                                 Demo.initial) 0)
  = [Demo.request 0].
Proof.
  assert (Hrun : start Demo.createRequest_fails 0 Demo.initial
                 = (fst (start Demo.createRequest_fails 0 Demo.initial),
                    Ok EXIT_FAILURE
                       (state_after (start Demo.createRequest_fails 0 Demo.initial)
                                    Demo.initial)))
    by (vm_compute; reflexivity).
  rewrite (start_keeps_attached_requests Demo.createRequest_fails 0 Demo.initial _ _ _ Hrun).
  vm_compute. reflexivity.
Defined.

(** X4.  When there is a camera, [start] acquires the first one and, on
    every path, the failing ones included, undoes nothing of what it has
    done: its trace holds no [stop], [free], [release] or [reset], no stop
    of the manager and no deletion of the allocator, and it queues no
    request. *)
Theorem start_never_releases (V : Vendor) (this : nat) (w : World)
    (first : Camera) (rest : list Camera) :
  v_cameras V = first :: rest ->
  let es := fst (start V this w) in
  In (Acquire first) es
  /\ phases_up_to 6 es = true
  /\ forall e, In e es ->
       match e with
       | QueueRequest _ _ | CameraStop _ | AllocatorFree _ | AllocatorDelete _
       | Release _ | CameraReset | CmStop => False
       | _ => True
       end.
Proof.
  intros Hcams es.
  assert (Hup : forallb (up_to_phase 6) es = true).
  { apply start_emits. now rewrite Hcams. }
  split; [| split].
  - subst es.
    assert (Hacq : In (Acquire first) (start_acquired V first)).
    { unfold start_acquired. right. apply in_or_app. right. now left. }
    destruct (generated_config V first) as [config |] eqn:Hgen.
    2:{ now rewrite (start_undefined V this w first rest Hcams Hgen). }
    destruct (start_run V this w) as (es & code & w' & Hrun & HR).
    { unfold start_defined. now rewrite Hcams, Hgen. }
    rewrite Hrun. cbn [fst].
    assert (Hpre : forall config, In (Acquire first) (start_prelude V first config)).
    { intros config0. apply in_or_app. now left. }
    inversion HR as [Hc | f r0 c0 w1 Hc | f r0 c0 pre e m w1 Hc | f r0 c0 body w1 Hc];
      rewrite Hcams in Hc; [discriminate Hc | | |]; injection Hc as <- <-.
    + apply in_or_app. left. apply Hpre.
    + unfold configured_trace. apply in_or_app. left. apply in_or_app. left. apply Hpre.
    + unfold configured_trace. apply in_or_app. left. apply in_or_app. left. apply Hpre.
  - exact Hup.
  - intros e He. rewrite forallb_forall in Hup. specialize (Hup e He).
    destruct e; try exact I; discriminate Hup.
Qed.

Lemma start_never_releases_witness :
  In (Acquire Demo.cam0) (fst (start Demo.addBuffer_fails 0 Demo.initial))
  /\ ~ In (Release Demo.cam0) (fst (start Demo.addBuffer_fails 0 Demo.initial))
  /\ returned (snd (start Demo.addBuffer_fails 0 Demo.initial)) = Some EXIT_FAILURE.
Proof.
  destruct (start_never_releases Demo.addBuffer_fails 0 Demo.initial Demo.cam0 [] eq_refl)
    as (H1 & _ & H3).
  split; [exact H1 |]. split; [| vm_compute; reflexivity].
  intros Hin. exact (H3 _ Hin).
Defined.

(* ------------------------------------------------------------------------- *)
(** ** Camera names, and the running of the capture *)
(* ------------------------------------------------------------------------- *)

Module MoreText.

Lemma append_inj_l (s t u : string) : s ++ t = s ++ u -> t = u.
Proof.
  induction s as [| c s IH]; cbn [String.append]; intros H; [exact H |].
  injection H as H. now apply IH.
Qed.

Lemma append_inj_r (s : string) : forall t u : string, t ++ s = u ++ s -> t = u.
Proof.
  induction t as [| c t IH]; intros [| d u] H; cbn [String.append] in H.
  - reflexivity.
  - apply (f_equal String.length) in H. cbn [String.length] in H.
    rewrite TextFacts.length_append in H. lia.
  - apply (f_equal String.length) in H. cbn [String.length] in H.
    rewrite TextFacts.length_append in H. lia.
  - injection H as -> H. now rewrite (IH u H).
Qed.

Lemma concat_empty_cons (s : string) (l : list string) :
  String.concat "" (s :: l) = s ++ String.concat "" l.
Proof. destruct l; [now rewrite TextFacts.append_nil_r | reflexivity]. Qed.

End MoreText.

Lemma stdout_text_cout {A : Type} (f : A -> string) (l : list A) :
  stdout_text (map (fun x => Cout (f x)) l) = String.concat "" (map f l).
Proof.
  induction l as [| x l IH]; [reflexivity |].
  cbn [map stdout_text]. now rewrite MoreText.concat_empty_cons, IH.
Qed.

(** X5.  The name [cameraName] gives a camera ends with the id of the camera
    in parentheses, and it tells apart the cameras of one location and
    model: two of them have the same name only if they have the same id.
    The model is part of the name of an external camera only. *)
Theorem cameraName_identifies_camera (c1 c2 : Camera) :
  has_suffix (" (" ++ cam_id c1 ++ ")") (cameraName c1) = true
  /\ (cam_location c1 = cam_location c2 ->
      cam_model c1 = cam_model c2 ->
      cameraName c1 = cameraName c2 ->
      cam_id c1 = cam_id c2)
  /\ (cam_location c1 <> CameraLocationExternal ->
      cam_location c1 = cam_location c2 ->
      cam_id c1 = cam_id c2 ->
      cameraName c1 = cameraName c2).
Proof.
  split; [| split].
  - unfold cameraName. cbv zeta. apply TextFacts.has_suffix_append.
  - unfold cameraName. cbv zeta. intros <- <- H.
    apply MoreText.append_inj_l in H.
    apply (MoreText.append_inj_l " (") in H.
    now apply MoreText.append_inj_r in H.
  - unfold cameraName. cbv zeta. intros Hloc <- <-.
    destruct (cam_location c1 =? CameraLocationExternal)%Z eqn:E; [| reflexivity].
    apply Z.eqb_eq in E. contradiction.
Qed.

Lemma cameraName_identifies_camera_witness :
  cameraName Demo.cam0
  = cameraName (mkCamera "imx219" CameraLocationBack (Some "Raspberry Pi") [] []).
Proof.
  destruct (cameraName_identifies_camera Demo.cam0
              (mkCamera "imx219" CameraLocationBack (Some "Raspberry Pi") [] []))
    as (_ & _ & H).
  apply H; [discriminate | reflexivity | reflexivity].
Defined.

(** X6.  The first thing [start] prints is the list of the cameras: one
    line per camera of the manager, in order, made of [" - "] and the name
    [cameraName] gives it.  This comes before anything else is printed on
    [std::cout], whether [start] then succeeds or fails. *)
Theorem start_lists_cameras (V : Vendor) (this : nat) (w : World) :
  exists rest,
    stdout_text (fst (start V this w))
    = String.concat "" (map (fun c => " - " ++ cameraName c ++ endl) (v_cameras V)) ++ rest.
Proof.
  assert (Hacq : forall c tl,
    stdout_text (start_acquired V c ++ tl)
    = String.concat "" (map (fun c => " - " ++ cameraName c ++ endl) (v_cameras V))
      ++ stdout_text tl).
  { intros c tl. unfold start_acquired. cbn [app stdout_text].
    rewrite <- app_assoc, stdout_text_app, stdout_text_cout. reflexivity. }
  destruct (start_defined V) eqn:Hdef.
  - destruct (start_run V this w Hdef) as (es & code & w' & Hrun & HR).
    rewrite Hrun. cbn [fst].
    inversion HR as [Hc | f r0 c0 w1 Hc | f r0 c0 pre e m w1 Hc | f r0 c0 body w1 Hc].
    + rewrite Hc. eexists. reflexivity.
    + unfold start_prelude. rewrite <- !app_assoc, Hacq. eexists. reflexivity.
    + unfold configured_trace, start_prelude. cbv zeta.
      rewrite <- !app_assoc, Hacq. eexists. reflexivity.
    + unfold configured_trace, start_prelude. cbv zeta.
      rewrite <- !app_assoc, Hacq. eexists. reflexivity.
  - unfold start_defined in Hdef.
    destruct (v_cameras V) as [| first rest] eqn:Hcams; [discriminate Hdef |].
    destruct (generated_config V first) eqn:Hgen; [discriminate Hdef |].
    rewrite (start_undefined V this w first rest Hcams Hgen). cbn [fst].
    rewrite <- (app_nil_r (start_acquired V first)), Hacq.
    eexists. reflexivity.
Qed.

(** X7.  Every vendor call [go] makes belongs to the running of the capture:
    queueing a request, the time-out, a completion, [callLater], the
    mapping of a buffer, [cv::imwrite] and [reuse].  Whatever the state
    and whatever the loop delivers, also when the run ends undefined, [go]
    and [processRequest] never configure, allocate, create a request,
    stop, free or release. *)
Theorem go_only_runs (V : Vendor) (this : nat) (request : Request) (w : World) :
  single_phase 7 (fst (go V this w)) = true
  /\ single_phase 7 (fst (processRequest V request w)) = true.
Proof.
  split; [apply (go_emits V this w) | apply (processRequest_emits V request w)].
Qed.

(** X8.  When [go] returns, the camera handle and the members of every
    [SimpleCam] are as they were before: the loop and the callbacks change
    neither.  In particular [requests] still holds the requests, and
    calling [go] again queues each of them to the camera once more. *)
Theorem go_keeps_members (V : Vendor) (this : nat) (w : World) (es : list Event)
    (code : Z) (w' : World) :
  go V this w = (es, Ok code w') ->
  camera w' = camera w
  /\ (forall p, objects w' p = objects w p)
  /\ forall c, camera w = Some c ->
       exists rest,
         fst (go V this w')
         = (map (QueueRequest c) (requests (objects w this))
            ++ LoopTimeout TIMEOUT_SEC :: rest)%list.
Proof.
  intros H.
  assert (Hcam : camera w' = camera w).
  { now apply (keeps_spec camera _ _ _ _ _ (go_keeps V camera this
                 (fun _ _ => eq_refl) (fun _ _ => eq_refl)) H). }
  assert (Hobj : forall p, objects w' p = objects w p).
  { intros p.
    now apply (keeps_spec (fun w => objects w p) _ _ _ _ _
                 (go_keeps V (fun w => objects w p) this
                    (fun _ _ => eq_refl) (fun _ _ => eq_refl)) H). }
  split; [exact Hcam |]. split; [exact Hobj |].
  intros c Hc. rewrite <- Hcam in Hc. unfold go. run.
  rewrite (queue_requests_run c _ w' Hc), Hobj. run.
  destruct (run_steps V _ _) as [es2 [[] w2 |]]; run; eexists; reflexivity.
Qed.

Lemma go_keeps_members_witness :
  requests (objects (state_after (go Demo.good 0 (Demo.started Demo.good)) Demo.initial) 0)
  = [Demo.request 0; Demo.request 1].
Proof.
  assert (Hrun : go Demo.good 0 (Demo.started Demo.good)
                 = (fst (go Demo.good 0 (Demo.started Demo.good)),
                    Ok EXIT_SUCCESS
                       (state_after (go Demo.good 0 (Demo.started Demo.good)) Demo.initial)))
    by (vm_compute; reflexivity).
  destruct (go_keeps_members Demo.good 0 (Demo.started Demo.good) _ _ _ Hrun)
    as (_ & Hobj & _).
  rewrite Hobj. vm_compute. reflexivity.
Defined.

(* ------------------------------------------------------------------------- *)
(** ** Further properties of [processRequest] *)
(* ------------------------------------------------------------------------- *)

Lemma for_each_app {A : Type} (body : A -> M unit) (l1 l2 : list A) (w : World) :
  for_each (l1 ++ l2) body w = (for_each l1 body ;; for_each l2 body) w.
Proof.
  revert w. induction l1 as [| x l1 IH]; intros w.
  - cbn [app for_each]. run. destruct (for_each l2 body w) as [es r]. reflexivity.
  - cbn [app for_each]. run. destruct (body x w) as [es1 [[] w1 |]]; [| reflexivity].
    rewrite IH. run. destruct (for_each l1 body w1) as [es2 [[] w2 |]].
    + destruct (for_each l2 body w2) as [es3 r3]. now rewrite app_assoc.
    + reflexivity.
Qed.

Lemma combine_seq_shift {A : Type} (l : list A) : forall a n : nat,
  combine (seq (S a) n) l = map (fun p => (S (fst p), snd p)) (combine (seq a n) l).
Proof.
  induction l as [| x l IH]; intros a [| n]; cbn [seq combine map]; try reflexivity.
  now rewrite IH.
Qed.

Lemma clock_advanced_bump (n : nat) (k : Calls) :
  clock_advanced n (bump_clock (bump_clock k)) = clock_advanced (S (S n)) k.
Proof. unfold clock_advanced, bump_clock. cbn [n_clock n_configure n_allocate
  n_createRequest n_addBuffer n_exec]. f_equal. lia. Qed.

Section Clock.

Variable V : Vendor.

(** The loop over the buffers, with the clock readings it uses. *)
Lemma process_buffers_clock (l : list (Stream * FrameBuffer)) : forall w : World,
  forallb mapped l = true ->
  exists es,
    for_each l (process_buffer V) w
    = (es, Ok tt (set_calls (clock_advanced (2 * List.length l) (calls w)) w))
    /\ forallb buffer_event es = true
    /\ map fst (written_images es)
       = map (fun i => image_path (v_seconds_to_string V
                                     (v_clock V (path_reading (n_clock (calls w)) i))))
             (seq 0 (List.length l))
    /\ stdout_text es
       = String.concat ""
           (map (buffer_line V (n_clock (calls w))) (combine (seq 0 (List.length l)) l)).
Proof.
  induction l as [| [s b] l IH]; intros w Hall.
  - exists []. split; [| repeat split].
    destruct w as [c lp o [k1 k2 k3 k4 k5 k6]]. reflexivity.
  - cbn [forallb] in Hall. apply andb_true_iff in Hall as [Hb Hl].
    destruct (process_buffer_run V s b w) as (pl & Hpl & Htext & Hrun).
    cbv zeta in Hrun. unfold mapped in Hb. cbn [snd] in Hb.
    destruct (fb_mapped b) as [| plane0 mem] eqn:Hmem; [discriminate |].
    destruct (IH (set_calls (bump_clock (bump_clock (calls w))) w) Hl)
      as (es & Hes & Hev & Hpaths & Hlines).
    cbn [calls set_calls] in Hes, Hpaths, Hlines.
    cbn [for_each]. run_with Hrun. run_with Hes.
    eexists. split; [| split; [| split]].
    + rewrite clock_advanced_bump. cbn [List.length].
      replace (2 * S (List.length l)) with (S (S (2 * List.length l))) by lia.
      reflexivity.
    + cbn [forallb buffer_event]. rewrite !forallb_app. cbn [forallb buffer_event].
      now rewrite (cout_buffer_events _ Hpl), Hev.
    + cbn [written_images]. rewrite !written_images_app. cbn [written_images].
      rewrite (cout_no_images _ Hpl). cbn [app map fst List.length seq].
      f_equal.
      * unfold path_reading. now rewrite Nat.mul_0_r, Nat.add_0_r.
      * rewrite Hpaths, <- seq_shift, map_map. apply map_ext. intros i.
        unfold path_reading, bump_clock. cbn [n_clock]. do 3 f_equal. lia.
    + cbn [List.length seq combine map]. rewrite MoreText.concat_empty_cons.
      rewrite app_comm_cons, stdout_text_app, Hlines.
      f_equal.
      * rewrite app_comm_cons, stdout_text_app. cbn [stdout_text].
        rewrite stdout_text_app. cbn [stdout_text]. rewrite Htext.
        unfold buffer_line, metadata_text, printed_reading. cbn [fst snd].
        rewrite Nat.mul_0_r, Nat.add_0_r.
        rewrite ?TextFacts.append_assoc, ?TextFacts.append_nil_r. reflexivity.
      * f_equal. rewrite combine_seq_shift, map_map. apply map_ext. intros [i sb].
        unfold buffer_line, printed_reading, bump_clock. cbn [fst snd n_clock].
        do 4 f_equal. lia.
Qed.

End Clock.

Lemma image_path_inj (s t : string) : image_path s = image_path t -> s = t.
Proof.
  unfold image_path. intros H. apply MoreText.append_inj_l in H.
  now apply MoreText.append_inj_r in H.
Qed.

Lemma NoDup_map_inj {A B : Type} (f : A -> B) (l : list A) :
  (forall x y, f x = f y -> x = y) -> NoDup (map f l) <-> NoDup l.
Proof.
  intros Hf. split; [apply NoDup_map_inv |].
  induction 1 as [| x l Hx Hl IH]; cbn [map]; constructor; [| exact IH].
  rewrite in_map_iff. intros (y & Hy & Hin). apply Hf in Hy. now subst y.
Qed.

(** X9.  [processRequest] reads the clock twice for every buffer: the first
    reading is the time printed in the line of the buffer, the second one,
    taken after the buffer is mapped, is the time in the name of the file.
    For a request of [n] mapped buffers processed while the handle is set,
    the clock has been read [2 n] times when [processRequest] returns, and
    nothing else of the state has changed; the printed text and the paths
    are the ones of these readings, buffer by buffer. *)
Theorem processRequest_clock_readings (V : Vendor) (request : Request) (c : Camera)
    (w : World) :
  camera w = Some c ->
  forallb mapped (buffers request) = true ->
  let n := List.length (buffers request) in
  let k := n_clock (calls w) in
  exists es,
    processRequest V request w
    = ((es ++ [Reuse request ReuseBuffers; QueueRequest c request])%list,
       Ok tt (set_calls (clock_advanced (2 * n) (calls w)) w))
    /\ map fst (written_images es)
       = map (fun i => image_path (v_seconds_to_string V (v_clock V (path_reading k i))))
             (seq 0 n)
    /\ stdout_text es
       = String.concat "" (map (buffer_line V k) (combine (seq 0 n) (buffers request))).
Proof.
  intros Hcam Hall n k.
  destruct (process_buffers_clock V (buffers request) w Hall) as (es & Hes & _ & Hp & Ht).
  exists es. split; [| split; assumption].
  unfold processRequest. run_with Hes. rewrite Hcam. reflexivity.
Qed.

Lemma processRequest_clock_readings_witness :
  map fst (written_images (fst (processRequest Demo.good Samples.two_buffers
                                  (Demo.started Demo.good))))
  = ["images/img0.250000.png"; "images/img0.750000.png"]
  /\ n_clock (calls (state_after (processRequest Demo.good Samples.two_buffers
                                    (Demo.started Demo.good)) Demo.initial)) = 4.
Proof.
  assert (Hcam : camera (Demo.started Demo.good) = Some Demo.cam0)
    by (vm_compute; reflexivity).
  destruct (processRequest_clock_readings Demo.good Samples.two_buffers Demo.cam0
              (Demo.started Demo.good) Hcam eq_refl)
    as (es & Hrun & Hpaths & _).
  unfold state_after. rewrite Hrun. cbn [fst snd].
  rewrite !written_images_app. cbn [written_images]. rewrite app_nil_r, Hpaths.
  split; vm_compute; reflexivity.
Defined.

(** X10.  Two buffers of a request are written to the same file exactly
    when the time stamps of their files have the same text: the paths
    [processRequest] writes are pairwise different if and only if the texts
    of its second clock readings are. *)
Theorem processRequest_distinct_files (V : Vendor) (request : Request) (c : Camera)
    (w : World) :
  camera w = Some c ->
  forallb mapped (buffers request) = true ->
  NoDup (map fst (written_images (fst (processRequest V request w))))
  <-> NoDup (map (fun i => v_seconds_to_string V
                             (v_clock V (path_reading (n_clock (calls w)) i)))
                 (seq 0 (List.length (buffers request)))).
Proof.
  intros Hcam Hall.
  destruct (process_buffers_clock V (buffers request) w Hall) as (es & Hes & _ & Hp & _).
  unfold processRequest. run_with Hes. rewrite Hcam. run.
  rewrite written_images_app. cbn [written_images]. rewrite app_nil_r, Hp.
  rewrite <- (map_map (fun i => v_seconds_to_string V
                                  (v_clock V (path_reading (n_clock (calls w)) i)))
                      image_path).
  apply NoDup_map_inj. exact image_path_inj.
Qed.

Lemma processRequest_distinct_files_witness :
  NoDup (map fst (written_images (fst (processRequest Demo.good Samples.two_buffers
                                         (Demo.started Demo.good))))).
Proof.
  assert (Hcam : camera (Demo.started Demo.good) = Some Demo.cam0)
    by (vm_compute; reflexivity).
  apply (processRequest_distinct_files Demo.good Samples.two_buffers Demo.cam0
           (Demo.started Demo.good) Hcam eq_refl).
  vm_compute. repeat constructor; cbn [In]; intuition discriminate.
Defined.

(** X11.  With a null camera handle, [processRequest] still handles every
    buffer of a request whose buffers are mapped: it prints their lines,
    writes one image per buffer and calls [reuse] on the request.  The
    [queueRequest] that follows goes through the null handle: the request
    is not queued, and the behaviour is undefined from there. *)
Theorem processRequest_null_camera (V : Vendor) (request : Request) (w : World) :
  camera w = None ->
  forallb mapped (buffers request) = true ->
  exists es,
    processRequest V request w = ((es ++ [Reuse request ReuseBuffers])%list, Undefined)
    /\ forallb buffer_event es = true
    /\ List.length (written_images es) = List.length (buffers request).
Proof.
  intros Hcam Hall.
  destruct (process_buffers_run V (buffers request) w Hall) as (es & k & Hes & Hev & Himg & _).
  exists es. split; [| split; [exact Hev |]].
  - unfold processRequest. run_with Hes. rewrite Hcam. reflexivity.
  - symmetry. apply (Forall2_length Himg).
Qed.

Lemma processRequest_null_camera_witness :
  exists es,
    processRequest Demo.good Samples.two_buffers Demo.initial
    = ((es ++ [Reuse Samples.two_buffers ReuseBuffers])%list, Undefined)
    /\ List.length (written_images es) = 2.
Proof.
  destruct (processRequest_null_camera Demo.good Samples.two_buffers Demo.initial
              eq_refl eq_refl)
    as (es & Hrun & _ & Hlen).
  exists es. split; [exact Hrun | exact Hlen].
Defined.

(** X12.  When a buffer of the request has no mapped plane, [processRequest]
    has handled the buffers before it, one image each, has printed the line
    of that buffer and has mapped it; the access to the first plane is
    undefined, so nothing follows: no image for this buffer or a later
    one, no [reuse] and no requeue of the request. *)
Theorem processRequest_unmapped_buffer (V : Vendor) (request : Request) (w : World)
    (l1 l2 : list (Stream * FrameBuffer)) (sb : Stream * FrameBuffer) :
  buffers request = (l1 ++ sb :: l2)%list ->
  forallb mapped l1 = true ->
  mapped sb = false ->
  exists es,
    processRequest V request w = ((es ++ [MapBuffer (snd sb)])%list, Undefined)
    /\ forallb buffer_event es = true
    /\ List.length (written_images es) = List.length l1
    /\ exists text, stdout_text es = text ++ metadata_text (snd sb)
                                      ++ configuration_text V (fst sb)
                                           (v_seconds_cout V
                                              (v_clock V (n_clock (calls w)
                                                          + 2 * List.length l1))).
Proof.
  intros Hbuf H1 Hsb.
  destruct (process_buffers_clock V l1 w H1) as (es1 & Hes1 & Hev1 & Hp1 & _).
  destruct sb as [s b].
  destruct (process_buffer_run V s b
              (set_calls (clock_advanced (2 * List.length l1) (calls w)) w))
    as (pl & Hpl & Htext & Hrun).
  cbv zeta in Hrun. unfold mapped in Hsb. cbn [snd] in Hsb.
  destruct (fb_mapped b) as [| plane0 mem]; [| discriminate Hsb].
  cbn [calls set_calls clock_advanced n_clock] in Hrun.
  eexists (es1 ++ Cout _ :: pl ++ [Cout _])%list.
  split; [| split; [| split]].
  - unfold processRequest. run. rewrite Hbuf, for_each_app. run_with Hes1.
    cbn [for_each]. run_with Hrun. cbn [fst snd].
    rewrite <- !app_assoc. cbn [app]. rewrite <- !app_assoc. reflexivity.
  - rewrite forallb_app, Hev1. cbn [forallb buffer_event andb].
    rewrite forallb_app, (cout_buffer_events _ Hpl). reflexivity.
  - rewrite written_images_app. cbn [written_images]. rewrite written_images_app.
    rewrite (cout_no_images _ Hpl). cbn [written_images app]. rewrite app_nil_r.
    rewrite <- (length_map fst), Hp1, length_map. apply length_seq.
  - exists (stdout_text es1). rewrite stdout_text_app. f_equal.
    cbn [stdout_text]. rewrite stdout_text_app. cbn [stdout_text]. rewrite Htext.
    unfold metadata_text. cbn [fst snd].
    rewrite ?TextFacts.append_assoc, ?TextFacts.append_nil_r.
    replace (2 * List.length l1 + n_clock (calls w))
      with (n_clock (calls w) + 2 * List.length l1) by lia.
    reflexivity.
Qed.

Lemma processRequest_unmapped_buffer_witness :
  exists es,
    processRequest Demo.good Samples.second_unmapped (Demo.started Demo.good)
    = ((es ++ [MapBuffer (Demo.frame 11 4 [100]%N [])])%list, Undefined)
    /\ List.length (written_images es) = 1.
Proof.
  destruct (processRequest_unmapped_buffer Demo.good Samples.second_unmapped
              (Demo.started Demo.good)
              [(1, Demo.frame 10 3 [100; 50]%N [mkSpan 4096 100])] []
              (2, Demo.frame 11 4 [100]%N []) eq_refl eq_refl eq_refl)
    as (es & Hrun & _ & Hlen & _).
  exists es. split; [exact Hrun | exact Hlen].
Defined.

(* ------------------------------------------------------------------------- *)
(** ** [finish], and what follows it *)
(* ------------------------------------------------------------------------- *)

Lemma finish_keeps (this p : nat) :
  keeps (fun w => (requests (objects w p), stream (objects w p), cm (objects w p)))
        (finish this).
Proof.
  unfold finish. tracks_all.
  intros w. cbn [objects set_object]. destruct (Nat.eqb_spec p this) as [-> |]; reflexivity.
Qed.

(** What [finish] leaves when it returns. *)
Lemma finish_returns (this : nat) (w : World) (es : list Event) (code : Z) (w' : World) :
  finish this w = (es, Ok code w') ->
  camera w' = None /\ allocator (objects w' this) = None
  /\ exists c, camera w = Some c.
Proof.
  intros H. unfold finish in H. run_in H.
  destruct (camera w) as [c |] eqn:Hc; run_in H; [| discriminate].
  destruct (allocator (objects w this)) as [a |] eqn:Ha; run_in H; [| discriminate].
  rewrite Ha in H. run_in H. rewrite Hc in H. run_in H.
  rewrite Nat.eqb_refl in H. cbn [cm with_allocator] in H.
  destruct (cm (objects w this)); run_in H; [| discriminate].
  inversion H. cbn [camera objects set_camera set_object]. rewrite Nat.eqb_refl.
  repeat split. now exists c.
Qed.

Lemma buffer_events_no_queue (bs : list Event) :
  forallb buffer_event bs = true -> existsb is_queue bs = false.
Proof.
  induction bs as [| e bs IH]; [reflexivity |].
  cbn [forallb existsb]. intros H. apply andb_true_iff in H as [He Hbs].
  rewrite (IH Hbs). destruct e; try discriminate He; reflexivity.
Qed.

Lemma process_buffers_keep_camera (V : Vendor) (l : list (Stream * FrameBuffer)) :
  keeps camera (for_each l (process_buffer V)).
Proof.
  unfold process_buffer. tracks_all. apply print_planes_keeps.
Qed.

(** X13.  [finish] resets the shared handle and deletes the allocator, but
    leaves [requests], the stream and the manager pointer of every object
    as they are.  Once it has returned, everything that goes through the
    handle is undefined: a second [finish] on any object stops at its first
    statement, [go] on an object that still holds requests queues nothing,
    and a [processRequest] still waiting in the loop ends undefined without
    queueing its request. *)
Theorem nothing_works_after_finish (V : Vendor) (this : nat) (w : World)
    (es : list Event) (code : Z) (w' : World) :
  finish this w = (es, Ok code w') ->
  camera w' = None
  /\ allocator (objects w' this) = None
  /\ (forall p, requests (objects w' p) = requests (objects w p)
                /\ stream (objects w' p) = stream (objects w p)
                /\ cm (objects w' p) = cm (objects w p))
  /\ (forall p, finish p w' = ([], Undefined))
  /\ (forall p, requests (objects w p) <> [] -> go V p w' = ([], Undefined))
  /\ (forall request,
        snd (processRequest V request w') = Undefined
        /\ existsb is_queue (fst (processRequest V request w')) = false).
Proof.
  intros H. destruct (finish_returns this w es code w' H) as (Hcam & Ha & _).
  assert (Hkeep : forall p, requests (objects w' p) = requests (objects w p)
                            /\ stream (objects w' p) = stream (objects w p)
                            /\ cm (objects w' p) = cm (objects w p)).
  { intros p. pose proof (keeps_spec _ _ _ _ _ _ (finish_keeps this p) H) as Hp.
    cbv beta in Hp. injection Hp as -> -> ->. repeat split. }
  split; [exact Hcam |]. split; [exact Ha |]. split; [exact Hkeep |].
  split; [| split].
  - intros p. unfold finish. run. rewrite Hcam. reflexivity.
  - intros p Hreq. destruct (Hkeep p) as (Hr & _). rewrite <- Hr in Hreq.
    unfold go. run. destruct (requests (objects w' p)) as [| r l]; [contradiction |].
    cbn [for_each]. run. rewrite Hcam. reflexivity.
  - intros request. unfold processRequest. run.
    pose proof (emits_for_each (buffers request) (process_buffer V)
                  (process_buffer_emits V) w') as Hall.
    destruct (for_each (buffers request) (process_buffer V) w') as [bs [[] w1 |]] eqn:Hbs;
      cbn [fst] in Hall.
    + rewrite (keeps_spec camera _ _ _ _ _ (process_buffers_keep_camera V _) Hbs), Hcam.
      run. split; [reflexivity |].
      rewrite existsb_app, (buffer_events_no_queue _ Hall). reflexivity.
    + split; [reflexivity | exact (buffer_events_no_queue _ Hall)].
Qed.


Lemma nothing_works_after_finish_witness :
  go Demo.good 0 (Samples.finished Demo.good) = ([], Undefined)
  /\ finish 0 (Samples.finished Demo.good) = ([], Undefined).
Proof.
  assert (Hrun : finish 0 (state_after (go Demo.good 0 (Demo.started Demo.good)) Demo.initial)
                 = (fst (finish 0 (state_after (go Demo.good 0 (Demo.started Demo.good))
                                     Demo.initial)),
                    Ok EXIT_SUCCESS (Samples.finished Demo.good)))
    by (vm_compute; reflexivity).
  destruct (nothing_works_after_finish Demo.good 0 _ _ _ _ Hrun)
    as (_ & _ & _ & Hfinish & Hgo & _).
  split; [| apply Hfinish].
  apply Hgo. vm_compute. discriminate.
Defined.

Section StartFailure.

Variable V : Vendor.

Lemma create_request_keeps (this : nat) (s : Stream) (b : FrameBuffer) :
  keeps (fun w => (camera w, stream (objects w this), allocator (objects w this),
                   cm (objects w this)))
        (create_request V this s b).
Proof. unfold create_request. tracks_all. Qed.

Lemma create_requests_keep (this : nat) (s : Stream) (l : list FrameBuffer) :
  keeps (fun w => (camera w, stream (objects w this), allocator (objects w this),
                   cm (objects w this)))
        (for_each_return l (create_request V this s)).
Proof. apply tracks_for_each_return. intros b. apply create_request_keeps. Qed.

(** A pass of the request loop starts with [createRequest]. *)
Lemma create_requests_failed (this : nat) (s : Stream) (l : list FrameBuffer) :
  forall (w : World) (es : list Event) (code : Z) (w' : World),
  for_each_return l (create_request V this s) w = (es, Ok (Some code) w') ->
  existsb is_create es = true.
Proof.
  induction l as [| b l IH]; intros w es code w' H; [discriminate H |].
  cbn [for_each_return] in H. unfold create_request at 1 in H. run_in H.
  destruct (camera w) as [c |]; run_in H; [| discriminate].
  destruct (v_createRequest V (n_createRequest (calls w))) as [q |]; run_in H;
    [| inversion H; reflexivity].
  match type of H with context [(?r <? 0)%Z] => destruct (r <? 0)%Z end;
    run_in H; [inversion H; reflexivity |].
  match type of H with context [for_each_return l _ ?w1] =>
    destruct (for_each_return l (create_request V this s) w1)
      as [es1 [[code1 |] w1' |]] end; run_in H; inversion H; reflexivity.
Qed.

Lemma allocate_events_no_create (es : list Event) :
  forallb allocate_event es = true ->
  existsb is_create es = false /\ existsb is_new_allocator es = false.
Proof.
  induction es as [| e es IH]; [now split |].
  cbn [forallb existsb]. intros H. apply andb_true_iff in H as [He Hes].
  destruct (IH Hes) as [-> ->]. destruct e; try discriminate He; now split.
Qed.

Lemma cout_no_create {A : Type} (P : Event -> bool) (g : A -> string) (l : list A) :
  (forall t, P (Cout t) = false) ->
  existsb P (map (fun x => Cout (g x)) l) = false.
Proof.
  intros HP. induction l as [| x l IH]; [reflexivity |].
  cbn [map existsb]. now rewrite HP, IH.
Qed.

Lemma prelude_no_allocator (c : Camera) (config : CameraConfiguration) :
  existsb is_create (start_prelude V c config) = false
  /\ existsb is_new_allocator (start_prelude V c config) = false.
Proof.
  unfold start_prelude, start_acquired.
  split; repeat (rewrite existsb_app || cbn [existsb is_create is_new_allocator orb]);
    now rewrite cout_no_create.
Qed.

Lemma setup_trace_allocator (w : World) (c : Camera) (config : CameraConfiguration) :
  existsb is_create (setup_trace V w c config) = false
  /\ existsb is_new_allocator (setup_trace V w c config) = true.
Proof.
  destruct (prelude_no_allocator c config) as [H1 H2].
  unfold setup_trace, configured_trace. cbv zeta.
  split; repeat (rewrite existsb_app || cbn [existsb is_create is_new_allocator orb]);
    rewrite ?H1, ?H2, ?cout_no_create by reflexivity; cbn [orb];
    rewrite ?orb_true_r; reflexivity.
Qed.

(** The four ways [start] can fail, with the state each one leaves: no
    camera, the first [configure], the allocation loop, the request loop. *)
Lemma start_failure_cases (this : nat) (w : World) (es : list Event) (w' : World) :
  start V this w = (es, Ok EXIT_FAILURE w') ->
  (v_cameras V = []
   /\ existsb is_new_allocator es = false
   /\ camera w' = camera w
   /\ allocator (objects w' this) = allocator (objects w this))
  \/ (exists first,
        hd_error (v_cameras V) = Some first
        /\ existsb is_new_allocator es = false
        /\ camera w' = Some first
        /\ allocator (objects w' this) = allocator (objects w this))
  \/ (exists first,
        hd_error (v_cameras V) = Some first
        /\ existsb is_new_allocator es = true
        /\ existsb is_create es = false
        /\ camera w' = Some first
        /\ allocator (objects w' this) = Some (mkAllocator (Some first))
        /\ stream (objects w' this) = stream (objects w this)
        /\ cm (objects w' this) = Some this)
  \/ (exists first config,
        hd_error (v_cameras V) = Some first
        /\ generated_config V first = Some config
        /\ existsb is_new_allocator es = true
        /\ existsb is_create es = true
        /\ camera w' = Some first
        /\ allocator (objects w' this) = Some (mkAllocator (Some first))
        /\ stream (objects w' this) = Some (cfg_stream (at0 (final_config V w config)))
        /\ cm (objects w' this) = Some this).
Proof.
  intros H. unfold start in H. run_in H. rewrite for_each_cout in H. run_in H.
  destruct (v_cameras V) as [| first rest] eqn:Hcams; run_in H.
  { rewrite Nat.eqb_refl in H. cbn [cm with_cm] in H. run_in H. inversion H.
    left. cbn [objects set_object camera]. rewrite Nat.eqb_refl. repeat split. }
  right. rewrite (cm_get_first V first rest Hcams) in H. run_in H.
  destruct (generated_config V first) as [config |] eqn:Hgen; run_in H; [| discriminate H].
  fold (requested_config config) in H.
  set (r := v_configure V (n_configure (calls w)) (requested_config config)) in *.
  destruct (fst r =? 0)%Z eqn:Hr; cbn [negb] in H; run_in H.
  2:{ inversion H. left. exists first. split; [reflexivity |].
      cbn [objects set_object set_calls set_camera camera]. rewrite Nat.eqb_refl.
      split; [| split; reflexivity].
      destruct (prelude_no_allocator first config) as [_ Hp].
      match goal with |- existsb is_new_allocator ?t = false =>
        replace t with (start_prelude V first config
                        ++ [Configure first (requested_config config) (fst r);
                            Cout ("CONFIGURATION FAILED!" ++ endl)])%list
          by (unfold start_prelude, start_acquired; rewrite Hcams;
              repeat (rewrite <- app_assoc || rewrite <- app_comm_cons); reflexivity) end.
      now rewrite existsb_app, Hp. }
  apply Z.eqb_eq in Hr.
  set (validated := v_validate V (snd r)) in *.
  set (r' := v_configure V (S (n_configure (calls w))) validated) in *.
  rewrite for_each_cout in H. run_in H. rewrite for_each_cout in H. run_in H.
  rewrite Nat.eqb_refl in H.
  match type of H with context [for_each_return _ (allocate_stream V this) ?x1] =>
    destruct (allocate_streams_run V this (mkAllocator (Some first)) (entries (snd r')) x1)
      as (esA & rA & kA & HrunA & _ & _ & _ & HcasesA);
    [cbn [objects set_object set_calls]; rewrite Nat.eqb_refl; reflexivity |]
  end.
  rewrite HrunA in H. run_in H.
  destruct (setup_trace_allocator w first config) as [Hs1 Hs2].
  destruct HcasesA as [(-> & HesA & _) | [-> (preA & s0 & r0 & -> & Hr0 & HpreA)]];
    run_in H.
  2:{ inversion H. right. left. exists first. split; [reflexivity |].
      cbn [objects set_object set_calls set_camera camera]. rewrite !Nat.eqb_refl.
      destruct (allocate_events_no_create _ HpreA) as [Hpre1 Hpre2].
      assert (Heq : forall P, existsb P es
                = existsb P (setup_trace V w first config ++ preA
                             ++ [Allocate s0 r0; Cerr ("Can't allocate buffers" ++ endl)])).
      { intros P. subst es. f_equal.
        unfold setup_trace, configured_trace, start_prelude, start_acquired.
        rewrite Hcams. fold r validated r'.
        repeat (rewrite <- app_assoc || rewrite <- app_comm_cons). reflexivity. }
      subst es. rewrite !Heq, !existsb_app, Hs1, Hs2, Hpre1.
      repeat split. }
  rewrite Nat.eqb_refl in H.
  match type of H with context [for_each_return ?l (create_request V this ?s) ?x2] =>
    destruct (for_each_return l (create_request V this s) x2)
      as [esR [[codeR |] wR |]] eqn:HrunR
  end; run_in H.
  - inversion H. subst codeR wR es. right. right.
    pose proof (keeps_spec _ _ _ _ _ _ (create_requests_keep this _ _) HrunR) as Hkeep.
    cbv beta in Hkeep.
    cbn [objects set_object set_calls set_camera camera] in Hkeep.
    rewrite !Nat.eqb_refl in Hkeep.
    unfold with_stream, with_allocator, with_cm in Hkeep.
    cbn [stream allocator cm] in Hkeep.
    pose proof (f_equal (fun x => fst (fst (fst x))) Hkeep) as Hk1.
    pose proof (f_equal (fun x => snd (fst (fst x))) Hkeep) as Hk2.
    pose proof (f_equal (fun x => snd (fst x)) Hkeep) as Hk3.
    pose proof (f_equal snd Hkeep) as Hk4.
    cbn [fst snd] in Hk1, Hk2, Hk3, Hk4.
    exists first, config. split; [reflexivity |]. split; [exact Hgen |].
    match goal with |- existsb _ ?t = _ /\ _ =>
      replace t with (setup_trace V w first config ++ esA ++ esR)%list
        by (unfold setup_trace, configured_trace, start_prelude, start_acquired;
            rewrite Hcams, ?app_nil_r; fold r validated r';
            repeat (rewrite <- app_assoc || rewrite <- app_comm_cons); reflexivity) end.
    rewrite !existsb_app, Hs2, (create_requests_failed _ _ _ _ _ _ _ HrunR).
    rewrite !orb_true_r. cbn [orb].
    split; [reflexivity |]. split; [reflexivity |].
    split; [exact Hk1 | split; [exact Hk3 | split; [exact Hk2 | exact Hk4]]].
  - pose proof (keeps_spec _ _ _ _ _ _ (create_requests_keep this _ _) HrunR) as Hkeep.
    apply (f_equal (fun x => fst (fst (fst x)))) in Hkeep. cbn [fst camera set_object set_calls
      set_camera] in Hkeep.
    rewrite Hkeep in H. run_in H. rewrite Hkeep in H. run_in H.
    unfold EXIT_SUCCESS, EXIT_FAILURE in H. discriminate H.
  - discriminate H.
Qed.

End StartFailure.

(** X15.  What [finish] does after a failing [start], on an object that was
    not set up before.  If [start] had created the allocator (it failed in
    the allocation loop or in the request loop), [finish] does the complete
    teardown, releases the camera [start] acquired and returns
    [EXIT_SUCCESS]; the stream it passes to [free] is the member as [start]
    left it: still unset after a failed [allocate], the stream of the
    configuration after a failed [createRequest] or [addBuffer].  If
    [start] failed before that, [finish] is undefined: with no camera it
    stops at the null handle, and after a failed [configure] it stops the
    camera, which was never started, and then goes through the allocator
    pointer that was never set; the camera [start] acquired is not
    released. *)
Theorem finish_after_failed_start (V : Vendor) (this : nat) (w : World)
    (es : list Event) (w' : World) :
  camera w = None ->
  allocator (objects w this) = None ->
  stream (objects w this) = None ->
  start V this w = (es, Ok EXIT_FAILURE w') ->
  (existsb is_new_allocator es = true ->
   exists first w'',
     hd_error (v_cameras V) = Some first
     /\ finish this w'
        = ([CameraStop first; AllocatorFree (stream (objects w' this));
            AllocatorDelete (mkAllocator (Some first));
            Release first; CameraReset; CmStop],
           Ok EXIT_SUCCESS w'')
     /\ camera w'' = None
     /\ allocator (objects w'' this) = None
     /\ (existsb is_create es = false -> stream (objects w' this) = None)
     /\ (existsb is_create es = true ->
         exists config,
           generated_config V first = Some config
           /\ stream (objects w' this)
              = Some (cfg_stream (at0 (final_config V w config)))))
  /\ (existsb is_new_allocator es = false ->
      finish this w'
      = (match v_cameras V with
         | [] => []
         | first :: _ => [CameraStop first]
         end, Undefined)).
Proof.
  intros Hcam Ha Hs H.
  destruct (start_failure_cases V this w es w' H)
    as [(Hcams & Hno & Hc' & Ha')
       | [(first & Hcams & Hno & Hc' & Ha')
         | [(first & Hcams & Hyes & Hcr & Hc' & Ha' & Hs' & Hm')
           | (first & config & Hcams & Hgen & Hyes & Hcr & Hc' & Ha' & Hs' & Hm')]]].
  - rewrite Hno. split; [discriminate |]. intros _. rewrite Hcams.
    unfold finish. run. rewrite Hc', Hcam. reflexivity.
  - rewrite Hno. split; [discriminate |]. intros _.
    destruct (v_cameras V) as [| f l]; [discriminate Hcams |]. injection Hcams as ->.
    unfold finish. run. rewrite Hc'. run. rewrite Ha', Ha. reflexivity.
  - rewrite Hyes, Hcr. split; [| discriminate]. intros _.
    exists first. eexists. split; [exact Hcams |].
    split; [exact (finish_run this first _ this w' Hc' Ha' Hm') |].
    split; [reflexivity |].
    split; [cbn [objects set_camera set_object]; now rewrite Nat.eqb_refl |].
    split; [intros _; now rewrite Hs', Hs | discriminate].
  - rewrite Hyes, Hcr. split; [| discriminate]. intros _.
    exists first. eexists. split; [exact Hcams |].
    split; [exact (finish_run this first _ this w' Hc' Ha' Hm') |].
    split; [reflexivity |].
    split; [cbn [objects set_camera set_object]; now rewrite Nat.eqb_refl |].
    split; [discriminate | intros _; now exists config].
Qed.

Lemma finish_after_failed_start_witness :
  exists w'',
    finish 0 (state_after (start Demo.allocate_fails 0 Demo.initial) Demo.initial)
    = ([CameraStop Demo.cam0; AllocatorFree None;
        AllocatorDelete (mkAllocator (Some Demo.cam0));
        Release Demo.cam0; CameraReset; CmStop],
       Ok EXIT_SUCCESS w'')
    /\ camera w'' = None.
Proof.
  assert (Hrun : start Demo.allocate_fails 0 Demo.initial
                 = (fst (start Demo.allocate_fails 0 Demo.initial),
                    Ok EXIT_FAILURE
                       (state_after (start Demo.allocate_fails 0 Demo.initial) Demo.initial)))
    by (vm_compute; reflexivity).
  destruct (finish_after_failed_start Demo.allocate_fails 0 Demo.initial _ _
              eq_refl eq_refl eq_refl Hrun) as (Hlate & _).
  destruct (Hlate eq_refl) as (first & w'' & Hfirst & Hfinish & Hcam & _ & Hnone & _).
  injection Hfirst as <-. rewrite (Hnone eq_refl) in Hfinish.
  exists w''. split; [exact Hfinish | exact Hcam].
Defined.

(* ------------------------------------------------------------------------- *)
(** ** The program on the concrete vendor *)
(* ------------------------------------------------------------------------- *)

Example start_no_cameras :
  returned (snd (start Demo.no_cameras 0 Demo.initial)) = Some EXIT_FAILURE.
Proof. reflexivity. Qed.

Example start_configure_fails :
  returned (snd (start Demo.configure_fails 0 Demo.initial)) = Some EXIT_FAILURE.
Proof. reflexivity. Qed.

Example start_second_configure_fails :
  returned (snd (start Demo.second_configure_fails 0 Demo.initial)) = Some EXIT_SUCCESS.
Proof. reflexivity. Qed.

Example start_allocate_fails :
  returned (snd (start Demo.allocate_fails 0 Demo.initial)) = Some EXIT_FAILURE.
Proof. reflexivity. Qed.

Example start_createRequest_fails :
  returned (snd (start Demo.createRequest_fails 0 Demo.initial)) = Some EXIT_FAILURE.
Proof. reflexivity. Qed.

Example start_addBuffer_fails :
  returned (snd (start Demo.addBuffer_fails 0 Demo.initial)) = Some EXIT_FAILURE.
Proof. reflexivity. Qed.

Example start_good :
  returned (snd (start Demo.good 0 Demo.initial)) = Some EXIT_SUCCESS.
Proof. reflexivity. Qed.

Example start_null_configuration :
  start Samples.null_configuration 0 Demo.initial
  = ([CmStart; Cout (" - Internal back camera (imx219)" ++ endl);
      Acquire Demo.cam0; GenerateConfiguration Demo.cam0], Undefined).
Proof. reflexivity. Qed.

Example start_empty_configuration :
  snd (start Samples.empty_configuration 0 Demo.initial) = Undefined.
Proof. reflexivity. Qed.

Example finish_after_configure_fails :
  finish 0 (state_after (start Demo.configure_fails 0 Demo.initial) Demo.initial)
  = ([CameraStop Demo.cam0], Undefined).
Proof. reflexivity. Qed.

Example lifecycle_good :
  returned (snd (lifecycle Demo.good 0 Demo.initial)) = Some EXIT_SUCCESS.
Proof. reflexivity. Qed.

Example lifecycle_images :
  map fst (written_images (fst (lifecycle Demo.good 0 Demo.initial)))
  = ["images/img0.250000.png"; "images/img0.750000.png"].
Proof. reflexivity. Qed.

Example lifecycle_text_tail :
  stdout_text (fst (go Demo.good 0 (Demo.started Demo.good)))
  = " seq: 000007 bytesused: 3779136/944784/944784"
    ++ " size 2592x1944 stride 2592 format YUV420 sec 0" ++ endl
    ++ " seq: 1234567 bytesused: 3779136"
    ++ " size 2592x1944 stride 2592 format YUV420 sec 0.5" ++ endl
    ++ "Capture ran for 3 seconds and stopped with exit status: 0" ++ endl.
Proof. reflexivity. Qed.

Example unmapped_buffer_is_undefined :
  snd (processRequest Demo.good (Demo.completed 0 RequestComplete 7 [1%N] [])
         (Demo.started Demo.good))
  = Undefined.
Proof. reflexivity. Qed.

Example processRequest_without_camera :
  snd (processRequest Demo.good
         (Demo.completed 0 RequestComplete 7 [1%N] [mkSpan 4096 16]) Demo.initial)
  = Undefined.
Proof. reflexivity. Qed.

Example sequence_field_short : setw_setfill 6 "0" (to_string_N 42) = "000042".
Proof. reflexivity. Qed.

Example sequence_field_long : setw_setfill 6 "0" (to_string_N 1234567) = "1234567".
Proof. reflexivity. Qed.

Example unsigned_max : to_string_N 4294967295 = "4294967295".
Proof. reflexivity. Qed.

Example exit_status_negative : to_string_Z (-1) = "-1".
Proof. reflexivity. Qed.

Example camera_name : cameraName Demo.cam0 = "Internal back camera (imx219)".
Proof. reflexivity. Qed.

Example camera_name_external :
  cameraName (mkCamera "usb-1" CameraLocationExternal (Some "C920") [] [])
  = "External camera 'C920' (usb-1)".
Proof. reflexivity. Qed.

Example image_size_as_int :
  int_of_unsigned 1944 = 1944%Z /\ int_of_unsigned 4294967295 = (-1)%Z.
Proof. split; reflexivity. Qed.
